(** * RoboSet video preparation: the quota-aware trial walker

    A shallow embedding of [processing.py] (the quota-aware walker
    [process_h5_file] and its driver [process_tarfile]) and of the
    frame-sampling step it shares with [prepare_Autonomous.py], followed by
    the properties of the natural-language specification that can be stated
    over it.

    Layout: the Python string primitives the walker relies on, the binary64
    arithmetic behind [np.linspace], the container and file-system model,
    the walker as a state-and-exception computation, and then the theorems. *)

From Stdlib Require Import ZArith List String Ascii Bool Lia Sorted Permutation.
From Stdlib Require Import Floats.SpecFloat.
From stdpp Require Import base option list gmap sets strings.

Local Open Scope string_scope.
Local Open Scope Z_scope.

(* ===================================================================== *)
(** ** Python string primitives *)
(* ===================================================================== *)

Module PyStr.

(** [s.startswith(p)] *)
Fixpoint starts_with (p s : string) : bool :=
  match p, s with
  | EmptyString, _ => true
  | String a p', String b s' => Ascii.eqb a b && starts_with p' s'
  | String _ _, EmptyString => false
  end.

(** [p in s] *)
Fixpoint contains (p s : string) : bool :=
  starts_with p s ||
  match s with
  | EmptyString => false
  | String _ s' => contains p s'
  end.

(** [new.join(s)] with separators at both ends: what [s.replace("", new)]
    returns. *)
Fixpoint interleave (new s : string) : string :=
  match s with
  | EmptyString => new
  | String c s' => new +:+ String c (interleave new s')
  end.

(** Left-to-right scan of [s.replace(old, new)] for a non-empty [old];
    [skip] counts the characters of the current occurrence still to drop. *)
Fixpoint replace_scan (old new : string) (skip : nat) (s : string) : string :=
  match s with
  | EmptyString => EmptyString
  | String c s' =>
      match skip with
      | S k => replace_scan old new k s'
      | O =>
          if starts_with old s
          then new +:+ replace_scan old new (Nat.pred (String.length old)) s'
          else String c (replace_scan old new O s')
      end
  end.

(** [s.replace(old, new)] *)
Definition replace (old new s : string) : string :=
  match old with
  | EmptyString => interleave new s
  | String _ _ => replace_scan old new O s
  end.

(** [s.split(sep)] for a one-character separator. *)
Fixpoint split (sep : ascii) (s : string) : list string :=
  match s with
  | EmptyString => [EmptyString]
  | String c s' =>
      if Ascii.eqb c sep then EmptyString :: split sep s'
      else match split sep s' with
           | h :: t => String c h :: t
           | [] => [String c EmptyString]
           end
  end.

(** [os.path.basename(p)] on POSIX: what follows the last slash. *)
Definition basename (p : string) : string :=
  List.last (split "/"%char p) EmptyString.

Fixpoint ends_with_slash (s : string) : bool :=
  match s with
  | EmptyString => false
  | String c EmptyString => Ascii.eqb c "/"%char
  | String _ s' => ends_with_slash s'
  end.

(** [os.path.join(a, b)] on POSIX. *)
Definition path_join (a b : string) : string :=
  if starts_with "/" b then b
  else match a with
       | EmptyString => b
       | _ => if ends_with_slash a then a +:+ b else a +:+ "/" +:+ b
       end.

(** White space in the sense of [int()] and [str.strip()], restricted to
    ASCII: TAB, LF, VT, FF, CR, FS, GS, RS, US and the blank. *)
Definition is_space (c : ascii) : bool :=
  let n := nat_of_ascii c in
  ((9 <=? n)%nat && (n <=? 13)%nat) || ((28 <=? n)%nat && (n <=? 32)%nat).

Definition is_digit (c : ascii) : bool :=
  let n := nat_of_ascii c in (48 <=? n)%nat && (n <=? 57)%nat.

Definition digit_val (c : ascii) : Z := Z.of_nat (nat_of_ascii c) - 48.

Fixpoint lstrip (s : string) : string :=
  match s with
  | EmptyString => EmptyString
  | String c s' => if is_space c then lstrip s' else s
  end.

Fixpoint rstrip (s : string) : string :=
  match s with
  | EmptyString => EmptyString
  | String c s' =>
      match rstrip s' with
      | EmptyString => if is_space c then EmptyString else String c EmptyString
      | r => String c r
      end
  end.

Definition strip (s : string) : string := rstrip (lstrip s).

(** The digit part of a decimal literal: digits, with single underscores
    allowed between two digits.  [after_digit] tells whether the previous
    character was a digit. *)
Fixpoint int_digits (after_digit : bool) (acc : Z) (s : string) : option Z :=
  match s with
  | EmptyString => if after_digit then Some acc else None
  | String c s' =>
      if is_digit c then int_digits true (10 * acc + digit_val c) s'
      else if Ascii.eqb c "_"%char && after_digit then
             match s' with
             | EmptyString => None
             | String _ _ => int_digits false acc s'
             end
      else None
  end.

(** [int(s)] in base ten; [None] stands for the [ValueError]. *)
Definition int (s : string) : option Z :=
  match strip s with
  | String "-"%char r => option_map Z.opp (int_digits false 0 r)
  | String "+"%char r => int_digits false 0 r
  | r => int_digits false 0 r
  end.

(** Insertion into a list ordered by key, before the first element whose
    key is not smaller: elements with equal keys keep their order. *)
Fixpoint insert_keyed {A} (x : Z * A) (l : list (Z * A)) : list (Z * A) :=
  match l with
  | [] => [x]
  | y :: l' => if x.1 <=? y.1 then x :: l else y :: insert_keyed x l'
  end.

(** [sorted(l, key=...)] on a list already decorated with its keys: a stable
    sort, so its result is the one Python's own stable sort returns. *)
Definition sort_keyed {A} (l : list (Z * A)) : list (Z * A) :=
  foldr insert_keyed [] l.

(** Decoration of a list with its keys; the first key that fails makes the
    whole decoration fail, as in [sorted], which computes every key before
    comparing any. *)
Fixpoint decorate {A} (key : A -> option Z) (l : list A) : option (list (Z * A)) :=
  match l with
  | [] => Some []
  | x :: l' =>
      match key x with
      | None => None
      | Some k =>
          match decorate key l' with
          | None => None
          | Some r => Some ((k, x) :: r)
          end
      end
  end.

(** [sorted(l, key=key)] *)
Definition sorted_by {A} (key : A -> option Z) (l : list A) : option (list A) :=
  option_map (fun d => map snd (sort_keyed d)) (decorate key l).

End PyStr.

(* ===================================================================== *)
(** ** IEEE 754 binary64, as NumPy's [float64] *)
(* ===================================================================== *)

Module F64.

Definition prec : Z := 53.
Definition emax : Z := 1024.

Definition zero : spec_float := S754_zero false.

(** Conversion of an integer, rounding to nearest even. *)
Definition of_Z (z : Z) : spec_float := binary_normalize prec emax z 0 false.

Definition add : spec_float -> spec_float -> spec_float := SFadd prec emax.
Definition sub : spec_float -> spec_float -> spec_float := SFsub prec emax.
Definition mul : spec_float -> spec_float -> spec_float := SFmul prec emax.
Definition div : spec_float -> spec_float -> spec_float := SFdiv prec emax.
Definition eqb : spec_float -> spec_float -> bool := SFeqb.

(** The integer part of [np.floor x]; [None] for NaN and the infinities. *)
Definition floor (x : spec_float) : option Z :=
  match x with
  | S754_zero _ => Some 0
  | S754_finite s m e =>
      let sm := cond_Zopp s (Z.pos m) in
      Some (match e with
            | Z.neg p => sm / 2 ^ Z.pos p
            | _ => sm * 2 ^ e
            end)
  | _ => None
  end.

Definition int64_min : Z := - 2 ^ 63.

(** [np.floor(x).astype(int)] with 64-bit [int]: a value that does not fit,
    a NaN or an infinity becomes the most negative integer (what the x86-64
    conversion instruction returns). *)
Definition floor_to_int64 (x : spec_float) : Z :=
  match floor x with
  | Some z => if (int64_min <=? z) && (z <? 2 ^ 63) then z else int64_min
  | None => int64_min
  end.

End F64.

(* ===================================================================== *)
(** ** [np.linspace(start, stop, num, dtype=int)] *)
(* ===================================================================== *)

Module Np.

(** [y[-1] = v] on a one-dimensional array. *)
Fixpoint set_last {A} (v : A) (y : list A) : list A :=
  match y with
  | [] => []
  | [_] => [v]
  | x :: y' => x :: set_last v y'
  end.

(** [np.arange(0, num, dtype=float64)] *)
Definition arange (num : Z) : list spec_float :=
  map (fun i => F64.of_Z (Z.of_nat i)) (seq 0 (Z.to_nat num)).

(** [np.linspace(start, stop, num, dtype=int)] for integer [start] and
    [stop], following NumPy's [linspace]: the samples are computed in
    [float64] as [i * step + start], the last one is overwritten with
    [stop], and the result is floored and cast.  [None] stands for the
    [ValueError] raised for a negative [num]. *)
Definition linspace_int (start stop num : Z) : option (list Z) :=
  if num <? 0 then None
  else
    let dv := num - 1 in
    let fstart := F64.of_Z start in
    let fstop := F64.of_Z stop in
    let delta := F64.sub fstop fstart in
    let y := arange num in
    let y :=
      if 0 <? dv then
        let step := F64.div delta (F64.of_Z dv) in
        if F64.eqb step F64.zero
        then map (fun v => F64.mul (F64.div v (F64.of_Z dv)) delta) y
        else map (fun v => F64.mul v step) y
      else map (fun v => F64.mul v delta) y in
    let y := map (fun v => F64.add v fstart) y in
    let y := if 1 <? num then set_last fstop y else y in
    Some (map F64.floor_to_int64 y).

(** The sampling step of both walkers:
    [np.linspace(0, total_frames-1, frame_count, dtype=int)]. *)
Definition sample (total_frames frame_count : Z) : option (list Z) :=
  linspace_int 0 (total_frames - 1) frame_count.

End Np.

(* ===================================================================== *)
(** ** Arrays and data-container files *)
(* ===================================================================== *)

Module H5.

Inductive dtype := UInt8 | Float32 | Float64.

Inductive scalar :=
| SInt (z : Z)
| SFlt (x : spec_float).

(** An array, seen along its first axis: for a view stream of shape
    [[n; h; w; 3]], [nd_items] holds the [n] frames, each flattened. *)
Record ndarray := {
  nd_dtype : dtype;
  nd_shape : list Z;
  nd_items : list (list scalar)
}.

(** A dataset of a [data] group; [Unreadable] is one whose read raises. *)
Inductive dataset :=
| Readable (a : ndarray)
| Unreadable.

(** A trial group: its [data] member when it has one. *)
Record trial := { tr_data : option (gmap string dataset) }.

(** A data-container file: its root members in the order [file.keys()]
    yields them.  Members whose name contains [Trial] are groups. *)
Definition container := list (string * trial).

Definition keys (f : container) : list string := map fst f.

(** [file[k]] *)
Fixpoint member (f : container) (k : string) : option trial :=
  match f with
  | [] => None
  | (k', t) :: f' => if String.eqb k k' then Some t else member f' k
  end.

(** [a[i]] along the first axis, a negative [i] counting from the end. *)
Definition item (a : ndarray) (i : Z) : option (list scalar) :=
  let n := Z.of_nat (length (nd_items a)) in
  if (0 <=? i) && (i <? n) then nd_items a !! Z.to_nat i
  else if (- n <=? i) && (i <? 0) then nd_items a !! Z.to_nat (i + n)
  else None.

(** [a[indices]]; [None] stands for the [IndexError]. *)
Definition take (a : ndarray) (indices : list Z) : option ndarray :=
  option_map
    (fun its => {| nd_dtype := nd_dtype a;
                   nd_shape := Z.of_nat (length indices) :: tail (nd_shape a);
                   nd_items := its |})
    (mapM (item a) indices).

(** The C conversion of a float to [uint8]: truncation towards zero, then
    the low eight bits.  NaN and the infinities give 0. *)
Definition float_to_uint8 (x : spec_float) : Z :=
  match x with
  | S754_finite s m e =>
      let t := match e with
               | Z.neg p => Z.pos m / 2 ^ Z.pos p
               | _ => Z.pos m * 2 ^ e
               end in
      (cond_Zopp s t) mod 256
  | _ => 0
  end.

(** One element of [(frames * 255).astype(np.uint8)]. *)
Definition scale_scalar (dt : dtype) (v : scalar) : scalar :=
  match v with
  | SInt z => SInt ((z * 255) mod 256)
  | SFlt x =>
      let y := match dt with
               | Float32 => SFmul 24 128 x (binary_normalize 24 128 255 0 false)
               | _ => F64.mul x (F64.of_Z 255)
               end in
      SInt (float_to_uint8 y)
  end.

(** [(frames * 255).astype(np.uint8)] *)
Definition scale_to_uint8 (a : ndarray) : ndarray :=
  {| nd_dtype := UInt8;
     nd_shape := nd_shape a;
     nd_items := map (map (scale_scalar (nd_dtype a))) (nd_items a) |}.

(** [cv2.cvtColor(frame, cv2.COLOR_RGB2BGR)] on a flattened frame. *)
Fixpoint rgb2bgr (fr : list scalar) : list scalar :=
  match fr with
  | r :: g :: b :: fr' => b :: g :: r :: rgb2bgr fr'
  | _ => fr
  end.

End H5.

(* ===================================================================== *)
(** ** The world of the walker: file system, log, exceptions *)
(* ===================================================================== *)

Module Sys.

Import H5.

Inductive exn :=
| OSError            (* the container cannot be opened, a dataset read fails *)
| ValueError         (* [int()] of a malformed key, a negative sample count *)
| IndexError
| FileNotFoundError
| TarError
| Cv2Error.          (* raised by the OpenCV fallback *)

Inductive event :=
| EvOpen (h5_path : string)
| EvTrial (trial : string)
| EvRead (trial view : string)
| EvSample (trial view : string) (indices : list Z)
| EvMkdir (folder : string)
| EvSkipQuota (view_name : string) (pairs : Z)
| EvImageio (folder name : string) (frames : ndarray)
| EvImageioError
| EvCv2Open (codec : string) (folder name : string)
| EvCv2Write (folder name : string) (frames : list (list scalar))
| EvJson (folder name : string) (task_name : string)
| EvAllDone
| EvError (h5_path : string) (e : exn)
| EvTraceback
| EvExtract (tar_path : string)
| EvRemove (path : string).

(** The state the walker acts on: the entries of every existing directory,
    what was done and printed so far (oldest first), and how many times each
    encoding backend was asked. *)
Record world := {
  fs : gmap string (gset string);
  log : list event;
  imageio_calls : nat;
  cv2_calls : nat
}.

Definition set_fs (f : gmap string (gset string)) (w : world) : world :=
  {| fs := f; log := log w;
     imageio_calls := imageio_calls w; cv2_calls := cv2_calls w |}.

Definition add_log (e : event) (w : world) : world :=
  {| fs := fs w; log := log w ++ [e];
     imageio_calls := imageio_calls w; cv2_calls := cv2_calls w |}.

Definition tick_imageio (w : world) : world :=
  {| fs := fs w; log := log w;
     imageio_calls := S (imageio_calls w); cv2_calls := cv2_calls w |}.

Definition tick_cv2 (w : world) : world :=
  {| fs := fs w; log := log w;
     imageio_calls := imageio_calls w; cv2_calls := S (cv2_calls w) |}.

Inductive result (A : Type) :=
| Ret (a : A)
| Raise (e : exn).
Arguments Ret {A} a.
Arguments Raise {A} e.

(** A computation that reads and updates the world and may raise. *)
Definition M (A : Type) : Type := world -> result A * world.

Definition ret {A} (a : A) : M A := fun w => (Ret a, w).
Definition raise {A} (e : exn) : M A := fun w => (Raise e, w).
Definition bind {A B} (m : M A) (k : A -> M B) : M B :=
  fun w => match m w with
           | (Ret a, w') => k a w'
           | (Raise e, w') => (Raise e, w')
           end.
Definition emit (e : event) : M unit := fun w => (Ret tt, add_log e w).
Definition of_option {A} (e : exn) (o : option A) : M A :=
  match o with Some a => ret a | None => raise e end.

(** [os.path.exists(directory)] then [os.makedirs(directory)] *)
Definition ensure_dir (directory : string) : M unit :=
  fun w => match fs w !! directory with
           | Some _ => (Ret tt, w)
           | None => (Ret tt, add_log (EvMkdir directory)
                                (set_fs (<[directory := ∅]> (fs w)) w))
           end.

(** [os.listdir(folder)] *)
Definition listdir (folder : string) : M (gset string) :=
  fun w => match fs w !! folder with
           | Some entries => (Ret entries, w)
           | None => (Raise FileNotFoundError, w)
           end.

(** Creation (or truncation) of the file [name] in [folder]. *)
Definition create_file (folder name : string) : M unit :=
  fun w => match fs w !! folder with
           | Some entries =>
               (Ret tt, set_fs (<[folder := {[name]} ∪ entries]> (fs w)) w)
           | None => (Raise FileNotFoundError, w)
           end.

(** [len(entries)] *)
Definition len (entries : gset string) : Z := Z.of_nat (size entries).

Fixpoint for_each {A} (body : A -> M unit) (l : list A) : M unit :=
  match l with
  | [] => ret tt
  | x :: l' => bind (body x) (fun _ => for_each body l')
  end.

(** A [for] loop whose body may [return]: [Some r] is the returned value,
    [None] the normal end of the loop. *)
Fixpoint for_each_return {A R} (body : A -> M (option R)) (l : list A)
  : M (option R) :=
  match l with
  | [] => ret None
  | x :: l' =>
      bind (body x) (fun r =>
        match r with
        | Some v => ret (Some v)
        | None => for_each_return body l'
        end)
  end.

End Sys.

Declare Scope walker_scope.
Delimit Scope walker_scope with walker.
Notation "'let!' x ':=' m 'in' k" :=
  (Sys.bind m (fun x => k))
  (at level 10, x name, m at level 100, k at level 200) : walker_scope.
Notation "m ';;' k" :=
  (Sys.bind m (fun _ => k))
  (at level 100, k at level 200, right associativity) : walker_scope.

(* ===================================================================== *)
(** ** The quota-aware walker of [processing.py] *)
(* ===================================================================== *)

Module Walker.

Import H5 Sys.
Local Open Scope walker_scope.

Inductive imageio_result :=
| ImageioOk
| ImageioFails (partial : bool).   (* [partial]: a file was left behind *)

Inductive open_result := Opened | NotOpened | OpenRaises.

Record cv2_result := {
  cv_avc1 : open_result;     (* [cv2.VideoWriter] with the [avc1] codec *)
  cv_mp4v : open_result;     (* [cv2.VideoWriter] with the [mp4v] codec *)
  cv_frames_ok : bool        (* resize, colour conversion and write succeed *)
}.

Inductive extraction :=
| ExtractRaises
| Extracted (top : option string) (h5_files : list string).

(** What the walker does not decide itself: the containers on disk, the
    image resize of OpenCV, what each encoding attempt runs into (by rank
    of the attempt), and what an archive extracts to. *)
Record backends := {
  h5_open : string -> option container;
  cv2_resize : Z -> Z -> list scalar -> list scalar;
  imageio_run : nat -> imageio_result;
  cv2_run : nat -> cv2_result;
  extract : string -> extraction
}.

Definition rgb_views : list string :=
  ["rgb_left"; "rgb_right"; "rgb_top"; "rgb_wrist"].

Definition view_dirs : list string := ["left"; "right"; "top"; "wrist"].

(** [((x + 15) // 16) * 16] *)
Definition round_up_16 (x : Z) : Z := ((x + 15) / 16) * 16.

(** [view.split('_')[1]] *)
Definition view_name_of (view : string) : M string :=
  of_option IndexError (PyStr.split "_" view !! 1%nat).

(** [adjust_dimensions_to_multiple_of_16]; [None] when [frames[0].shape]
    cannot be read or unpacked into three values. *)
Definition adjust_dimensions_to_multiple_of_16 (env : backends) (frames : ndarray)
  : option ndarray :=
  match nd_items frames, nd_shape frames with
  | _ :: _, [n; height; width; channels] =>
      let new_width := round_up_16 width in
      let new_height := round_up_16 height in
      if (width =? new_width) && (height =? new_height) then Some frames
      else Some {| nd_dtype := nd_dtype frames;
                   nd_shape := [n; new_height; new_width; channels];
                   nd_items := map (cv2_resize env new_width new_height)
                                   (nd_items frames) |}
  | _, _ => None
  end.

(** [save_video_with_imageio(frames, output_path)], the output path being
    [os.path.join(folder, name)].  Whatever is raised inside is caught: the
    function prints and returns [False]. *)
Definition save_video_with_imageio (env : backends) (frames : ndarray)
    (folder name : string) : M bool :=
  fun w =>
    let frames :=
      match nd_dtype frames with
      | UInt8 => frames
      | _ => scale_to_uint8 frames
      end in
    match adjust_dimensions_to_multiple_of_16 env frames with
    | None => (Ret false, add_log EvImageioError w)
    | Some frames =>
        let k := imageio_calls w in
        let w := tick_imageio w in
        match imageio_run env k with
        | ImageioOk =>
            match create_file folder name w with
            | (Ret _, w') => (Ret true, add_log (EvImageio folder name frames) w')
            | (Raise _, w') => (Ret false, add_log EvImageioError w')
            end
        | ImageioFails partial =>
            let w' := if partial then snd (create_file folder name w) else w in
            (Ret false, add_log EvImageioError w')
        end
    end.

(** One [cv2.VideoWriter(video_path, fourcc, 10, size)]. *)
Definition cv2_writer (codec : string) (r : open_result) (folder name : string)
  : M bool :=
  emit (EvCv2Open codec folder name) ;;
  match r with
  | Opened => create_file folder name ;; ret true
  | NotOpened => ret false
  | OpenRaises => raise Cv2Error
  end.

(** The [try] / [except] that selects the codec of the fallback writer. *)
Definition cv2_select_codec (c : cv2_result) (folder name : string) : M bool :=
  fun w =>
    let attempt :=
      let! opened := cv2_writer "avc1" (cv_avc1 c) folder name in
      if opened then ret true
      else cv2_writer "mp4v" (cv_mp4v c) folder name in
    match attempt w with
    | (Ret opened, w') => (Ret opened, w')
    | (Raise _, w') => cv2_writer "mp4v" (cv_mp4v c) folder name w'
    end.

(** The OpenCV fallback, lines 126-155: it works on [selected_frames] as the
    sampler returned them. *)
Definition cv2_fallback (env : backends) (selected_frames : ndarray)
    (folder name : string) : M unit :=
  match nd_items selected_frames, nd_shape selected_frames with
  | _ :: _, _ :: height :: width :: _ =>
      let new_width := round_up_16 width in
      let new_height := round_up_16 height in
      fun w =>
        let c := cv2_run env (cv2_calls w) in
        (let! _opened := cv2_select_codec c folder name in
         if cv_frames_ok c then
           emit (EvCv2Write folder name
                   (map (fun frame => rgb2bgr (cv2_resize env new_width new_height frame))
                        (nd_items selected_frames)))
         else raise Cv2Error) (tick_cv2 w)
  | _, _ => raise IndexError
  end.

(** Lines 121-156: the primary encoder, then the fallback if it failed. *)
Definition write_video (env : backends) (selected_frames : ndarray)
    (folder name : string) : M unit :=
  let! saved := save_video_with_imageio env selected_frames folder name in
  if saved then ret tt
  else cv2_fallback env selected_frames folder name.

(** Lines 104-163, once the frames are selected: the names, the view
    folder and its quota, the video and its JSON file. *)
Definition store_clip (env : backends) (base_filename task_name output_folder : string)
    (max_pairs : Z) (trial view_name : string) (selected_frames : ndarray) : M unit :=
  let video_name := base_filename +:+ "-" +:+ trial +:+ "-" +:+ view_name +:+ ".mp4" in
  let view_folder := PyStr.path_join output_folder view_name in
  ensure_dir view_folder ;;
  let! existing_files := listdir view_folder in
  if 2 * max_pairs <=? len existing_files
  then emit (EvSkipQuota view_name (len existing_files / 2))
  else
    write_video env selected_frames view_folder video_name ;;
    let json_name := base_filename +:+ "-" +:+ trial +:+ "-" +:+ view_name +:+ ".json" in
    create_file view_folder json_name ;;
    emit (EvJson view_folder json_name task_name).

(** The validity test of line 96 on the shape of a stream. *)
Definition stream_invalid (shape : list Z) (frame_count : Z) : bool :=
  negb (Z.of_nat (length shape) =? 4)
  || (nth 0 shape 0 <? frame_count)
  || negb (nth 3 shape 0 =? 3).

(** The body of the loop over the views, lines 91-163. *)
Definition process_view (env : backends) (base_filename task_name output_folder : string)
    (frame_count max_pairs : Z) (trial : string) (data : gmap string dataset)
    (view : string) : M unit :=
  match data !! view with
  | None => ret tt
  | Some ds =>
      emit (EvRead trial view) ;;
      let! frames := of_option OSError
                       match ds with Readable a => Some a | Unreadable => None end in
      if stream_invalid (nd_shape frames) frame_count then ret tt
      else
        let total_frames := nth 0 (nd_shape frames) 0 in
        let! indices := of_option ValueError (Np.sample total_frames frame_count) in
        let! selected_frames := of_option IndexError (take frames indices) in
        emit (EvSample trial view indices) ;;
        let! view_name := view_name_of view in
        store_clip env base_filename task_name output_folder max_pairs
          trial view_name selected_frames
  end.

(** The loop that computes [all_done], lines 166-172. *)
Fixpoint all_done (output_folder : string) (max_pairs : Z) (views : list string)
  : M bool :=
  match views with
  | [] => ret true
  | view :: views' =>
      let! view_name := view_name_of view in
      let folder := PyStr.path_join output_folder view_name in
      let! entries := listdir folder in
      if len entries <? 2 * max_pairs then ret false
      else all_done output_folder max_pairs views'
  end.

(** The body of the loop over the trials, lines 83-175; [Some false] is the
    [return False] of line 175. *)
Definition process_trial (env : backends) (file : container)
    (base_filename task_name output_folder : string) (frame_count max_pairs : Z)
    (trial : string) : M (option bool) :=
  emit (EvTrial trial) ;;
  let! node := of_option OSError (member file trial) in
  match tr_data node with
  | None => ret None
  | Some data =>
      for_each (process_view env base_filename task_name output_folder
                  frame_count max_pairs trial data) rgb_views ;;
      let! done := all_done output_folder max_pairs rgb_views in
      if done then emit EvAllDone ;; ret (Some false) else ret None
  end.

(** Lines 79-80: the trial keys in the order the walker visits them. *)
Definition trial_key (k : string) : option Z :=
  PyStr.int (PyStr.replace "Trial" "" k).

Definition sorted_trials (keys : list string) : option (list string) :=
  PyStr.sorted_by trial_key (List.filter (PyStr.contains "Trial") keys).

(** The body of the [try], lines 77-176. *)
Definition walk (env : backends) (h5_path base_filename task_name output_folder : string)
    (frame_count max_pairs : Z) : M bool :=
  emit (EvOpen h5_path) ;;
  let! file := of_option OSError (h5_open env h5_path) in
  let! trials := of_option ValueError (sorted_trials (keys file)) in
  let! r := for_each_return
              (process_trial env file base_filename task_name output_folder
                 frame_count max_pairs) trials in
  match r with
  | Some b => ret b
  | None => ret true
  end.

(** [process_h5_file(h5_path, task_name, output_folder, frame_count, max_pairs)]:
    the [try] with its [except Exception] handler, so it always returns. *)
Definition process_h5_file (env : backends) (h5_path task_name output_folder : string)
    (frame_count max_pairs : Z) (w : world) : bool * world :=
  let base_filename := PyStr.replace ".h5" "" (PyStr.basename h5_path) in
  match walk env h5_path base_filename task_name output_folder frame_count max_pairs w with
  | (Ret b, w') => (b, w')
  | (Raise e, w') => (true, add_log EvTraceback (add_log (EvError h5_path e) w'))
  end.

(** The loop over the located files, lines 208-211. *)
Fixpoint process_files (env : backends) (task_name output_folder : string)
    (frame_count max_pairs : Z) (h5_files : list string) (w : world) : world :=
  match h5_files with
  | [] => w
  | h5_file :: rest =>
      let (cont, w') :=
        process_h5_file env h5_file task_name output_folder frame_count max_pairs w in
      if cont
      then process_files env task_name output_folder frame_count max_pairs rest w'
      else w'
  end.

(** [process_tarfile(tar_path, task_name, output_folder, frame_count, max_pairs)] *)
Definition process_tarfile (env : backends) (tar_path task_name output_folder : string)
    (frame_count max_pairs : Z) : M unit :=
  ensure_dir output_folder ;;
  for_each (fun view_dir => ensure_dir (PyStr.path_join output_folder view_dir))
           view_dirs ;;
  emit (EvExtract tar_path) ;;
  match extract env tar_path with
  | ExtractRaises => raise TarError
  | Extracted top h5_files =>
      match top with
      | Some (String c d as extracted_dir) =>
          let extracted_path := PyStr.path_join "." extracted_dir in
          (fun w => (Ret tt, process_files env task_name output_folder
                               frame_count max_pairs h5_files w)) ;;
          emit (EvRemove extracted_path) ;;
          emit (EvRemove tar_path)
      | _ => ret tt
      end
  end.

End Walker.

(* ===================================================================== *)
(** ** Concrete containers and backends *)
(* ===================================================================== *)

Module Demo.

Import H5 Sys Walker.

(** Enlargement of a one-pixel frame: the pixel repeated. *)
Definition resize1 (new_width new_height : Z) (frame : list scalar) : list scalar :=
  concat (repeat (firstn 3 frame) (Z.to_nat (new_width * new_height))).

(** A three-frame [uint8] stream of shape (3, 1, 1, 3). *)
Definition stream_u8 : ndarray :=
  {| nd_dtype := UInt8;
     nd_shape := [3; 1; 1; 3];
     nd_items := [[SInt 10; SInt 20; SInt 30];
                  [SInt 11; SInt 21; SInt 31];
                  [SInt 12; SInt 22; SInt 32]] |}.

(** 0.5 and 1.0 in binary64. *)
Definition half : spec_float := S754_finite false 4503599627370496 (-53).
Definition one : spec_float := S754_finite false 4503599627370496 (-52).

(** A two-frame [float64] stream of shape (2, 1, 1, 3). *)
Definition stream_f64 : ndarray :=
  {| nd_dtype := Float64;
     nd_shape := [2; 1; 1; 3];
     nd_items := [[SFlt half; SFlt one; SFlt F64.zero];
                  [SFlt one; SFlt half; SFlt half]] |}.

Definition four_views (a : ndarray) : gmap string dataset :=
  list_to_map [("rgb_left", Readable a); ("rgb_right", Readable a);
               ("rgb_top", Readable a); ("rgb_wrist", Readable a)].

Definition full_trial (a : ndarray) : trial := {| tr_data := Some (four_views a) |}.

(** Two trials, each with the four views, listed in lexical order. *)
Definition two_trials : container :=
  [("Trial1", full_trial stream_u8); ("Trial2", full_trial stream_u8)].

Definition one_float_trial : container :=
  [("Trial1", full_trial stream_f64)].

(** Backends whose encoders always succeed. *)
Definition env_ok (disk : string -> option container) : backends :=
  {| h5_open := disk;
     cv2_resize := resize1;
     imageio_run := fun _ => ImageioOk;
     cv2_run := fun _ => {| cv_avc1 := Opened; cv_mp4v := Opened; cv_frames_ok := true |};
     extract := fun _ => Extracted (Some "set") ["./set/a.h5"; "./set/b.h5"] |}.

(** Backends with a given behaviour of the two encoders. *)
Definition env_with (disk : string -> option container)
    (io : nat -> imageio_result) (cv : nat -> cv2_result) : backends :=
  {| h5_open := disk;
     cv2_resize := resize1;
     imageio_run := io;
     cv2_run := cv;
     extract := fun _ => Extracted (Some "set") ["./set/a.h5"; "./set/b.h5"] |}.

(** The primary encoder fails and the fallback writer does not open, for
    the attempts of rank below [n]; later attempts succeed. *)
Definition env_silent_until (n : nat) (disk : string -> option container) : backends :=
  env_with disk
    (fun i => if (i <? n)%nat then ImageioFails false else ImageioOk)
    (fun j => if (j <? n)%nat
              then {| cv_avc1 := NotOpened; cv_mp4v := NotOpened; cv_frames_ok := true |}
              else {| cv_avc1 := Opened; cv_mp4v := Opened; cv_frames_ok := true |}).

(** The primary encoder fails; the fallback writer opens and then raises
    on a frame. *)
Definition env_fallback_raises (disk : string -> option container) : backends :=
  env_with disk
    (fun _ => ImageioFails false)
    (fun _ => {| cv_avc1 := Opened; cv_mp4v := Opened; cv_frames_ok := false |}).

(** The primary encoder fails; the fallback succeeds. *)
Definition env_fallback_ok (disk : string -> option container) : backends :=
  env_with disk
    (fun _ => ImageioFails false)
    (fun _ => {| cv_avc1 := Opened; cv_mp4v := Opened; cv_frames_ok := true |}).

Definition empty_world : world :=
  {| fs := ∅; log := []; imageio_calls := 0; cv2_calls := 0 |}.

(** The four view directories of [out], empty. *)
Definition fresh_dirs : world :=
  {| fs := list_to_map [("out/left", ∅); ("out/right", ∅);
                        ("out/top", ∅); ("out/wrist", ∅)];
     log := []; imageio_calls := 0; cv2_calls := 0 |}.

(** The four view directories of [out], each holding two files already. *)
Definition full_dirs : world :=
  {| fs := list_to_map [("out/left", {["x.mp4"; "x.json"]});
                        ("out/right", {["x.mp4"; "x.json"]});
                        ("out/top", {["x.mp4"; "x.json"]});
                        ("out/wrist", {["x.mp4"; "x.json"]})];
     log := []; imageio_calls := 0; cv2_calls := 0 |}.

End Demo.

(* ===================================================================== *)
(** ** Vocabulary of the properties *)
(* ===================================================================== *)

Module Spec.

Import H5 Sys Walker.

(** The entries of a directory, none when it does not exist. *)
Definition contents (w : world) (d : string) : gset string :=
  default ∅ (fs w !! d).

Definition count (w : world) (d : string) : Z := len (contents w d).

(** Every video of a directory has its JSON file and conversely. *)
Definition paired (entries : gset string) : Prop :=
  forall base : string, base +:+ ".mp4" ∈ entries <-> base +:+ ".json" ∈ entries.

(** The four view directories exist and hold [2 * max_pairs] files or more. *)
Definition saturated (output_folder : string) (max_pairs : Z) (w : world) : Prop :=
  forall v, In v view_dirs ->
    exists entries, fs w !! PyStr.path_join output_folder v = Some entries
                    /\ 2 * max_pairs <= len entries.

(** The fallback ends with a writer that is open and wrote every frame. *)
Definition cv2_writes (c : cv2_result) : Prop :=
  cv_frames_ok c = true /\ (cv_avc1 c = Opened \/ cv_mp4v c = Opened).

(** Every encoding attempt leaves its video file: the primary encoder never
    fails, or the fallback always opens a writer and writes every frame. *)
Definition encoders_deliver (env : backends) : Prop :=
  (forall i, imageio_run env i = ImageioOk) \/ (forall j, cv2_writes (cv2_run env j)).

(** The fallback runs to its end: every frame is handled and no writer
    construction raises past the codec selection. *)
Definition cv2_completes (c : cv2_result) : Prop :=
  cv_frames_ok c = true /\ (cv_avc1 c = Opened \/ cv_mp4v c <> OpenRaises).

(** How the fallback ends, lines 133-155. *)
Definition cv2_outcome (c : cv2_result) : result unit :=
  if cv_frames_ok c
  then match cv_avc1 c, cv_mp4v c with
       | Opened, _ | _, Opened | _, NotOpened => Ret tt
       | _, OpenRaises => Raise Cv2Error
       end
  else Raise Cv2Error.

(** The view [view] of [data] passes the tests of lines 91-97, and the
    sampler yields [indices] and the frames [sel] for it. *)
Definition view_ready (fc : Z) (data : gmap string dataset) (view : string)
    (frames : ndarray) (indices : list Z) (sel : ndarray) (vn : string) : Prop :=
  data !! view = Some (Readable frames)
  /\ stream_invalid (nd_shape frames) fc = false
  /\ Np.sample (nth 0 (nd_shape frames) 0) fc = Some indices
  /\ take frames indices = Some sel
  /\ PyStr.split "_" view !! 1%nat = Some vn.

(** Decimal digits of a non-negative integer, least significant first. *)
Fixpoint digits_le (fuel : nat) (z : Z) : list ascii :=
  match fuel with
  | O => []
  | S fuel' =>
      ascii_of_nat (48 + Z.to_nat (z mod 10))
      :: (if z <? 10 then [] else digits_le fuel' (z / 10))
  end.

(** [str(n)] for a natural number. *)
Definition str_N (n : N) : string :=
  string_of_list_ascii
    (rev (digits_le (S (Z.to_nat (Z.log2 (Z.of_N n)))) (Z.of_N n))).

(** The key of trial [n]: [Trial<n>]. *)
Definition trial_name (n : N) : string := "Trial" +:+ str_N n.

(** The trials visited, in order, according to a log. *)
Definition visited (l : list event) : list string :=
  omap (fun e => match e with EvTrial t => Some t | _ => None end) l.

(** The containers opened, in order, according to a log. *)
Definition opened (l : list event) : list string :=
  omap (fun e => match e with EvOpen p => Some p | _ => None end) l.

(** ** Rounding of binary64, on integers *)

(** [X / 2^k] rounded to the nearest integer, ties to the even one: the
    rounding of a mantissa from which [k] bits are shifted out. *)
Definition rne_shift (X k : Z) : Z :=
  let m := X / 2 ^ k in
  if Z.testbit X (k - 1) && (negb (X mod 2 ^ (k - 1) =? 0) || Z.odd m)
  then m + 1 else m.

(** A positive integer rounded to 53 significant bits. *)
Definition r53 (X : Z) : Z :=
  let q := Zdigits2 X - 53 in
  if q <=? 0 then X else rne_shift X q * 2 ^ q.

(** Linear interpolation between frame [0] and frame [total_frames - 1] at
    rank [i] of [frame_count], in binary64 and truncated:
    [floor (i * ((total_frames - 1) / (frame_count - 1)) + 0.0)]. *)
Definition interpolate (total_frames frame_count : Z) (i : nat) : Z :=
  F64.floor_to_int64
    (F64.add (F64.mul (F64.of_Z (Z.of_nat i))
                      (F64.div (F64.of_Z (total_frames - 1))
                               (F64.of_Z (frame_count - 1))))
             F64.zero).

End Spec.

(* ===================================================================== *)
(** ** Vocabulary of the effects of a run *)
(* ===================================================================== *)

Module Effects.

Import H5 Sys Walker Spec.

(** [w'] has every directory and every entry of [w], and differs from [w]
    in the directories [dirs] at most. *)
Definition only_adds (dirs : list string) (w w' : world) : Prop :=
  (forall d, is_Some (fs w !! d) -> is_Some (fs w' !! d))
  /\ (forall d, contents w d ⊆ contents w' d)
  /\ (forall d, ~ In d dirs -> fs w' !! d = fs w !! d).

(** The directories of the four views under [output_folder]. *)
Definition view_folders (output_folder : string) : list string :=
  map (PyStr.path_join output_folder) view_dirs.

(** [sel] is a selection [frames[indices]] of the sampler for
    [frame_count] frames. *)
Definition sampled (frame_count : Z) (sel : ndarray) : Prop :=
  exists frames indices,
    Np.sample (nth 0 (nd_shape frames) 0) frame_count = Some indices
    /\ take frames indices = Some sel.

(** The names a view-production step gives to its two files. *)
Definition video_name (base_filename trial view_name : string) : string :=
  base_filename +:+ "-" +:+ trial +:+ "-" +:+ view_name +:+ ".mp4".

Definition json_name (base_filename trial view_name : string) : string :=
  base_filename +:+ "-" +:+ trial +:+ "-" +:+ view_name +:+ ".json".

End Effects.

(* ===================================================================== *)
(** ** Names of tasks and archives ([download.py], [prepare_Autonomous.py]) *)
(* ===================================================================== *)

Module Names.

(** An ASCII letter. *)
Definition is_letter (c : ascii) : bool :=
  let n := nat_of_ascii c in
  ((65 <=? n)%nat && (n <=? 90)%nat) || ((97 <=? n)%nat && (n <=? 122)%nat).

(** The class [\w] of [re] on a [str] pattern: on ASCII, the letters, the
    digits and the underscore.  A character above 127 stands for a code
    point beyond ASCII, which [re] classifies with the Unicode database:
    [unicode_word] is that classification. *)
Definition is_word (unicode_word : ascii -> bool) (c : ascii) : bool :=
  if (nat_of_ascii c <? 128)%nat
  then is_letter c || PyStr.is_digit c || Ascii.eqb c "_"
  else unicode_word c.

(** The characters outside the class [[^\w\-\.]]: those that are kept. *)
Definition kept (unicode_word : ascii -> bool) (c : ascii) : bool :=
  is_word unicode_word c || Ascii.eqb c "-" || Ascii.eqb c ".".

(** [sanitize_filename(name)]: [re.sub(r'[^\w\-\.]', '_', name)] *)
Fixpoint sanitize_filename (unicode_word : ascii -> bool) (name : string) : string :=
  match name with
  | EmptyString => EmptyString
  | String c name' =>
      String (if kept unicode_word c then c else "_"%char)
             (sanitize_filename unicode_word name')
  end.

(** [s.lstrip(c)] and [s.rstrip(c)] for one character. *)
Fixpoint lstrip_char (c : ascii) (s : string) : string :=
  match s with
  | EmptyString => EmptyString
  | String a s' => if Ascii.eqb a c then lstrip_char c s' else s
  end.

Fixpoint rstrip_char (c : ascii) (s : string) : string :=
  match s with
  | EmptyString => EmptyString
  | String a s' =>
      match rstrip_char c s' with
      | EmptyString => if Ascii.eqb a c then EmptyString else String a EmptyString
      | r => String a r
      end
  end.

(** The double quote, character 34. *)
Definition quote : ascii := ascii_of_nat 34.

(** [s.strip(q)], [q] being the string made of one double quote. *)
Definition strip_quotes (s : string) : string :=
  rstrip_char quote (lstrip_char quote s).

End Names.

(* ===================================================================== *)
(** ** The top-level directory of an archive ([extract_tarfile]) *)
(* ===================================================================== *)

Module Archive.

(** [member.name.split('/')[0]] *)
Definition first_component (name : string) : string :=
  hd EmptyString (PyStr.split "/" name).

(** The set comprehension of [extract_tarfile]: the first component of the
    name of every member of the archive other than [.]. *)
Definition top_level_dirs (member_names : list string) : gset string :=
  list_to_set
    (map first_component
         (List.filter (fun name => negb (String.eqb name ".")) member_names)).

(** [list(top_level_dirs)[0] if top_level_dirs else None].  Python does not
    say in which order a set is iterated: [listing] is that order. *)
Definition top_level (listing : gset string -> list string)
    (member_names : list string) : option string :=
  hd_error (listing (top_level_dirs member_names)).

End Archive.

(* ===================================================================== *)
(** ** The walker of [prepare_Autonomous.py] *)
(* ===================================================================== *)

Module Simple.

Import H5 Sys Walker.
Local Open Scope walker_scope.

(** Lines 100-103: an odd dimension loses one. *)
Definition even_dim (x : Z) : Z := if x mod 2 =? 1 then x - 1 else x.

(** [cv2.VideoWriter(video_path, fourcc, 10, (width, height))] with the
    [mp4v] codec.  No directory is created by this walker: a writer whose
    directory is missing cannot create its file and is not opened. *)
Definition cv2_writer (r : open_result) (folder name : string) : M bool :=
  emit (EvCv2Open "mp4v" folder name) ;;
  match r with
  | Opened =>
      fun w => match fs w !! folder with
               | Some _ => (create_file folder name ;; ret true) w
               | None => (Ret false, w)
               end
  | NotOpened => ret false
  | OpenRaises => raise Cv2Error
  end.

(** Lines 98-118: the even dimensions, the writer and the loop over the
    frames, each resized when a dimension changed, its channels swapped. *)
Definition cv2_encode (env : backends) (selected_frames : ndarray)
    (folder name : string) : M unit :=
  match nd_items selected_frames, nd_shape selected_frames with
  | _ :: _, [_; height0; width0; _] =>
      let width := even_dim width0 in
      let height := even_dim height0 in
      fun w =>
        let c := cv2_run env (cv2_calls w) in
        (cv2_writer (cv_mp4v c) folder name ;;
         if cv_frames_ok c then
           emit (EvCv2Write folder name
                   (map (fun frame =>
                           rgb2bgr (if (height0 =? height) && (width0 =? width)
                                    then frame
                                    else cv2_resize env width height frame))
                        (nd_items selected_frames)))
         else raise Cv2Error) (tick_cv2 w)
  | [], _ => raise IndexError
  | _, _ => raise ValueError
  end.

(** Lines 90-128, once the frames are selected: the video, then its JSON
    file, in the view folder as it is. *)
Definition store_clip (env : backends) (base_filename task_name output_folder : string)
    (trial view_name : string) (selected_frames : ndarray) : M unit :=
  let video_name := base_filename +:+ "-" +:+ trial +:+ "-" +:+ view_name +:+ ".mp4" in
  let view_folder := PyStr.path_join output_folder view_name in
  cv2_encode env selected_frames view_folder video_name ;;
  let json_name := base_filename +:+ "-" +:+ trial +:+ "-" +:+ view_name +:+ ".json" in
  create_file view_folder json_name ;;
  emit (EvJson view_folder json_name task_name).

(** The body of the loop over the views, lines 77-128. *)
Definition process_view (env : backends) (base_filename task_name output_folder : string)
    (frame_count : Z) (trial : string) (data : gmap string dataset)
    (view : string) : M unit :=
  match data !! view with
  | None => ret tt
  | Some ds =>
      emit (EvRead trial view) ;;
      let! frames := of_option OSError
                       match ds with Readable a => Some a | Unreadable => None end in
      if stream_invalid (nd_shape frames) frame_count then ret tt
      else
        let total_frames := nth 0 (nd_shape frames) 0 in
        let! indices := of_option ValueError (Np.sample total_frames frame_count) in
        let! selected_frames := of_option IndexError (take frames indices) in
        emit (EvSample trial view indices) ;;
        let! view_name := view_name_of view in
        store_clip env base_filename task_name output_folder trial view_name
          selected_frames
  end.

(** The body of the loop over the trials, lines 69-128. *)
Definition process_trial (env : backends) (file : container)
    (base_filename task_name output_folder : string) (frame_count : Z)
    (trial : string) : M unit :=
  emit (EvTrial trial) ;;
  let! node := of_option OSError (member file trial) in
  match tr_data node with
  | None => ret tt
  | Some data =>
      for_each (process_view env base_filename task_name output_folder
                  frame_count trial data) rgb_views
  end.

(** The body of the [try], lines 63-128. *)
Definition walk (env : backends) (h5_path base_filename task_name output_folder : string)
    (frame_count : Z) : M unit :=
  emit (EvOpen h5_path) ;;
  let! file := of_option OSError (h5_open env h5_path) in
  let! trials := of_option ValueError (sorted_trials (keys file)) in
  for_each (process_trial env file base_filename task_name output_folder frame_count)
           trials.

(** [process_h5_file(h5_path, task_name, output_folder, frame_count)]: it
    returns nothing, and what is raised inside is printed. *)
Definition process_h5_file (env : backends) (h5_path task_name output_folder : string)
    (frame_count : Z) (w : world) : world :=
  let base_filename := PyStr.replace ".h5" "" (PyStr.basename h5_path) in
  match walk env h5_path base_filename task_name output_folder frame_count w with
  | (Ret _, w') => w'
  | (Raise e, w') => add_log (EvError h5_path e) w'
  end.

(** The loop over the located files, lines 185-186 of [process_dataset]. *)
Definition process_files (env : backends) (task_name output_folder : string)
    (frame_count : Z) (h5_files : list string) (w : world) : world :=
  fold_left (fun w h5_file =>
               process_h5_file env h5_file task_name output_folder frame_count w)
            h5_files w.

End Simple.

(* ===================================================================== *)
(** ** One row of the dataset ([download.py]) *)
(* ===================================================================== *)

Module Driver.

Import H5 Sys Walker Spec Names.
Local Open Scope walker_scope.

(** What a download runs into: the request or the reading of its headers
    raises, before the destination is opened; or the transfer raises once
    the destination file is created; or the archive arrives. *)
Inductive download_result :=
| Downloaded
| GetFails (e : exn)
| StreamFails (e : exn).

(** The entry [filename] of the current directory is created. *)
Definition put_file (filename : string) (w : world) : world :=
  set_fs (<["." := {[filename]} ∪ contents w "."]> (fs w)) w.

(** [os.remove] of the entry [filename] of the current directory. *)
Definition remove_file (filename : string) (w : world) : world :=
  add_log (EvRemove (PyStr.path_join "." filename))
          (set_fs (<["." := contents w "." ∖ {[filename]}]> (fs w)) w).

(** [download_file(url, destination)], the destination being the entry
    [filename] of the current directory; an empty [filename] names the
    directory itself, which [open] refuses. *)
Definition download_file (fetch : string -> download_result) (url filename : string)
  : M unit :=
  match fetch url with
  | GetFails e => raise e
  | r =>
      match filename with
      | EmptyString => raise OSError
      | _ =>
          fun w => match r with
                   | StreamFails e => (Raise e, put_file filename w)
                   | _ => (Ret tt, put_file filename w)
                   end
      end
  end.

(** [download_and_process_item(item, base_dir, frame_count)] for a row that
    has its two columns, [task_name_field] and [url_field].  The quota is
    the default one of [process_tarfile], 500 pairs.  The handler prints the
    exception and removes the archive if it exists; [os.remove] raises on
    the directory that an empty file name stands for. *)
Definition download_and_process_item
    (unicode_word : ascii -> bool) (env : backends) (fetch : string -> download_result)
    (base_dir : string) (frame_count : Z) (task_name_field url_field : string)
  : M string :=
  let task_name := strip_quotes task_name_field in
  let url := strip_quotes url_field in
  let task_dir := PyStr.path_join base_dir (sanitize_filename unicode_word task_name) in
  ensure_dir task_dir ;;
  let filename := PyStr.basename url in
  let tar_path := PyStr.path_join "." filename in
  (fun w =>
     match (download_file fetch url filename ;;
            process_tarfile env tar_path task_name task_dir frame_count 500) w with
     | (Ret _, w') => (Ret tt, w')
     | (Raise e, w') =>
         let w' := add_log (EvError task_name e) w' in
         match filename with
         | EmptyString => (Raise OSError, w')
         | _ =>
             if decide (filename ∈ contents w' ".")
             then (Ret tt, remove_file filename w')
             else (Ret tt, w')
         end
     end) ;;
  ret ("Completed: " +:+ task_name).

End Driver.

Import H5 Sys Walker Spec.
Import Effects Names Archive Driver.

(* ===================================================================== *)
(** * Properties *)
(* ===================================================================== *)

(** ** Trial keys: decimal notation, [int], [replace] *)

Section DecimalKeys.

Local Abbreviation digit c := (PyStr.is_digit c = true).

Lemma digit_char_spec (d : Z) :
  0 <= d < 10 ->
  digit (ascii_of_nat (48 + Z.to_nat d))
  /\ PyStr.digit_val (ascii_of_nat (48 + Z.to_nat d)) = d.
Proof.
  intros Hd.
  assert (d = 0 \/ d = 1 \/ d = 2 \/ d = 3 \/ d = 4 \/ d = 5 \/ d = 6
          \/ d = 7 \/ d = 8 \/ d = 9) as Hc by lia.
  repeat destruct Hc as [-> | Hc]; try subst d; split; reflexivity.
Qed.

Lemma digit_not_special (c : ascii) :
  digit c ->
  PyStr.is_space c = false /\ Ascii.eqb c "-" = false /\ Ascii.eqb c "+" = false
  /\ Ascii.eqb c "_" = false /\ Ascii.eqb c "T" = false.
Proof.
  destruct c as [[] [] [] [] [] [] [] []]; vm_compute; intros H;
    try discriminate H; repeat split.
Qed.

Lemma digits_le_digits (fuel : nat) : forall z,
  0 <= z -> Forall (fun c => digit c) (digits_le fuel z).
Proof.
  induction fuel as [|fuel IH]; intros z Hz; simpl; [constructor|].
  constructor.
  - apply digit_char_spec. apply Z.mod_pos_bound. lia.
  - destruct (z <? 10); [constructor|]. apply IH. apply Z.div_pos; lia.
Qed.

Lemma digits_le_value (fuel : nat) : forall z,
  0 <= z < 2 ^ Z.of_nat fuel ->
  foldr (fun c a => 10 * a + PyStr.digit_val c) 0 (digits_le fuel z) = z.
Proof.
  induction fuel as [|fuel IH]; intros z Hz.
  - simpl in *. lia.
  - cbn [digits_le foldr].
    rewrite (proj2 (digit_char_spec (z mod 10) (Z.mod_pos_bound z 10 eq_refl))).
    destruct (Z.ltb_spec z 10) as [Hlt|Hge].
    + cbn [foldr]. rewrite Z.mod_small; lia.
    + rewrite IH.
      * pose proof (Z.div_mod z 10). lia.
      * rewrite Nat2Z.inj_succ, Z.pow_succ_r in Hz by lia.
        split; [apply Z.div_pos; lia|].
        apply Z.div_lt_upper_bound; lia.
Qed.

Lemma int_digits_digits (ds : list ascii) :
  Forall (fun c => digit c) ds ->
  forall b acc, b = true \/ ds <> [] ->
  PyStr.int_digits b acc (string_of_list_ascii ds)
  = Some (fold_left (fun a c => 10 * a + PyStr.digit_val c) ds acc).
Proof.
  induction 1 as [|c ds Hc Hds IH]; intros b acc Hb; simpl.
  - destruct Hb as [-> | Hb]; [reflexivity | congruence].
  - rewrite Hc. apply IH. now left.
Qed.

Lemma strip_digits (ds : list ascii) :
  Forall (fun c => digit c) ds ->
  PyStr.strip (string_of_list_ascii ds) = string_of_list_ascii ds.
Proof.
  intros Hds. unfold PyStr.strip.
  assert (PyStr.lstrip (string_of_list_ascii ds) = string_of_list_ascii ds) as ->.
  { destruct Hds as [|c ds Hc _]; [reflexivity|]. simpl.
    now rewrite (proj1 (digit_not_special c Hc)). }
  induction Hds as [|c ds Hc Hds IH]; [reflexivity|].
  simpl. rewrite IH.
  destruct (string_of_list_ascii ds); [|reflexivity].
  now rewrite (proj1 (digit_not_special c Hc)).
Qed.

Lemma int_of_digits (ds : list ascii) :
  Forall (fun c => digit c) ds -> ds <> [] ->
  PyStr.int (string_of_list_ascii ds)
  = Some (fold_left (fun a c => 10 * a + PyStr.digit_val c) ds 0).
Proof.
  intros Hds Hne. unfold PyStr.int. rewrite strip_digits by assumption.
  destruct Hds as [|c ds Hc Hds]; [congruence|].
  pose proof (digit_not_special c Hc) as (_ & Hm & Hp & _).
  change (string_of_list_ascii (c :: ds)) with (String c (string_of_list_ascii ds)).
  assert (c <> "-"%char) as Hm' by (intros ->; discriminate Hm).
  assert (c <> "+"%char) as Hp' by (intros ->; discriminate Hp).
  transitivity (PyStr.int_digits false 0 (String c (string_of_list_ascii ds))).
  - destruct c as [[] [] [] [] [] [] [] []]; try reflexivity; congruence.
  - apply (int_digits_digits (c :: ds)); [now constructor | now right].
Qed.

Lemma replace_scan_digits (ds : list ascii) :
  Forall (fun c => digit c) ds ->
  PyStr.replace_scan "Trial" "" 0 (string_of_list_ascii ds) = string_of_list_ascii ds.
Proof.
  induction 1 as [|c ds Hc Hds IH]; [reflexivity|].
  pose proof (digit_not_special c Hc) as (_ & _ & _ & _ & HT).
  cbn [string_of_list_ascii PyStr.replace_scan PyStr.starts_with].
  rewrite Ascii.eqb_sym, HT. cbn. now rewrite IH.
Qed.

Lemma str_N_digits (n : N) :
  exists ds, str_N n = string_of_list_ascii ds
             /\ Forall (fun c => digit c) ds /\ ds <> []
             /\ fold_left (fun a c => 10 * a + PyStr.digit_val c) ds 0 = Z.of_N n.
Proof.
  unfold str_N.
  set (z := Z.of_N n). set (fuel := S (Z.to_nat (Z.log2 z))).
  assert (0 <= z) as Hz by (subst z; lia).
  exists (rev (digits_le fuel z)). split; [reflexivity|]. split; [|split].
  - apply Forall_rev. now apply digits_le_digits.
  - subst fuel. simpl. intros H. apply (f_equal (@length _)) in H.
    rewrite length_app in H. simpl in H. lia.
  - pose proof (fold_left_rev_right (fun c a => 10 * a + PyStr.digit_val c)
                  (rev (digits_le fuel z)) 0) as Hf.
    rewrite rev_involutive in Hf. cbv beta in Hf. rewrite <- Hf.
    apply digits_le_value. split; [assumption|].
    subst fuel. rewrite Nat2Z.inj_succ, Z2Nat.id by apply Z.log2_nonneg.
    destruct (Z.eq_dec z 0) as [->|Hnz]; [reflexivity|].
    apply Z.log2_spec. lia.
Qed.

Lemma trial_key_trial_name (n : N) : trial_key (trial_name n) = Some (Z.of_N n).
Proof.
  destruct (str_N_digits n) as (ds & Hs & Hds & Hne & Hv).
  unfold trial_key, trial_name. rewrite Hs.
  change (PyStr.replace "Trial" "" ("Trial" +:+ string_of_list_ascii ds))
    with (PyStr.replace_scan "Trial" "" 0 (string_of_list_ascii ds)).
  rewrite replace_scan_digits, int_of_digits by assumption.
  now rewrite Hv.
Qed.

Lemma contains_trial_name (n : N) : PyStr.contains "Trial" (trial_name n) = true.
Proof. reflexivity. Qed.

End DecimalKeys.

(** ** The stable sort of the trial keys *)

Section TrialOrder.

Let keyed (n : N) : Z * string := (Z.of_N n, trial_name n).

Lemma insert_keyed_sorted (n : N) (ms : list N) :
  StronglySorted N.le ms ->
  exists ms', PyStr.insert_keyed (keyed n) (map keyed ms) = map keyed ms'
              /\ Permutation ms' (n :: ms) /\ StronglySorted N.le ms'.
Proof.
  induction 1 as [|m ms Hs IH Hm].
  - exists [n]. repeat split; constructor; constructor.
  - cbn [map PyStr.insert_keyed]. cbn [keyed fst].
    destruct (Z.leb_spec (Z.of_N n) (Z.of_N m)) as [Hle|Hgt].
    + exists (n :: m :: ms). repeat split; [reflexivity|].
      constructor; [now constructor|].
      constructor; [lia|].
      eapply Forall_impl; [exact Hm|]. cbn. intros; lia.
    + destruct IH as (ms' & Heq & Hp & Hs').
      exists (m :: ms'). split; [now rewrite Heq|]. split.
      * rewrite Hp. apply perm_swap.
      * constructor; [assumption|].
        eapply Permutation_Forall; [symmetry; exact Hp|].
        constructor; [lia | assumption].
Qed.

Lemma sort_keyed_sorted (ns : list N) :
  exists ms, PyStr.sort_keyed (map keyed ns) = map keyed ms
             /\ Permutation ms ns /\ StronglySorted N.le ms.
Proof.
  induction ns as [|n ns (ms & Heq & Hp & Hs)].
  - exists []. repeat split; constructor.
  - unfold PyStr.sort_keyed in *. cbn [map foldr]. rewrite Heq.
    destruct (insert_keyed_sorted n ms Hs) as (ms' & Heq' & Hp' & Hs').
    exists ms'. repeat split; try assumption.
    rewrite Hp'. now constructor.
Qed.

Lemma decorate_trial_names (ns : list N) :
  PyStr.decorate trial_key (map trial_name ns) = Some (map keyed ns).
Proof.
  induction ns as [|n ns IH]; [reflexivity|].
  cbn [map PyStr.decorate]. now rewrite trial_key_trial_name, IH.
Qed.

Lemma filter_trial_names (ns : list N) :
  List.filter (PyStr.contains "Trial") (map trial_name ns) = map trial_name ns.
Proof.
  induction ns as [|n ns IH]; [reflexivity|].
  cbn [map List.filter]. rewrite contains_trial_name. now rewrite IH.
Qed.

Lemma sorted_le_nodup_lt (ms : list N) :
  StronglySorted N.le ms -> NoDup ms -> StronglySorted N.lt ms.
Proof.
  induction 1 as [|m ms Hs IH Hm]; intros Hnd; [constructor|].
  inversion Hnd as [|? ? Hin Hnd']; subst.
  constructor; [now apply IH|].
  apply Forall_forall. intros x Hx.
  assert (m <= x)%N by (eapply Forall_forall in Hm; eauto).
  assert (m <> x) by congruence. lia.
Qed.

Lemma sorted_trials_names (ns : list N) :
  NoDup ns ->
  exists ms, Permutation ms ns /\ StronglySorted N.lt ms
             /\ sorted_trials (map trial_name ns) = Some (map trial_name ms).
Proof.
  intros Hnd.
  destruct (sort_keyed_sorted ns) as (ms & Heq & Hp & Hs).
  exists ms. split; [assumption|]. split.
  - apply sorted_le_nodup_lt; [assumption|].
    now rewrite Hp.
  - unfold sorted_trials, PyStr.sorted_by.
    rewrite filter_trial_names, decorate_trial_names. cbn [option_map].
    rewrite Heq, map_map. reflexivity.
Qed.

Lemma decorate_failure {A} (key : A -> option Z) (l : list A) (x : A) :
  In x l -> key x = None -> PyStr.decorate key l = None.
Proof.
  induction l as [|y l IH]; intros Hin Hx; [destruct Hin|].
  cbn [PyStr.decorate]. destruct Hin as [-> | Hin].
  - now rewrite Hx.
  - destruct (key y); [|reflexivity]. now rewrite IH.
Qed.

End TrialOrder.



(** ** The whole-file handler *)

Lemma process_h5_file_raise
    (env : backends) (h5_path task out : string) (fc mp : Z) (w w' : world) (e : exn) :
  walk env h5_path (PyStr.replace ".h5" "" (PyStr.basename h5_path)) task out fc mp w
  = (Raise e, w') ->
  process_h5_file env h5_path task out fc mp w
  = (true, add_log EvTraceback (add_log (EvError h5_path e) w')).
Proof. intros H. unfold process_h5_file. now rewrite H. Qed.

Lemma walk_open_failure
    (env : backends) (h5_path base task out : string) (fc mp : Z) (w : world) :
  h5_open env h5_path = None ->
  walk env h5_path base task out fc mp w = (Raise OSError, add_log (EvOpen h5_path) w).
Proof. intros H. unfold walk, bind, emit, of_option, raise. now rewrite H. Qed.

Lemma walk_sort_failure
    (env : backends) (h5_path base task out : string) (fc mp : Z)
    (file : container) (w : world) :
  h5_open env h5_path = Some file ->
  sorted_trials (keys file) = None ->
  walk env h5_path base task out fc mp w = (Raise ValueError, add_log (EvOpen h5_path) w).
Proof.
  intros H1 H2. unfold walk, bind, emit, of_option, raise, ret. now rewrite H1, H2.
Qed.





(** ** Effects of the encoders on the file system *)

Ltac unfold_world :=
  cbn [fs log imageio_calls cv2_calls add_log set_fs tick_imageio tick_cv2 fst snd] in *.

Ltac unfold_monad :=
  unfold bind, ret, raise, emit, of_option, create_file, listdir, ensure_dir in *;
  unfold_world.

Section EncoderEffects.

Context (env : backends) (folder name : string).

(** What a step may do to the file system: leave it as it is, or add [name]
    to [folder]. *)
Definition touches_only (w w' : world) : Prop :=
  fs w' = fs w
  \/ exists entries, fs w !! folder = Some entries
                     /\ fs w' = <[folder := {[name]} ∪ entries]> (fs w).

Lemma touches_only_refl (w : world) : touches_only w w.
Proof. now left. Qed.

Lemma touches_only_trans (w1 w2 w3 : world) :
  touches_only w1 w2 -> touches_only w2 w3 -> touches_only w1 w3.
Proof.
  intros [H12 | (e1 & He1 & H12)] [H23 | (e2 & He2 & H23)].
  - left. congruence.
  - right. exists e2. rewrite <- H12. split; [assumption|]. now rewrite H23.
  - right. exists e1. split; [assumption|]. congruence.
  - right. exists e1. split; [assumption|].
    rewrite H12, lookup_insert_eq in He2. injection He2 as <-.
    rewrite H23, H12, insert_insert_eq. f_equal. set_solver.
Qed.

Lemma create_file_touches (w : world) :
  touches_only w (snd (create_file folder name w)).
Proof.
  unfold create_file. destruct (fs w !! folder) as [entries|] eqn:E; cbn.
  - right. now exists entries.
  - now left.
Qed.

Lemma save_video_with_imageio_returns (frames : ndarray) (w : world) :
  exists saved w', save_video_with_imageio env frames folder name w = (Ret saved, w')
                   /\ touches_only w w'
                   /\ cv2_calls w' = cv2_calls w.
Proof.
  unfold save_video_with_imageio.
  destruct (adjust_dimensions_to_multiple_of_16 _ _) as [frames'|].
  2: { eexists _, _. split; [reflexivity|]. split; [now left | reflexivity]. }
  destruct (imageio_run env (imageio_calls w)) as [|partial].
  - pose proof (create_file_touches (tick_imageio w)) as Ht.
    unfold create_file in *. unfold_world.
    destruct (fs w !! folder) as [entries|]; unfold_world;
      eexists _, _; (split; [reflexivity|]); (split; [exact Ht | reflexivity]).
  - destruct partial.
    + pose proof (create_file_touches (tick_imageio w)) as Ht.
      unfold create_file in *. unfold_world.
      destruct (fs w !! folder) as [entries|]; unfold_world;
        eexists _, _; (split; [reflexivity|]); (split; [exact Ht | reflexivity]).
    + eexists _, _. split; [reflexivity|]. split; [now left | reflexivity].
Qed.

Lemma cv2_writer_touches (codec : string) (r : open_result) (w : world) :
  touches_only w (snd (cv2_writer codec r folder name w)).
Proof.
  unfold cv2_writer. unfold_monad.
  destruct r; unfold_world; try (now left).
  pose proof (create_file_touches (add_log (EvCv2Open codec folder name) w)) as Ht.
  unfold create_file in Ht. unfold_world.
  destruct (fs w !! folder); exact Ht.
Qed.

Lemma cv2_select_codec_touches (c : cv2_result) (w : world) :
  touches_only w (snd (cv2_select_codec c folder name w)).
Proof.
  unfold cv2_select_codec, bind.
  pose proof (cv2_writer_touches "avc1" (cv_avc1 c) w) as H1.
  destruct (cv2_writer "avc1" (cv_avc1 c) folder name w) as [[opened|e] w1];
    cbn [snd] in *.
  - destruct opened; [exact H1|].
    pose proof (cv2_writer_touches "mp4v" (cv_mp4v c) w1) as H2.
    destruct (cv2_writer "mp4v" (cv_mp4v c) folder name w1) as [[o|e] w2] eqn:E2;
      cbn [snd] in *.
    + eapply touches_only_trans; eassumption.
    + pose proof (cv2_writer_touches "mp4v" (cv_mp4v c) w2) as H3.
      eapply touches_only_trans; [|exact H3].
      eapply touches_only_trans; eassumption.
  - pose proof (cv2_writer_touches "mp4v" (cv_mp4v c) w1) as H2.
    eapply touches_only_trans; eassumption.
Qed.

Lemma cv2_fallback_touches (frames : ndarray) (w : world) :
  touches_only w (snd (cv2_fallback env frames folder name w)).
Proof.
  unfold cv2_fallback.
  destruct (nd_items frames) as [|fr items]; [now left|].
  destruct (nd_shape frames) as [|n [|height [|width shape]]]; try (now left).
  unfold bind.
  pose proof (cv2_select_codec_touches (cv2_run env (cv2_calls w)) (tick_cv2 w)) as H.
  destruct (cv2_select_codec _ folder name (tick_cv2 w)) as [[opened|e] w1];
    cbn [snd] in *; [|exact H].
  destruct (cv_frames_ok _); exact H.
Qed.

Lemma write_video_touches (frames : ndarray) (w : world) :
  touches_only w (snd (write_video env frames folder name w)).
Proof.
  unfold write_video, bind.
  destruct (save_video_with_imageio_returns frames w) as (saved & w1 & -> & Ht & _).
  destruct saved; [exact Ht|].
  eapply touches_only_trans; [exact Ht|]. apply cv2_fallback_touches.
Qed.

End EncoderEffects.

(** ** Invariants of the world along the walker *)

Section Invariants.

Context (P : world -> Prop).
Hypothesis P_log : forall e w, P w -> P (add_log e w).

(** [m] keeps the invariant, whether it returns or raises. *)
Definition preserves {A} (m : M A) : Prop := forall w, P w -> P (snd (m w)).

Lemma preserves_ret {A} (a : A) : preserves (ret a).
Proof. intros w H. exact H. Qed.

Lemma preserves_raise {A} (e : exn) : preserves (@raise A e).
Proof. intros w H. exact H. Qed.

Lemma preserves_of_option {A} (e : exn) (o : option A) : preserves (of_option e o).
Proof. destruct o; [apply preserves_ret | apply preserves_raise]. Qed.

Lemma preserves_emit (e : event) : preserves (emit e).
Proof. intros w H. now apply P_log. Qed.

Lemma preserves_listdir (d : string) : preserves (listdir d).
Proof. intros w H. unfold listdir. now destruct (fs w !! d). Qed.

Lemma preserves_bind {A B} (m : M A) (k : A -> M B) :
  preserves m -> (forall a, preserves (k a)) -> preserves (bind m k).
Proof.
  intros Hm Hk w H. unfold bind. specialize (Hm w H).
  destruct (m w) as [[a|e] w']; cbn [snd] in *; [now apply Hk | exact Hm].
Qed.

Lemma preserves_for_each {A} (body : A -> M unit) (l : list A) :
  (forall x, preserves (body x)) -> preserves (for_each body l).
Proof.
  intros Hb. induction l as [|x l IH]; cbn [for_each].
  - apply preserves_ret.
  - apply preserves_bind; [apply Hb | intros _; exact IH].
Qed.

Lemma preserves_for_each_return {A R} (body : A -> M (option R)) (l : list A) :
  (forall x, preserves (body x)) -> preserves (for_each_return body l).
Proof.
  intros Hb. induction l as [|x l IH]; cbn [for_each_return].
  - apply preserves_ret.
  - apply preserves_bind; [apply Hb|].
    intros [v|]; [apply preserves_ret | exact IH].
Qed.

Lemma preserves_all_done (out : string) (mp : Z) (views : list string) :
  preserves (all_done out mp views).
Proof.
  induction views as [|v views IH]; cbn [all_done]; [apply preserves_ret|].
  apply preserves_bind; [apply preserves_of_option|]. intros vn.
  apply preserves_bind; [apply preserves_listdir|]. intros entries.
  destruct (_ <? _); [apply preserves_ret | exact IH].
Qed.

Lemma preserves_bind_some {A B} (e : exn) (a : A) (k : A -> M B) :
  preserves (k a) -> preserves (bind (of_option e (Some a)) k).
Proof. intros H w Hw. exact (H w Hw). Qed.

Lemma stream_valid_rank (shape : list Z) (fc : Z) :
  stream_invalid shape fc = false -> length shape = 4%nat.
Proof.
  unfold stream_invalid. intros Hv.
  apply orb_false_elim in Hv as [Hv _]. apply orb_false_elim in Hv as [Hv _].
  apply negb_false_iff, Z.eqb_eq in Hv. lia.
Qed.

Lemma take_rank (a : ndarray) (indices : list Z) (sel : ndarray) :
  length (nd_shape a) = 4%nat ->
  take a indices = Some sel -> length (nd_shape sel) = 4%nat.
Proof.
  intros H4 Ht. unfold take in Ht.
  destruct (mapM _ _); [|discriminate]. injection Ht as <-.
  cbn. destruct (nd_shape a); [discriminate|]. cbn in *. lia.
Qed.

Context (env : backends) (task out : string) (fc mp : Z).
Hypothesis P_store : forall base trial vn sel,
  length (nd_shape sel) = 4%nat ->
  preserves (store_clip env base task out mp trial vn sel).

Lemma preserves_process_view base trial data view :
  preserves (process_view env base task out fc mp trial data view).
Proof.
  unfold process_view. destruct (data !! view) as [ds|]; [|apply preserves_ret].
  apply preserves_bind; [apply preserves_emit|]. intros _.
  apply preserves_bind; [apply preserves_of_option|]. intros frames.
  destruct (stream_invalid _ _) eqn:Hv; [apply preserves_ret|].
  apply preserves_bind; [apply preserves_of_option|]. intros indices.
  destruct (take frames indices) as [sel|] eqn:Ht; [|apply preserves_raise].
  apply preserves_bind_some.
  apply preserves_bind; [apply preserves_emit|]. intros _.
  apply preserves_bind; [apply preserves_of_option|]. intros vn.
  apply P_store. eapply take_rank; [|exact Ht].
  eapply stream_valid_rank; exact Hv.
Qed.

Lemma preserves_process_trial file base trial :
  preserves (process_trial env file base task out fc mp trial).
Proof.
  unfold process_trial.
  apply preserves_bind; [apply preserves_emit|]. intros _.
  apply preserves_bind; [apply preserves_of_option|]. intros node.
  destruct (tr_data node) as [data|]; [|apply preserves_ret].
  apply preserves_bind.
  { apply preserves_for_each. intros v. apply preserves_process_view. }
  intros _. apply preserves_bind; [apply preserves_all_done|].
  intros [|]; [|apply preserves_ret].
  apply preserves_bind; [apply preserves_emit | intros _; apply preserves_ret].
Qed.

Lemma preserves_walk h5_path base :
  preserves (walk env h5_path base task out fc mp).
Proof.
  unfold walk.
  apply preserves_bind; [apply preserves_emit|]. intros _.
  apply preserves_bind; [apply preserves_of_option|]. intros file.
  apply preserves_bind; [apply preserves_of_option|]. intros trials.
  apply preserves_bind.
  { apply preserves_for_each_return. intros t. apply preserves_process_trial. }
  intros [b|]; apply preserves_ret.
Qed.

Lemma process_h5_file_preserves h5_path (w : world) :
  P w -> P (snd (process_h5_file env h5_path task out fc mp w)).
Proof.
  intros H. unfold process_h5_file.
  pose proof (preserves_walk h5_path (PyStr.replace ".h5" "" (PyStr.basename h5_path))
                w H) as Hw.
  destruct (walk _ _ _ _ _ _ _ w) as [[b|e] w']; cbn [snd] in *; [exact Hw|].
  now do 2 apply P_log.
Qed.

Lemma process_files_preserves (files : list string) :
  forall w, P w -> P (process_files env task out fc mp files w).
Proof.
  induction files as [|f files IH]; intros w H; cbn [process_files]; [exact H|].
  pose proof (process_h5_file_preserves f w H) as Hf.
  destruct (process_h5_file env f task out fc mp w) as [cont w']; cbn [snd] in Hf.
  destruct cont; [now apply IH | exact Hf].
Qed.

End Invariants.

(** ** Directory contents *)

Section Contents.

Lemma contents_add_log (e : event) (w : world) (d : string) :
  contents (add_log e w) d = contents w d.
Proof. reflexivity. Qed.

Lemma contents_lookup (w : world) (d : string) (entries : gset string) :
  fs w !! d = Some entries -> contents w d = entries.
Proof. unfold contents. now intros ->. Qed.

Lemma contents_insert (w w' : world) (folder d : string) (entries : gset string) :
  fs w' = <[folder := entries]> (fs w) ->
  contents w' d = if decide (d = folder) then entries else contents w d.
Proof.
  intros H. unfold contents. rewrite H.
  destruct (decide (d = folder)) as [->|Hne].
  - now rewrite lookup_insert_eq.
  - now rewrite lookup_insert_ne by congruence.
Qed.

Lemma ensure_dir_spec (folder : string) (w : world) :
  exists w0, ensure_dir folder w = (Ret tt, w0)
             /\ fs w0 !! folder = Some (contents w folder)
             /\ (forall d, contents w0 d = contents w d)
             /\ imageio_calls w0 = imageio_calls w /\ cv2_calls w0 = cv2_calls w.
Proof.
  unfold ensure_dir. destruct (fs w !! folder) as [entries|] eqn:E.
  - exists w. repeat split. now rewrite (contents_lookup _ _ _ E).
  - eexists. split; [reflexivity|]. unfold_world. repeat split.
    + rewrite lookup_insert_eq. unfold contents. now rewrite E.
    + intros d. rewrite contents_add_log.
      rewrite (contents_insert w _ folder d ∅) by reflexivity.
      destruct (decide (d = folder)) as [->|]; [|reflexivity].
      unfold contents. now rewrite E.
Qed.

Lemma touches_only_contents (folder name : string) (w w' : world) (d : string) :
  touches_only folder name w w' ->
  contents w' d = contents w d
  \/ (d = folder /\ is_Some (fs w !! folder)
      /\ contents w' d = {[name]} ∪ contents w d).
Proof.
  intros [H | (entries & He & H)].
  - left. unfold contents. now rewrite H.
  - rewrite (contents_insert w w' folder d _ H).
    destruct (decide (d = folder)) as [->|]; [|now left].
    right. rewrite (contents_lookup _ _ _ He). rewrite He. eauto.
Qed.

Lemma touches_only_exists (folder name : string) (w w' : world) (entries : gset string) :
  touches_only folder name w w' ->
  fs w !! folder = Some entries ->
  fs w' !! folder = Some (contents w' folder).
Proof.
  intros [H | (e & He & H)] Hf; unfold contents; rewrite H.
  - now rewrite Hf.
  - now rewrite lookup_insert_eq.
Qed.

Lemma size_add_one (Y : gset string) (a : string) :
  (size ({[a]} ∪ Y) <= S (size Y))%nat.
Proof.
  rewrite size_union_alt, size_singleton.
  assert (size (Y ∖ {[a]}) <= size Y)%nat by (apply subseteq_size; set_solver).
  lia.
Qed.

Lemma size_add_two (X Y : gset string) (a b : string) :
  X ⊆ {[a]} ∪ ({[b]} ∪ Y) -> len X <= len Y + 2.
Proof.
  intros H. apply subseteq_size in H. unfold len.
  pose proof (size_add_one ({[b]} ∪ Y) a). pose proof (size_add_one Y b). lia.
Qed.

End Contents.

(** ** What one view-production step does to the directories *)

Section StoreClip.

Context (env : backends) (base task out : string) (mp : Z) (trial vn : string)
        (sel : ndarray).

Let folder := PyStr.path_join out vn.
Let video := base +:+ "-" +:+ trial +:+ "-" +:+ vn +:+ ".mp4".
Let json := base +:+ "-" +:+ trial +:+ "-" +:+ vn +:+ ".json".

Lemma store_clip_contents (w w' : world) (d : string) :
  w' = snd (store_clip env base task out mp trial vn sel w) ->
  contents w' d = contents w d
  \/ (d = folder /\ count w folder < 2 * mp
      /\ contents w' d ⊆ {[json]} ∪ ({[video]} ∪ contents w d)).
Proof.
  unfold store_clip. fold folder video json. unfold bind at 1.
  destruct (ensure_dir_spec folder w) as (w0 & -> & Hf & Hc & _).
  unfold bind at 1. unfold listdir. rewrite Hf.
  destruct (Z.leb_spec (2 * mp) (len (contents w folder))) as [Hq|Hq].
  { intros ->. left. unfold emit. cbn [snd]. now rewrite contents_add_log, Hc. }
  unfold bind at 1.
  pose proof (write_video_touches env folder video sel w0) as Ht.
  destruct (write_video env sel folder video w0) as [[[]|e] w1]; cbn [snd] in *.
  - unfold bind, create_file, emit.
    rewrite (touches_only_exists _ _ _ _ _ Ht Hf). unfold_world. intros ->.
    rewrite (contents_insert w1 _ folder d ({[json]} ∪ contents w1 folder))
      by reflexivity.
    destruct (decide (d = folder)) as [Hd|Hd].
    + right. split; [exact Hd|]. split; [exact Hq|]. rewrite Hd.
      destruct (touches_only_contents folder video w0 w1 folder Ht)
        as [H1 | (_ & _ & H1)]; rewrite H1, Hc; set_solver.
    + left. destruct (touches_only_contents folder video w0 w1 d Ht)
        as [H1 | (Hd' & _)]; [|contradiction]. now rewrite H1, Hc.
  - intros ->.
    destruct (touches_only_contents folder video w0 w1 d Ht) as [H1 | (Hd & _ & H1)].
    + left. now rewrite H1, Hc.
    + right. split; [exact Hd|]. split; [exact Hq|].
      rewrite H1, Hc. set_solver.
Qed.

(** A directory never grows past [2 * mp + 1] entries, or past what it
    held if that was more. *)
Lemma store_clip_bound (d : string) (b : Z) :
  2 * mp + 1 <= b ->
  preserves (fun w => count w d <= b) (store_clip env base task out mp trial vn sel).
Proof.
  intros Hb w Hw.
  destruct (store_clip_contents w _ d eq_refl) as [H | (Hd & Hq & H)].
  - unfold count. now rewrite H.
  - rewrite <- Hd in Hq. unfold count in *. apply size_add_two in H. lia.
Qed.

End StoreClip.

Lemma process_view_effect
    (env : backends) (base task out : string) (fc mp : Z) (trial : string)
    (data : gmap string dataset) (view : string) (w : world) :
  fs (snd (process_view env base task out fc mp trial data view w)) = fs w
  \/ exists vn sel w0,
       fs w0 = fs w
       /\ length (nd_shape sel) = 4%nat
       /\ process_view env base task out fc mp trial data view w
          = store_clip env base task out mp trial vn sel w0.
Proof.
  destruct (process_view env base task out fc mp trial data view w) as [r w'] eqn:H.
  unfold process_view in H.
  destruct (data !! view) as [[frames|]|];
    [| injection H as _ <-; now left | injection H as _ <-; now left ].
  unfold bind, emit, of_option, ret, raise, view_name_of in H.
  destruct (stream_invalid _ _) eqn:Hv; [injection H as _ <-; now left|].
  destruct (Np.sample _ _) as [indices|]; [|injection H as _ <-; now left].
  destruct (take frames indices) as [sel|] eqn:Ht; [|injection H as _ <-; now left].
  destruct (PyStr.split _ _ !! 1%nat) as [vn|]; [|injection H as _ <-; now left].
  right.
  exists vn, sel, (add_log (EvSample trial view indices) (add_log (EvRead trial view) w)).
  split; [reflexivity|]. split; [|now rewrite <- H].
  eapply take_rank; [|exact Ht]. eapply stream_valid_rank; exact Hv.
Qed.

(** C2, as the code has it.  A view-production step writes nothing into a
    directory that already holds [2 * max_pairs] entries or more, and adds at
    most two entries otherwise; so along any sequence of steps, of files and of
    trials a directory never holds more than [2 * max_pairs + 1] entries, or
    more than it held at the start if that was more. *)
Theorem quota_bound (env : backends) (task out : string) (fc mp : Z) (d : string) :
  (forall base trial data view w,
      let w' := snd (process_view env base task out fc mp trial data view w) in
      (2 * mp <= count w d -> contents w' d = contents w d)
      /\ count w' d <= count w d + 2
      /\ count w' d <= Z.max (count w d) (2 * mp + 1))
  /\ (forall files w,
         count (process_files env task out fc mp files w) d
         <= Z.max (count w d) (2 * mp + 1)).
Proof.
  split.
  - intros base trial data view w w'. subst w'.
    destruct (process_view_effect env base task out fc mp trial data view w)
      as [H | (vn & sel & w0 & H0 & _ & ->)].
    + assert (contents (snd (process_view env base task out fc mp trial data view w)) d
              = contents w d) as Hc by (unfold contents; now rewrite H).
      unfold count. rewrite Hc. repeat split; lia.
    + assert (contents w0 d = contents w d) as Hc0 by (unfold contents; now rewrite H0).
      assert (count w0 (PyStr.path_join out vn) = count w (PyStr.path_join out vn)) as Hn
        by (unfold count, contents; now rewrite H0).
      destruct (store_clip_contents env base task out mp trial vn sel w0 _ d eq_refl)
        as [H | (Hd & Hq & H)].
      * unfold count. rewrite H, Hc0. repeat split; lia.
      * rewrite Hc0 in H. rewrite Hn, <- Hd in Hq.
        apply size_add_two in H. unfold count in *. repeat split; lia.
  - intros files w.
    apply (process_files_preserves (fun w' => count w' d <= Z.max (count w d) (2 * mp + 1))).
    + intros e w' H. exact H.
    + intros base trial vn sel _. apply store_clip_bound. lia.
    + lia.
Qed.

Lemma quota_bound_witness :
  count (process_files (Demo.env_ok (fun _ => Some Demo.two_trials)) "task" "out" 2 1
           ["./set/a.h5"; "./set/b.h5"] Demo.fresh_dirs) "out/left"
  <= Z.max (count Demo.fresh_dirs "out/left") (2 * 1 + 1).
Proof.
  apply (quota_bound (Demo.env_ok (fun _ => Some Demo.two_trials)) "task" "out" 2 1
           "out/left").
Defined.

(** ** Pairing of videos and JSON files *)

Section Suffixes.

Lemma length_app_string (s1 s2 : string) :
  String.length (s1 +:+ s2) = (String.length s1 + String.length s2)%nat.
Proof. induction s1 as [|c s1 IH]; simpl; [reflexivity | now rewrite IH]. Qed.

Lemma app_suffix_inj (t s1 s2 : string) : s1 +:+ t = s2 +:+ t -> s1 = s2.
Proof.
  revert s2. induction s1 as [|c s1 IH]; intros [|c' s2] H; simpl in H.
  - reflexivity.
  - apply (f_equal String.length) in H. rewrite ?length_app_string in H. simpl in H. rewrite ?length_app_string in H. lia.
  - apply (f_equal String.length) in H. rewrite ?length_app_string in H. simpl in H. rewrite ?length_app_string in H. lia.
  - injection H as -> H. f_equal. now apply IH.
Qed.

Lemma mp4_not_json (s1 s2 : string) : s1 +:+ ".mp4" <> s2 +:+ ".json".
Proof.
  revert s2. induction s1 as [|c s1 IH]; intros s2 H.
  - apply (f_equal String.length) in H. rewrite !length_app_string in H.
    simpl in H. lia.
  - destruct s2 as [|c' s2].
    + assert (s1 = "") as ->.
      { apply (f_equal String.length) in H. simpl in H.
        rewrite !length_app_string in H. simpl in H.
        destruct s1; [reflexivity | simpl in H; lia]. }
      discriminate H.
    + simpl in H. injection H as _ H. now apply IH in H.
Qed.

Lemma paired_add (entries : gset string) (b : string) :
  paired entries -> paired ({[b +:+ ".json"]} ∪ ({[b +:+ ".mp4"]} ∪ entries)).
Proof.
  intros Hp base. rewrite !elem_of_union, !elem_of_singleton. split.
  - intros [H | [H | H]].
    + now apply mp4_not_json in H.
    + apply app_suffix_inj in H. subst. now left.
    + right. right. now apply Hp.
  - intros [H | [H | H]].
    + apply app_suffix_inj in H. subst. right. now left.
    + symmetry in H. now apply mp4_not_json in H.
    + right. right. now apply Hp.
Qed.

End Suffixes.

Section Delivery.

Context (env : backends) (folder name : string).

Lemma insert_twice (m : gmap string (gset string)) (entries : gset string) :
  <[folder := {[name]} ∪ ({[name]} ∪ entries)]> (<[folder := {[name]} ∪ entries]> m)
  = <[folder := {[name]} ∪ entries]> m.
Proof. rewrite insert_insert_eq. f_equal. set_solver. Qed.

Lemma cv2_fallback_delivers (sel : ndarray) (w : world) (entries : gset string) :
  cv2_writes (cv2_run env (cv2_calls w)) ->
  length (nd_shape sel) = 4%nat ->
  nd_items sel <> [] ->
  fs w !! folder = Some entries ->
  exists w', cv2_fallback env sel folder name w = (Ret tt, w')
             /\ fs w' = <[folder := {[name]} ∪ entries]> (fs w).
Proof.
  intros (Hok & Hopen) Hrank Hne Hf. unfold cv2_fallback.
  destruct (nd_items sel) as [|fr items]; [congruence|].
  destruct (nd_shape sel) as [|n [|height [|width shape]]]; try discriminate.
  unfold bind, cv2_select_codec, cv2_writer. unfold_monad.
  rewrite Hok.
  destruct (cv_avc1 _) eqn:Ea; unfold_world; rewrite ?Hf; unfold_world.
  - eexists. split; reflexivity.
  - destruct Hopen as [|Hm]; [discriminate|]. rewrite Hm. unfold_world.
    rewrite Hf. unfold_world. eexists. split; reflexivity.
  - destruct Hopen as [|Hm]; [discriminate|]. rewrite Hm. unfold_world.
    rewrite Hf. unfold_world. eexists. split; reflexivity.
Qed.

Lemma prepared_items (sel : ndarray) :
  nd_items (match nd_dtype sel with UInt8 => sel | _ => scale_to_uint8 sel end) = []
  -> nd_items sel = [].
Proof.
  destruct (nd_dtype sel); cbn; [tauto| |]; destruct (nd_items sel); cbn; congruence.
Qed.

Lemma prepared_shape (sel : ndarray) :
  nd_shape (match nd_dtype sel with UInt8 => sel | _ => scale_to_uint8 sel end)
  = nd_shape sel.
Proof. now destruct (nd_dtype sel). Qed.

Lemma save_video_with_imageio_spec (sel : ndarray) (w w' : world)
    (entries : gset string) (r : result bool) :
  fs w !! folder = Some entries ->
  save_video_with_imageio env sel folder name w = (r, w') ->
  cv2_calls w' = cv2_calls w
  /\ ((r = Ret true /\ fs w' = <[folder := {[name]} ∪ entries]> (fs w))
      \/ (r = Ret false
          /\ ((imageio_run env (imageio_calls w) <> ImageioOk
               /\ (fs w' = fs w \/ fs w' = <[folder := {[name]} ∪ entries]> (fs w)))
              \/ (nd_items sel = [] /\ fs w' = fs w)
              \/ (length (nd_shape sel) <> 4%nat /\ fs w' = fs w)))).
Proof.
  intros Hf H. unfold save_video_with_imageio, adjust_dimensions_to_multiple_of_16 in H.
  rewrite prepared_shape in H.
  destruct (nd_items (match nd_dtype sel with
                      | UInt8 => sel | _ => scale_to_uint8 sel end)) as [|fr items] eqn:Ei.
  { apply prepared_items in Ei. injection H as <- <-. split; [reflexivity|].
    right. split; [reflexivity|]. right. left. now split. }
  destruct (nd_shape sel) as [|n [|height [|width [|channels [|? ?]]]]];
    try (injection H as <- <-; split; [reflexivity|]; right;
         split; [reflexivity|]; right; right; split; [discriminate | reflexivity]).
  unfold create_file in H. unfold_world.
  destruct (_ && _); destruct (imageio_run env (imageio_calls w)) as [|[|]];
    rewrite ?Hf in H; unfold_world; injection H as <- <-; unfold_world;
    (split; [reflexivity|]);
    try (left; split; reflexivity);
    right; (split; [reflexivity|]); left; (split; [discriminate|]);
    first [left; reflexivity | right; reflexivity].
Qed.

Lemma write_video_delivers (sel : ndarray) (w : world) (entries : gset string) :
  encoders_deliver env ->
  length (nd_shape sel) = 4%nat ->
  fs w !! folder = Some entries ->
  (exists w', write_video env sel folder name w = (Ret tt, w')
              /\ fs w' = <[folder := {[name]} ∪ entries]> (fs w))
  \/ (exists e w', write_video env sel folder name w = (Raise e, w')
                   /\ fs w' = fs w).
Proof.
  intros Hd Hrank Hf. unfold write_video, bind.
  destruct (save_video_with_imageio env sel folder name w) as [r w1] eqn:Hs.
  destruct (save_video_with_imageio_spec sel w w1 entries r Hf Hs)
    as (Hc & [(-> & H1) | (-> & Hwhy)]).
  { left. exists w1. now split. }
  destruct (nd_items sel) as [|fr items] eqn:Ei.
  { right. unfold cv2_fallback. rewrite Ei. unfold raise. exists IndexError, w1.
    split; [reflexivity|].
    clear Hwhy.
    unfold save_video_with_imageio, adjust_dimensions_to_multiple_of_16 in Hs.
    assert (nd_items (match nd_dtype sel with
                      | UInt8 => sel | _ => scale_to_uint8 sel end) = []) as Ep
      by (destruct (nd_dtype sel); cbn; rewrite ?Ei; reflexivity).
    rewrite Ep in Hs. cbv beta iota in Hs. now injection Hs as <-. }
  destruct Hwhy as [(Hio & H1) | [(Hw & _) | (Hw & _)]]; [|discriminate | lia].
  destruct Hd as [Hd | Hcv]; [now rewrite Hd in Hio|].
  left. destruct H1 as [H1 | H1].
  - destruct (cv2_fallback_delivers sel w1 entries) as (w' & -> & Hw').
    + rewrite Hc. apply Hcv.
    + exact Hrank.
    + rewrite Ei. discriminate.
    + now rewrite H1.
    + exists w'. split; [reflexivity|]. now rewrite Hw', H1.
  - destruct (cv2_fallback_delivers sel w1 ({[name]} ∪ entries)) as (w' & -> & Hw').
    + rewrite Hc. apply Hcv.
    + exact Hrank.
    + rewrite Ei. discriminate.
    + rewrite H1. apply lookup_insert_eq.
    + exists w'. split; [reflexivity|]. rewrite Hw', H1. apply insert_twice.
Qed.

End Delivery.

Section Pairing.

Context (env : backends) (task out : string) (fc mp : Z).
Hypothesis deliver : encoders_deliver env.

Lemma app_assoc_string (a b c : string) : (a +:+ b) +:+ c = a +:+ (b +:+ c).
Proof.
  induction a as [|x a IH]; [reflexivity|].
  change (String x ((a +:+ b) +:+ c) = String x (a +:+ (b +:+ c))). now rewrite IH.
Qed.

Lemma store_clip_paired (base trial vn : string) (sel : ndarray) :
  length (nd_shape sel) = 4%nat ->
  preserves (fun w => forall d, paired (contents w d))
            (store_clip env base task out mp trial vn sel).
Proof.
  intros Hrank w Hp d. unfold store_clip.
  set (folder := PyStr.path_join out vn).
  set (stem := base +:+ "-" +:+ trial +:+ "-" +:+ vn).
  assert (base +:+ "-" +:+ trial +:+ "-" +:+ vn +:+ ".mp4" = stem +:+ ".mp4") as ->
    by (subst stem; now rewrite !app_assoc_string).
  assert (base +:+ "-" +:+ trial +:+ "-" +:+ vn +:+ ".json" = stem +:+ ".json") as ->
    by (subst stem; now rewrite !app_assoc_string).
  unfold bind at 1.
  destruct (ensure_dir_spec folder w) as (w0 & -> & Hf & Hc & _).
  unfold bind at 1. unfold listdir. rewrite Hf.
  destruct (_ <=? _).
  { unfold emit. cbn [snd]. rewrite contents_add_log, Hc. apply Hp. }
  unfold bind at 1.
  destruct (write_video_delivers env folder (stem +:+ ".mp4") sel w0 _ deliver Hrank Hf)
    as [(w1 & -> & H1) | (e & w1 & -> & H1)].
  - unfold bind, create_file, emit. rewrite H1, lookup_insert_eq. unfold_world.
    rewrite (contents_insert w0 _ folder d
               ({[stem +:+ ".json"]} ∪ ({[stem +:+ ".mp4"]} ∪ contents w folder))).
    + destruct (decide (d = folder)); [|rewrite Hc; apply Hp].
      apply paired_add, Hp.
    + unfold_world. apply insert_insert_eq.
  - cbn [snd]. unfold contents. rewrite H1. fold (contents w0 d). rewrite Hc. apply Hp.
Qed.

End Pairing.


(** ** Saturation *)

Lemma all_done_saturated (out : string) (mp : Z) (w : world) :
  saturated out mp w -> all_done out mp rgb_views w = (Ret true, w).
Proof.
  intros Hs. unfold rgb_views. cbn [all_done].
  change (view_name_of "rgb_left") with (@ret string "left").
  change (view_name_of "rgb_right") with (@ret string "right").
  change (view_name_of "rgb_top") with (@ret string "top").
  change (view_name_of "rgb_wrist") with (@ret string "wrist").
  unfold bind, ret, listdir.
  destruct (Hs "left") as (e1 & Hf1 & H1); [cbn; tauto|].
  destruct (Hs "right") as (e2 & Hf2 & H2); [cbn; tauto|].
  destruct (Hs "top") as (e3 & Hf3 & H3); [cbn; tauto|].
  destruct (Hs "wrist") as (e4 & Hf4 & H4); [cbn; tauto|].
  rewrite Hf1. cbv beta iota. rewrite (proj2 (Z.ltb_ge _ _)) by assumption.
  rewrite Hf2. cbv beta iota. rewrite (proj2 (Z.ltb_ge _ _)) by assumption.
  rewrite Hf3. cbv beta iota. rewrite (proj2 (Z.ltb_ge _ _)) by assumption.
  rewrite Hf4. cbv beta iota. rewrite (proj2 (Z.ltb_ge _ _)) by assumption.
  reflexivity.
Qed.

Lemma for_each_return_app {A R} (body : A -> M (option R)) (l1 l2 : list A) (w w' : world) :
  for_each_return body l1 w = (Ret None, w') ->
  for_each_return body (l1 ++ l2)%list w = for_each_return body l2 w'.
Proof.
  revert w. induction l1 as [|x l1 IH]; intros w H; cbn [for_each_return app] in *.
  - unfold ret in H. now injection H as ->.
  - unfold bind in *. destruct (body x w) as [[[v|]|e] w1]; try discriminate.
    now apply IH.
Qed.

(** C3. Once the walker has gone through the views of a trial and the four
    view directories hold [2 * max_pairs] entries or more, it prints, returns
    [False] and leaves the world as that trial left it: no later trial of the
    file is touched; and the driver, on [False], stops there: no later file is
    opened. *)
Theorem saturation_stops_walker_and_driver
    (env : backends) (h5_path task out : string) (fc mp : Z)
    (file : container) (before after : list string) (trial : string)
    (data : gmap string dataset) (remaining : list string) (w0 w w1 : world) :
  let base := PyStr.replace ".h5" "" (PyStr.basename h5_path) in
  h5_open env h5_path = Some file ->
  sorted_trials (keys file) = Some (before ++ trial :: after)%list ->
  for_each_return (process_trial env file base task out fc mp) before
    (add_log (EvOpen h5_path) w0) = (Ret None, w) ->
  member file trial = Some {| tr_data := Some data |} ->
  for_each (process_view env base task out fc mp trial data) rgb_views
    (add_log (EvTrial trial) w) = (Ret tt, w1) ->
  saturated out mp w1 ->
  process_h5_file env h5_path task out fc mp w0 = (false, add_log EvAllDone w1)
  /\ process_files env task out fc mp (h5_path :: remaining) w0 = add_log EvAllDone w1.
Proof.
  intros base Hopen Hsort Hbefore Hmember Hviews Hsat.
  assert (process_h5_file env h5_path task out fc mp w0 = (false, add_log EvAllDone w1))
    as Hfile.
  { unfold process_h5_file. fold base. unfold walk.
    unfold bind at 1. unfold emit at 1. unfold bind at 1. rewrite Hopen. cbn [of_option ret].
    unfold bind at 1. rewrite Hsort. cbn [of_option ret].
    unfold bind at 1. rewrite (for_each_return_app _ _ _ _ _ Hbefore).
    cbn [for_each_return]. unfold bind at 1. unfold process_trial.
    unfold bind at 1. unfold emit at 1. unfold bind at 1. rewrite Hmember.
    cbn [of_option ret tr_data]. unfold bind at 1. rewrite Hviews.
    unfold bind at 1. rewrite (all_done_saturated _ _ _ Hsat).
    reflexivity. }
  split; [exact Hfile|]. cbn [process_files]. now rewrite Hfile.
Qed.

Lemma saturation_stops_walker_and_driver_witness :
  let env := Demo.env_ok (fun _ => Some Demo.two_trials) in
  let w := add_log (EvOpen "./set/a.h5") Demo.fresh_dirs in
  let w1 := snd (for_each (process_view env "a" "task" "out" 2 1 "Trial1"
                             (Demo.four_views Demo.stream_u8)) rgb_views
                   (add_log (EvTrial "Trial1") w)) in
  process_h5_file env "./set/a.h5" "task" "out" 2 1 Demo.fresh_dirs
  = (false, add_log EvAllDone w1)
  /\ process_files env "task" "out" 2 1 ["./set/a.h5"; "./set/b.h5"] Demo.fresh_dirs
     = add_log EvAllDone w1.
Proof.
  intros env w w1.
  apply (saturation_stops_walker_and_driver env "./set/a.h5" "task" "out" 2 1
           Demo.two_trials [] ["Trial2"] "Trial1" (Demo.four_views Demo.stream_u8)
           ["./set/b.h5"] Demo.fresh_dirs w w1).
  - reflexivity.
  - reflexivity.
  - reflexivity.
  - reflexivity.
  - vm_compute. reflexivity.
  - intros v [<- | [<- | [<- | [<- | []]]]];
      [ exists {["a-Trial1-left.json"; "a-Trial1-left.mp4"]}
      | exists {["a-Trial1-right.json"; "a-Trial1-right.mp4"]}
      | exists {["a-Trial1-top.json"; "a-Trial1-top.mp4"]}
      | exists {["a-Trial1-wrist.json"; "a-Trial1-wrist.mp4"]} ];
      (split; [vm_compute; reflexivity | vm_compute; discriminate]).
Defined.

(** ** The order of sampling and quota check *)

Lemma process_view_ready
    (env : backends) (base task out : string) (fc mp : Z) (trial : string)
    (data : gmap string dataset) (view : string) (frames : ndarray)
    (indices : list Z) (sel : ndarray) (vn : string) (w : world) :
  view_ready fc data view frames indices sel vn ->
  process_view env base task out fc mp trial data view w
  = store_clip env base task out mp trial vn sel
      (add_log (EvSample trial view indices) (add_log (EvRead trial view) w)).
Proof.
  intros (Hd & Hv & Hs & Ht & Hn). unfold process_view, view_name_of.
  rewrite Hd. unfold bind, emit, of_option, ret. now rewrite Hv, Hs, Ht, Hn.
Qed.

(** C6, as the code has it.  For a view whose directory already holds
    [2 * max_pairs] entries or more the walker writes nothing and calls no
    encoder; but the stream has been read, tested and sampled by then: the
    sampler runs before the quota check, and its result is dropped. *)
Theorem quota_checked_after_sampling
    (env : backends) (base task out : string) (fc mp : Z) (trial : string)
    (data : gmap string dataset) (view : string) (frames : ndarray)
    (indices : list Z) (sel : ndarray) (vn : string) (entries : gset string) (w : world) :
  view_ready fc data view frames indices sel vn ->
  fs w !! PyStr.path_join out vn = Some entries ->
  2 * mp <= len entries ->
  process_view env base task out fc mp trial data view w
  = (Ret tt, add_log (EvSkipQuota vn (len entries / 2))
               (add_log (EvSample trial view indices)
                  (add_log (EvRead trial view) w))).
Proof.
  intros Hr Hf Hq. rewrite (process_view_ready _ _ _ _ _ _ _ _ _ _ _ _ _ _ Hr).
  unfold store_clip, bind, ensure_dir, listdir. unfold_world. rewrite Hf.
  cbv beta iota. unfold_world. rewrite Hf. cbv beta iota.
  now rewrite (proj2 (Z.leb_le _ _) Hq).
Qed.

Lemma quota_checked_after_sampling_witness :
  process_view (Demo.env_ok (fun _ => None)) "a" "task" "out" 2 1 "Trial1"
    (Demo.four_views Demo.stream_u8) "rgb_left" Demo.full_dirs
  = (Ret tt, add_log (EvSkipQuota "left" (len {["x.mp4"; "x.json"]} / 2))
               (add_log (EvSample "Trial1" "rgb_left" [0; 2])
                  (add_log (EvRead "Trial1" "rgb_left") Demo.full_dirs))).
Proof.
  apply (quota_checked_after_sampling (Demo.env_ok (fun _ => None)) "a" "task" "out" 2 1
           "Trial1" (Demo.four_views Demo.stream_u8) "rgb_left" Demo.stream_u8 [0; 2]
           {| nd_dtype := UInt8; nd_shape := [2; 1; 1; 3];
              nd_items := [[SInt 10; SInt 20; SInt 30]; [SInt 12; SInt 22; SInt 32]] |}
           "left" {["x.mp4"; "x.json"]} Demo.full_dirs).
  - repeat split; reflexivity.
  - reflexivity.
  - vm_compute. discriminate.
Defined.

(** The claim of C6 fails as stated: with the directory of the left view
    already at its quota, the walker still computes the frame indices of the
    left stream before it skips the view. *)
Lemma sampler_runs_before_quota_check :
  log (snd (process_view (Demo.env_ok (fun _ => None)) "a" "task" "out" 2 1 "Trial1"
              (Demo.four_views Demo.stream_u8) "rgb_left" Demo.full_dirs))
  = [EvRead "Trial1" "rgb_left"; EvSample "Trial1" "rgb_left" [0; 2];
     EvSkipQuota "left" 1].
Proof. vm_compute. reflexivity. Qed.

(** ** Runs in which an encoder fails *)

(** The claim of C2 fails as stated: with [max_pairs = 1] and empty view
    directories, a first trial whose encodings fail silently leaves one JSON
    file in each directory, and the second trial then adds a video and a JSON
    file: three files, more than [2 * max_pairs]. *)
Lemma quota_exceeded_after_silent_failure :
  let env := Demo.env_silent_until 4 (fun _ => Some Demo.two_trials) in
  let w' := snd (process_h5_file env "./set/a.h5" "task" "out" 2 1 Demo.fresh_dirs) in
  count Demo.fresh_dirs "out/left" = 0
  /\ count w' "out/left" = 3
  /\ 2 * 1 < count w' "out/left".
Proof. vm_compute. repeat split; reflexivity. Qed.



(** ** Failures of the two encoders *)

Section EncoderFailures.

Context (env : backends) (folder name : string).

Lemma save_video_with_imageio_fails (sel : ndarray) (w : world)
    (entries : gset string) (partial : bool) :
  fs w !! folder = Some entries ->
  imageio_run env (imageio_calls w) = ImageioFails partial ->
  exists w1, save_video_with_imageio env sel folder name w = (Ret false, w1)
             /\ log w1 = (log w ++ [EvImageioError])%list
             /\ cv2_calls w1 = cv2_calls w
             /\ is_Some (fs w1 !! folder).
Proof.
  intros Hf Hio. unfold save_video_with_imageio.
  destruct (adjust_dimensions_to_multiple_of_16 _ _).
  - rewrite Hio. destruct partial.
    + unfold create_file. unfold_world. rewrite Hf. unfold_world.
      eexists. split; [reflexivity|]. unfold_world. repeat split.
      rewrite lookup_insert_eq. eauto.
    + eexists. split; [reflexivity|]. unfold_world. repeat split. eauto.
  - eexists. split; [reflexivity|]. unfold_world. repeat split. eauto.
Qed.

Lemma cv2_writer_exists (codec : string) (r : open_result) (w : world) :
  is_Some (fs w !! folder) ->
  exists w', log w' = (log w ++ [EvCv2Open codec folder name])%list
             /\ is_Some (fs w' !! folder)
             /\ cv2_writer codec r folder name w
                = (match r with
                   | Opened => Ret true
                   | NotOpened => Ret false
                   | OpenRaises => Raise Cv2Error
                   end, w').
Proof.
  intros [entries Hf]. unfold cv2_writer. unfold_monad.
  destruct r; unfold_world; rewrite ?Hf; unfold_world;
    eexists; (split; [|split; [|reflexivity]]); unfold_world;
    rewrite ?lookup_insert_eq; eauto.
Qed.

Lemma cv2_fallback_outcome (sel : ndarray) (w : world) :
  is_Some (fs w !! folder) ->
  nd_items sel <> [] ->
  length (nd_shape sel) = 4%nat ->
  exists w',
    cv2_fallback env sel folder name w = (cv2_outcome (cv2_run env (cv2_calls w)), w')
    /\ is_Some (fs w' !! folder)
    /\ exists l, log w' = (log w ++ l)%list.
Proof.
  intros Hf Hne Hrank. unfold cv2_fallback.
  destruct (nd_items sel) as [|fr items]; [congruence|].
  destruct (nd_shape sel) as [|n [|height [|width shape]]]; try discriminate.
  set (c := cv2_run env (cv2_calls w)).
  unfold bind, cv2_select_codec. unfold bind.
  destruct (cv2_writer_exists "avc1" (cv_avc1 c) (tick_cv2 w) Hf) as (w1 & Hl1 & Hf1 & ->).
  destruct (cv2_writer_exists "mp4v" (cv_mp4v c) w1 Hf1) as (w2 & Hl2 & Hf2 & E2).
  destruct (cv2_writer_exists "mp4v" (cv_mp4v c) w2 Hf2) as (w3 & Hl3 & Hf3 & E3).
  unfold_world. unfold cv2_outcome.
  destruct (cv_avc1 c); rewrite ?E2; destruct (cv_mp4v c); rewrite ?E3;
    destruct (cv_frames_ok c); unfold emit, raise; unfold_world;
    eexists; (split; [reflexivity|]); unfold_world;
    (split; [eassumption|]);
    rewrite ?Hl3, ?Hl2, ?Hl1; unfold_world; rewrite <- ?app_assoc; eauto.
Qed.

Lemma cv2_outcome_completes (c : cv2_result) :
  cv2_completes c <-> cv2_outcome c = Ret tt.
Proof.
  unfold cv2_completes, cv2_outcome.
  destruct (cv_frames_ok c), (cv_avc1 c), (cv_mp4v c); split;
    try reflexivity; try discriminate;
    try (intros (H & [H' | H']); congruence);
    intros _; (split; [reflexivity|]);
    first [left; reflexivity | right; discriminate].
Qed.

Lemma cv2_outcome_raises (c : cv2_result) :
  ~ cv2_completes c <-> cv2_outcome c = Raise Cv2Error.
Proof.
  rewrite cv2_outcome_completes. unfold cv2_outcome.
  destruct (cv_frames_ok c), (cv_avc1 c), (cv_mp4v c); split; congruence.
Qed.

End EncoderFailures.

Lemma for_each_cons_ret {A} (body : A -> M unit) (x : A) (l : list A) (w w' : world) :
  body x w = (Ret tt, w') -> for_each body (x :: l) w = for_each body l w'.
Proof. intros H. cbn [for_each]. unfold bind. now rewrite H. Qed.

Lemma for_each_cons_raise {A} (body : A -> M unit) (x : A) (l : list A)
    (w w' : world) (e : exn) :
  body x w = (Raise e, w') -> for_each body (x :: l) w = (Raise e, w').
Proof. intros H. cbn [for_each]. unfold bind. now rewrite H. Qed.

Lemma take_items (a : ndarray) (indices : list Z) (sel : ndarray) :
  take a indices = Some sel -> indices <> [] -> nd_items sel <> [].
Proof.
  unfold take. destruct (mapM (item a) indices) as [its|] eqn:E; [|discriminate].
  intros [= <-] Hne. cbn. apply length_mapM in E.
  destruct its; [|discriminate]. destruct indices; [congruence | discriminate].
Qed.




(** ** Byte scaling *)


(* ===================================================================== *)
(** * Frame sampling in binary64 *)

Section Binary64.

Local Close Scope string_scope.

(** digits *)
Lemma digits2_pos_bounds (p : positive) :
  2 ^ (Z.pos (digits2_pos p) - 1) <= Z.pos p < 2 ^ Z.pos (digits2_pos p).
Proof.
  induction p as [p IH|p IH|]; cbn [digits2_pos]; rewrite ?Pos2Z.inj_succ.
  - replace (Z.succ (Z.pos (digits2_pos p)) - 1) with (Z.succ (Z.pos (digits2_pos p) - 1)) by lia.
    rewrite !Z.pow_succ_r by lia. lia.
  - replace (Z.succ (Z.pos (digits2_pos p)) - 1) with (Z.succ (Z.pos (digits2_pos p) - 1)) by lia.
    rewrite !Z.pow_succ_r by lia. lia.
  - cbn. lia.
Qed.

Lemma Zdigits2_log2 (z : Z) : 0 < z -> Zdigits2 z = Z.log2 z + 1.
Proof.
  destruct z as [|p|p]; try lia. intros _. cbn [Zdigits2].
  pose proof (digits2_pos_bounds p) as H.
  assert (Z.log2 (Z.pos p) = Z.pos (digits2_pos p) - 1); [|lia].
  apply Z.log2_unique; [lia|]. replace (Z.succ (Z.pos (digits2_pos p) - 1)) with (Z.pos (digits2_pos p)) by lia.
  exact H.
Qed.

Lemma Zdigits2_bounds (z : Z) : 0 < z -> 2 ^ (Zdigits2 z - 1) <= z < 2 ^ Zdigits2 z.
Proof.
  destruct z as [|p|p]; try lia. intros _. apply digits2_pos_bounds.
Qed.

Lemma Zdigits2_unique (z d : Z) : 2 ^ (d - 1) <= z < 2 ^ d -> 0 < d -> Zdigits2 z = d.
Proof.
  intros H Hd. assert (0 < z) by (pose proof (Z.pow_pos_nonneg 2 (d - 1)); lia).
  rewrite Zdigits2_log2 by lia.
  assert (Z.log2 z = d - 1); [|lia]. apply Z.log2_unique; [lia|].
  now replace (Z.succ (d - 1)) with d by lia.
Qed.

(** iterated right shift *)
Lemma iter_pos_nat {A} (f : A -> A) (p : positive) : forall x,
  SpecFloat.iter_pos f p x = Nat.iter (Pos.to_nat p) f x.
Proof.
  induction p as [p IH|p IH|]; intros x; cbn [SpecFloat.iter_pos].
  - rewrite !IH, Pos2Nat.inj_xI.
    replace (S (2 * Pos.to_nat p))%nat with (Pos.to_nat p + S (Pos.to_nat p))%nat by lia.
    now rewrite Nat.iter_add, Nat.iter_succ_r.
  - rewrite !IH, Pos2Nat.inj_xO.
    replace (2 * Pos.to_nat p)%nat with (Pos.to_nat p + Pos.to_nat p)%nat by lia.
    now rewrite Nat.iter_add.
  - reflexivity.
Qed.

Lemma shr_1_spec (m : Z) (r s : bool) :
  0 <= m ->
  shr_1 {| shr_m := m; shr_r := r; shr_s := s |}
  = {| shr_m := m / 2; shr_r := Z.odd m; shr_s := r || s |}.
Proof.
  intros Hm. destruct m as [|[p|p|]|p]; try lia; cbn [shr_1]; f_equal.
  - rewrite Pos2Z.inj_xI. apply Z.div_unique with 1; lia.
  - rewrite Pos2Z.inj_xO. apply Z.div_unique with 0; lia.
Qed.

Lemma mod_pow2_succ (m : Z) (k : Z) :
  0 <= m -> 0 <= k ->
  negb (m mod 2 ^ (k + 1) =? 0) = Z.testbit m k || negb (m mod 2 ^ k =? 0).
Proof.
  intros Hm Hk.
  rewrite Z.testbit_odd, Z.shiftr_div_pow2 by lia.
  assert (0 < 2 ^ k) by (apply Z.pow_pos_nonneg; lia).
  rewrite Z.pow_add_r, Z.pow_1_r by lia.
  rewrite Z.rem_mul_r by lia.
  pose proof (Z.mod_pos_bound m (2 ^ k) ltac:(lia)).
  pose proof (Z.mod_pos_bound (m / 2 ^ k) 2 ltac:(lia)).
  rewrite (Zmod_odd (m / 2 ^ k)).
  destruct (Z.odd (m / 2 ^ k));
    destruct (Z.eqb_spec (m mod 2 ^ k) 0) as [E|E];
    match goal with |- negb (?x =? 0) = _ => destruct (Z.eqb_spec x 0) as [E2|E2] end;
    cbn; try reflexivity; try nia.
Qed.

Lemma iter_shr_1_exact (k : nat) (m : Z) :
  0 <= m ->
  Nat.iter (S k) shr_1 {| shr_m := m; shr_r := false; shr_s := false |}
  = {| shr_m := m / 2 ^ Z.of_nat (S k);
       shr_r := Z.testbit m (Z.of_nat k);
       shr_s := negb (m mod 2 ^ Z.of_nat k =? 0) |}.
Proof.
  intros Hm. induction k as [|k IH].
  - cbn [Nat.iter]. rewrite shr_1_spec by lia.
    change (Z.of_nat 1) with 1. change (Z.of_nat 0) with 0.
    rewrite Z.bit0_odd, Z.pow_1_r, Z.pow_0_r, Z.mod_1_r. reflexivity.
  - rewrite Nat.iter_succ, IH.
    assert (0 < 2 ^ Z.of_nat (S k)) by (apply Z.pow_pos_nonneg; lia).
    rewrite shr_1_spec by (apply Z.div_pos; lia). f_equal.
    + rewrite Z.div_div by lia. f_equal.
      rewrite (Nat2Z.inj_succ (S k)), Z.pow_succ_r by lia. lia.
    + rewrite Z.testbit_odd, Z.shiftr_div_pow2 by lia. reflexivity.
    + rewrite (Nat2Z.inj_succ k). unfold Z.succ. rewrite mod_pow2_succ by lia.
      reflexivity.
Qed.

Lemma shr_exact (P E k : Z) :
  0 <= P -> 0 < k ->
  shr (shr_record_of_loc P loc_Exact) E k
  = ({| shr_m := P / 2 ^ k;
        shr_r := Z.testbit P (k - 1);
        shr_s := negb (P mod 2 ^ (k - 1) =? 0) |}, E + k).
Proof.
  intros HP Hk. destruct k as [|p|p]; try lia. cbn [shr shr_record_of_loc].
  rewrite iter_pos_nat.
  destruct (Pos.to_nat p) as [|k] eqn:Ek; [lia|].
  rewrite iter_shr_1_exact by assumption.
  assert (Z.pos p = Z.of_nat (S k)) as -> by lia.
  repeat f_equal; lia.
Qed.

Lemma round_of_record (m : Z) (r s : bool) :
  round_nearest_even m (loc_of_shr_record {| shr_m := m; shr_r := r; shr_s := s |})
  = if r && (s || Z.odd m) then m + 1 else m.
Proof.
  destruct r, s; cbn; try reflexivity.
  rewrite <- Z.negb_odd. now destruct (Z.odd m).
Qed.

Lemma shift_in_range (P k : Z) :
  0 < P -> 0 <= k -> Zdigits2 P = 53 + k ->
  2 ^ 52 <= P / 2 ^ k < 2 ^ 53.
Proof.
  intros HP Hk Hd. pose proof (Zdigits2_bounds P HP) as Hb. rewrite Hd in Hb.
  assert (0 < 2 ^ k) by (apply Z.pow_pos_nonneg; lia).
  replace (53 + k - 1) with (52 + k) in Hb by lia.
  rewrite !Z.pow_add_r in Hb by lia. split.
  - apply Z.div_le_lower_bound; lia.
  - apply Z.div_lt_upper_bound; lia.
Qed.

Lemma rne_shift_range (P k : Z) :
  0 < P -> 0 <= k -> Zdigits2 P = 53 + k ->
  2 ^ 52 <= rne_shift P k <= 2 ^ 53.
Proof.
  intros HP Hk Hd. pose proof (shift_in_range P k HP Hk Hd).
  unfold rne_shift. cbv zeta. destruct (_ && _); lia.
Qed.

Lemma normalize_53 (m e : Z) :
  2 ^ 52 <= m <= 2 ^ 53 -> -1074 <= e -> e + 1 <= 971 ->
  (let '(mrs, e') := shr_fexp 53 1024 m e loc_Exact in
   match shr_m mrs with
   | Z0 => S754_zero false
   | Z.pos p => if e' <=? 1024 - 53 then S754_finite false p e' else S754_infinity false
   | Z.neg _ => S754_nan
   end)
  = if m =? 2 ^ 53 then S754_finite false (Z.to_pos (2 ^ 52)) (e + 1)
    else S754_finite false (Z.to_pos m) e.
Proof.
  intros Hm He He'. unfold shr_fexp, fexp, emin.
  destruct (Z.eqb_spec m (2 ^ 53)) as [->|Hne].
  - rewrite (Zdigits2_unique (2 ^ 53) 54) by (cbn; lia).
    rewrite Z.max_l by lia.
    replace (54 + e - 53 - e) with 1 by lia. cbn [shr shr_record_of_loc SpecFloat.iter_pos].
    rewrite shr_1_spec by (cbn; lia). cbn [shr_m].
    change (2 ^ 53 / 2) with (Z.pos (Z.to_pos (2 ^ 52))).
    now rewrite (proj2 (Z.leb_le _ _)) by lia.
  - rewrite (Zdigits2_unique m 53) by lia.
    rewrite Z.max_l by lia.
    replace (53 + e - 53 - e) with 0 by lia. cbn [shr shr_record_of_loc shr_m].
    destruct m as [|p|p]; try lia. cbn [Z.to_pos].
    now rewrite (proj2 (Z.leb_le _ _)) by lia.
Qed.

Lemma binary_round_aux_shift (P E : Z) :
  0 < P ->
  let k := Zdigits2 P - 53 in
  0 < k -> -1074 <= E + k -> E + k + 1 <= 971 ->
  binary_round_aux 53 1024 false P E loc_Exact
  = if rne_shift P k =? 2 ^ 53
    then S754_finite false (Z.to_pos (2 ^ 52)) (E + k + 1)
    else S754_finite false (Z.to_pos (rne_shift P k)) (E + k).
Proof.
  intros HP k Hk Hlo Hhi. unfold binary_round_aux.
  assert (shr_fexp 53 1024 P E loc_Exact
          = ({| shr_m := P / 2 ^ k;
                shr_r := Z.testbit P (k - 1);
                shr_s := negb (P mod 2 ^ (k - 1) =? 0) |}, E + k)) as ->.
  { unfold shr_fexp, fexp, emin. rewrite Z.max_l by lia.
    replace (Zdigits2 P + E - 53 - E) with k by lia.
    now rewrite shr_exact by lia. }
  cbn [shr_m]. rewrite round_of_record. fold (rne_shift P k).
  apply normalize_53; try lia.
  apply rne_shift_range; lia.
Qed.

Lemma binary_round_aux_keep (P E : Z) :
  2 ^ 52 <= P < 2 ^ 53 -> -1074 <= E -> E + 1 <= 971 ->
  binary_round_aux 53 1024 false P E loc_Exact = S754_finite false (Z.to_pos P) E.
Proof.
  intros HP Hlo Hhi. unfold binary_round_aux.
  assert (shr_fexp 53 1024 P E loc_Exact
          = ({| shr_m := P; shr_r := false; shr_s := false |}, E)) as ->.
  { unfold shr_fexp, fexp, emin. rewrite (Zdigits2_unique P 53) by lia.
    rewrite Z.max_l by lia. replace (53 + E - 53 - E) with 0 by lia. reflexivity. }
  cbn [shr_m loc_of_shr_record round_nearest_even].
  rewrite normalize_53 by lia.
  destruct (Z.eqb_spec P (2 ^ 53)); [lia | reflexivity].
Qed.

Lemma pos_iter_xO (p d : positive) : Z.pos (Pos.iter xO p d) = Z.pos p * 2 ^ Z.pos d.
Proof.
  change (Pos.iter xO p d) with (Zpower.shift_pos d p).
  rewrite Zpower.shift_pos_correct, Z.pow_pos_fold. lia.
Qed.

Lemma of_Z_pos (i : Z) :
  0 < i < 2 ^ 53 ->
  F64.of_Z i
  = S754_finite false (Z.to_pos (i * 2 ^ (53 - Zdigits2 i))) (Zdigits2 i - 53).
Proof.
  intros Hi. destruct i as [|p|p]; try lia.
  pose proof (Zdigits2_bounds (Z.pos p) ltac:(lia)) as Hb.
  assert (1 <= Zdigits2 (Z.pos p) <= 53) as Hd.
  { cbn [Zdigits2] in *. split; [lia|].
    destruct (Z_le_gt_dec (Z.pos (digits2_pos p)) 53) as [|Hgt]; [assumption|].
    assert (2 ^ 53 <= 2 ^ (Z.pos (digits2_pos p) - 1)) by (apply Z.pow_le_mono_r; lia).
    lia. }
  unfold F64.of_Z, F64.prec, F64.emax, binary_normalize, binary_round, shl_align, fexp, emin.
  cbn [Zdigits2] in *. set (d := Z.pos (digits2_pos p)) in *.
  rewrite Z.add_0_r, Z.max_l by lia.
  destruct (d - 53 - 0) as [|dd|dd] eqn:Edd; try lia.
  - assert (d = 53) as Hd53 by lia. rewrite Hd53 in *.
    rewrite binary_round_aux_keep by lia.
    cbn [Z.to_pos]. f_equal. change (2 ^ (53 - 53)) with 1. rewrite Z.mul_1_r. reflexivity.
  - assert (Z.pos dd = 53 - d) as Hdd by lia.
    assert (0 < 2 ^ (53 - d)) by (apply Z.pow_pos_nonneg; lia).
    assert (2 ^ 52 <= Z.pos p * 2 ^ (53 - d) < 2 ^ 53).
    { replace (2 ^ 52) with (2 ^ (d - 1) * 2 ^ (53 - d))
        by (rewrite <- Z.pow_add_r by lia; f_equal; lia).
      replace (2 ^ 53) with (2 ^ d * 2 ^ (53 - d))
        by (rewrite <- Z.pow_add_r by lia; f_equal; lia).
      nia. }
    rewrite pos_iter_xO, Hdd.
    rewrite binary_round_aux_keep by lia. reflexivity.
Qed.

Lemma of_Z_zero : F64.of_Z 0 = S754_zero false.
Proof. reflexivity. Qed.

(** Rounding of a positive integer to 53 significant bits. *)
Lemma rne_shift_exact (c k : Z) : 0 <= k -> rne_shift (c * 2 ^ k) k = c.
Proof.
  intros Hk. unfold rne_shift. cbv zeta.
  assert (0 < 2 ^ k) by (apply Z.pow_pos_nonneg; lia).
  rewrite Z.div_mul by lia.
  assert (Z.testbit (c * 2 ^ k) (k - 1) = false) as ->; [|reflexivity].
  destruct (Z.eq_dec k 0) as [->|Hk0].
  - apply Z.testbit_neg_r. lia.
  - apply Z.mul_pow2_bits_low. lia.
Qed.

Lemma rne_shift_0 (X : Z) : rne_shift X 0 = X.
Proof. rewrite <- (rne_shift_exact X 0) at 2 by lia. f_equal. cbn. lia. Qed.

Lemma rne_shift_scale (X q j : Z) :
  0 <= X -> 0 < q -> 0 <= j -> rne_shift (X * 2 ^ j) (q + j) = rne_shift X q.
Proof.
  intros HX Hq Hj. unfold rne_shift. cbv zeta.
  assert (0 < 2 ^ j) by (apply Z.pow_pos_nonneg; lia).
  assert (0 < 2 ^ q) by (apply Z.pow_pos_nonneg; lia).
  assert (0 < 2 ^ (q - 1)) by (apply Z.pow_pos_nonneg; lia).
  rewrite Z.pow_add_r by lia.
  rewrite Z.div_mul_cancel_r by lia.
  replace (q + j - 1) with (j + (q - 1)) by lia.
  rewrite Z.mul_pow2_bits_add by lia.
  replace (j + (q - 1)) with ((q - 1) + j) by lia.
  rewrite Z.pow_add_r by lia.
  rewrite Z.mul_mod_distr_r by lia.
  assert ((X mod 2 ^ (q - 1) * 2 ^ j =? 0) = (X mod 2 ^ (q - 1) =? 0)) as ->; [|reflexivity].
  destruct (Z.eqb_spec (X mod 2 ^ (q - 1)) 0) as [->|Hne]; [reflexivity|].
  apply Z.eqb_neq. nia.
Qed.

Lemma rne_shift_cases (X k : Z) :
  0 <= X -> 0 < k ->
  let m := X / 2 ^ k in
  let rho := X mod 2 ^ k in
  rne_shift X k
  = if (2 ^ k <? 2 * rho) || ((2 * rho =? 2 ^ k) && Z.odd m) then m + 1 else m.
Proof.
  intros HX Hk m rho. unfold rne_shift. cbv zeta. fold m.
  assert (0 < 2 ^ (k - 1)) as Hh by (apply Z.pow_pos_nonneg; lia).
  assert (2 ^ k = 2 ^ (k - 1) * 2) as Hp.
  { replace k with (Z.succ (k - 1)) at 1 by lia. rewrite Z.pow_succ_r by lia. lia. }
  rewrite Z.testbit_odd, Z.shiftr_div_pow2 by lia.
  assert (rho = X mod 2 ^ (k - 1) + 2 ^ (k - 1) * ((X / 2 ^ (k - 1)) mod 2)) as Hrho
    by (subst rho; rewrite Hp; apply Z.rem_mul_r; lia).
  pose proof (Z.mod_pos_bound X (2 ^ (k - 1)) Hh) as Hl.
  rewrite (Zmod_odd (X / 2 ^ (k - 1))) in Hrho.
  destruct (Z.odd (X / 2 ^ (k - 1))); cbn [andb].
  - destruct (Z.eqb_spec (X mod 2 ^ (k - 1)) 0) as [E|E]; cbn [negb orb].
    + rewrite (proj2 (Z.ltb_ge _ _)) by lia.
      rewrite (proj2 (Z.eqb_eq _ _)) by lia. reflexivity.
    + rewrite (proj2 (Z.ltb_lt _ _)) by lia. reflexivity.
  - rewrite (proj2 (Z.ltb_ge _ _)) by lia.
    rewrite (proj2 (Z.eqb_neq _ _)) by lia. reflexivity.
Qed.

Lemma rne_shift_mono (X X' k : Z) :
  0 <= X <= X' -> 0 <= k -> rne_shift X k <= rne_shift X' k.
Proof.
  intros HX Hk. destruct (Z.eq_dec k 0) as [->|Hk0].
  { rewrite !rne_shift_0. lia. }
  rewrite !rne_shift_cases by lia. cbv zeta.
  assert (0 < 2 ^ k) as Hp by (apply Z.pow_pos_nonneg; lia).
  pose proof (Z.div_mod X (2 ^ k) ltac:(lia)) as E.
  pose proof (Z.div_mod X' (2 ^ k) ltac:(lia)) as E'.
  pose proof (Z.mod_pos_bound X (2 ^ k) Hp) as B.
  pose proof (Z.mod_pos_bound X' (2 ^ k) Hp) as B'.
  assert (X / 2 ^ k <= X' / 2 ^ k) as Hm by (apply Z.div_le_mono; lia).
  destruct (Z.eq_dec (X / 2 ^ k) (X' / 2 ^ k)) as [Heq|Hne].
  - rewrite <- Heq in *.
    assert (X mod 2 ^ k <= X' mod 2 ^ k) as Hr by lia.
    destruct (Z.ltb_spec (2 ^ k) (2 * (X mod 2 ^ k)));
      destruct (Z.ltb_spec (2 ^ k) (2 * (X' mod 2 ^ k)));
      destruct (Z.eqb_spec (2 * (X mod 2 ^ k)) (2 ^ k));
      destruct (Z.eqb_spec (2 * (X' mod 2 ^ k)) (2 ^ k));
      destruct (Z.odd (X / 2 ^ k)); cbn [orb andb]; lia.
  - destruct (_ || _); destruct (_ || _); lia.
Qed.

Lemma r53_eq (X : Z) :
  0 <= Zdigits2 X - 53 -> r53 X = rne_shift X (Zdigits2 X - 53) * 2 ^ (Zdigits2 X - 53).
Proof.
  intros Hq. unfold r53. cbv zeta.
  destruct (Z.leb_spec (Zdigits2 X - 53) 0) as [H0|]; [|reflexivity].
  assert (Zdigits2 X - 53 = 0) as -> by lia. rewrite rne_shift_0. cbn. lia.
Qed.

Lemma Zdigits2_mono (X X' : Z) : 0 < X <= X' -> Zdigits2 X <= Zdigits2 X'.
Proof.
  intros H. rewrite !Zdigits2_log2 by lia.
  pose proof (Z.log2_le_mono X X' ltac:(lia)). lia.
Qed.

Lemma r53_lower (X : Z) :
  0 < X -> 0 < Zdigits2 X - 53 -> 2 ^ (Zdigits2 X - 1) <= r53 X <= 2 ^ Zdigits2 X.
Proof.
  intros HX Hq. rewrite r53_eq by lia.
  remember (Zdigits2 X - 53) as q eqn:Eq.
  assert (Zdigits2 X = 53 + q) as Hd by lia. rewrite Hd.
  pose proof (rne_shift_range X q HX ltac:(lia) Hd) as Hr.
  assert (0 < 2 ^ q) by (apply Z.pow_pos_nonneg; lia).
  replace (53 + q - 1) with (52 + q) by lia.
  rewrite !Z.pow_add_r by lia. nia.
Qed.

Lemma r53_mono (X X' : Z) : 0 < X <= X' -> r53 X <= r53 X'.
Proof.
  intros H. pose proof (Zdigits2_mono X X' H) as Hd.
  destruct (Z_le_gt_dec (Zdigits2 X' - 53) 0) as [Hq'|Hq'].
  { unfold r53. cbv zeta.
    rewrite !(proj2 (Z.leb_le _ _)) by lia. lia. }
  pose proof (r53_lower X' ltac:(lia) ltac:(lia)) as HL'.
  destruct (Z_le_gt_dec (Zdigits2 X - 53) 0) as [Hq|Hq].
  { unfold r53 at 1. cbv zeta. rewrite (proj2 (Z.leb_le _ _)) by lia.
    pose proof (Zdigits2_bounds X ltac:(lia)).
    assert (2 ^ Zdigits2 X <= 2 ^ (Zdigits2 X' - 1)) by (apply Z.pow_le_mono_r; lia).
    lia. }
  destruct (Z.eq_dec (Zdigits2 X) (Zdigits2 X')) as [Heq|Hne].
  - rewrite !r53_eq by lia. rewrite Heq.
    assert (0 < 2 ^ (Zdigits2 X' - 53)) by (apply Z.pow_pos_nonneg; lia).
    pose proof (rne_shift_mono X X' (Zdigits2 X' - 53) ltac:(lia) ltac:(lia)). nia.
  - pose proof (r53_lower X ltac:(lia) ltac:(lia)) as HL.
    assert (2 ^ Zdigits2 X <= 2 ^ (Zdigits2 X' - 1)) by (apply Z.pow_le_mono_r; lia).
    lia.
Qed.

Lemma Zdigits2_shift (a j : Z) : 0 < a -> 0 <= j -> Zdigits2 (a * 2 ^ j) = Zdigits2 a + j.
Proof.
  intros Ha Hj. pose proof (Zdigits2_bounds a Ha) as Hb.
  assert (0 < 2 ^ j) by (apply Z.pow_pos_nonneg; lia).
  assert (1 <= Zdigits2 a) by (destruct a; cbn; lia).
  apply Zdigits2_unique; [|lia].
  replace (Zdigits2 a + j - 1) with ((Zdigits2 a - 1) + j) by lia.
  rewrite !Z.pow_add_r by lia. nia.
Qed.

Lemma r53_exact (a j : Z) : 0 < a < 2 ^ 53 -> 0 <= j -> r53 (a * 2 ^ j) = a * 2 ^ j.
Proof.
  intros Ha Hj. unfold r53. cbv zeta. rewrite Zdigits2_shift by lia.
  destruct (Z.leb_spec (Zdigits2 a + j - 53) 0) as [|Hq]; [reflexivity|].
  set (q := Zdigits2 a + j - 53) in *.
  assert (Zdigits2 a <= 53).
  { destruct (Z_le_gt_dec (Zdigits2 a) 53); [assumption|].
    pose proof (Zdigits2_bounds a ltac:(lia)).
    assert (2 ^ 53 <= 2 ^ (Zdigits2 a - 1)) by (apply Z.pow_le_mono_r; lia). lia. }
  replace (a * 2 ^ j) with ((a * 2 ^ (j - q)) * 2 ^ q).
  - now rewrite rne_shift_exact by lia.
  - rewrite <- Z.mul_assoc, <- Z.pow_add_r by lia. do 2 f_equal. lia.
Qed.

Lemma floor_scaled (m : positive) (e es V : Z) :
  es <= e -> es <= 0 -> V = Z.pos m * 2 ^ (e - es) ->
  F64.floor (S754_finite false m e) = Some (V / 2 ^ (- es)).
Proof.
  intros He Hes ->. cbn [F64.floor cond_Zopp]. f_equal.
  assert (0 < 2 ^ (- es)) by (apply Z.pow_pos_nonneg; lia).
  assert (0 < 2 ^ (e - es)) by (apply Z.pow_pos_nonneg; lia).
  destruct e as [|p|p].
  - rewrite Z.sub_0_l, Z.div_mul by lia. cbn. lia.
  - replace (Z.pos p - es) with (Z.pos p + - es) by lia.
    rewrite Z.pow_add_r, Z.mul_assoc, Z.div_mul by lia. reflexivity.
  - replace (- es) with ((Z.neg p - es) + Z.pos p) by lia.
    assert (0 < 2 ^ Z.pos p) by (apply Z.pow_pos_nonneg; lia).
    rewrite Z.pow_add_r by lia.
    rewrite (Z.mul_comm (Z.pos m)), Z.div_mul_cancel_l by lia. reflexivity.
Qed.

Lemma digits_product (i ms : Z) :
  0 < i -> 2 ^ 52 <= ms < 2 ^ 53 ->
  Zdigits2 i + 52 <= Zdigits2 (i * ms) <= Zdigits2 i + 53.
Proof.
  intros Hi Hms. pose proof (Zdigits2_bounds i Hi) as Hb.
  assert (1 <= Zdigits2 i) by (destruct i; cbn; lia).
  pose proof (Zdigits2_bounds (i * ms) ltac:(nia)) as Hp.
  assert (0 < 2 ^ (Zdigits2 i - 1)) by (apply Z.pow_pos_nonneg; lia).
  split.
  - destruct (Z_le_gt_dec (Zdigits2 i + 52) (Zdigits2 (i * ms))); [assumption|].
    assert (2 ^ Zdigits2 (i * ms) <= 2 ^ (Zdigits2 i - 1 + 52))
      by (apply Z.pow_le_mono_r; lia).
    rewrite Z.pow_add_r in * by lia. nia.
  - destruct (Z_le_gt_dec (Zdigits2 (i * ms)) (Zdigits2 i + 53)); [assumption|].
    assert (2 ^ (Zdigits2 i + 53) <= 2 ^ (Zdigits2 (i * ms) - 1))
      by (apply Z.pow_le_mono_r; lia).
    rewrite Z.pow_add_r in * by lia. nia.
Qed.

Lemma mul_of_Z (i ms es : Z) :
  0 < i < 2 ^ 53 -> 2 ^ 52 <= ms < 2 ^ 53 -> -53 <= es <= 0 ->
  exists m e,
    F64.mul (F64.of_Z i) (S754_finite false (Z.to_pos ms) es) = S754_finite false m e
    /\ es <= e
    /\ Z.pos m * 2 ^ (e - es) = r53 (i * ms).
Proof.
  intros Hi Hms Hes. rewrite of_Z_pos by assumption.
  pose proof (Zdigits2_bounds i ltac:(lia)) as Hb.
  assert (1 <= Zdigits2 i <= 53) as Hd.
  { split; [destruct i; cbn; lia|].
    destruct (Z_le_gt_dec (Zdigits2 i) 53); [assumption|].
    assert (2 ^ 53 <= 2 ^ (Zdigits2 i - 1)) by (apply Z.pow_le_mono_r; lia). lia. }
  set (di := Zdigits2 i) in *. set (j := 53 - di).
  assert (0 < 2 ^ j) as Hj by (apply Z.pow_pos_nonneg; lia).
  pose proof (digits_product i ms ltac:(lia) Hms) as Hdp. fold di in Hdp.
  set (X := i * ms) in *. set (q := Zdigits2 X - 53).
  assert (0 < X) as HX by (subst X; nia).
  unfold F64.mul, F64.prec, F64.emax, SFmul. cbn [xorb].
  rewrite Pos2Z.inj_mul, !Z2Pos.id by nia.
  replace (i * 2 ^ j * ms) with (X * 2 ^ j) by (subst X; ring).
  assert (Zdigits2 (X * 2 ^ j) = Zdigits2 X + j) as HdP by (apply Zdigits2_shift; lia).
  rewrite binary_round_aux_shift; rewrite ?HdP; try lia; try nia.
  replace (Zdigits2 X + j - 53) with (q + j) by (subst q; lia).
  replace (di - 53 + es + (q + j)) with (es + q) by (subst j; lia).
  assert (0 <= q) as Hq by (subst q; lia).
  assert (rne_shift (X * 2 ^ j) (q + j) = rne_shift X q) as ->.
  { destruct (Z.eq_dec q 0) as [->|Hq0].
    - rewrite Z.add_0_l, rne_shift_exact, rne_shift_0 by lia. reflexivity.
    - apply rne_shift_scale; lia. }
  pose proof (rne_shift_range X q HX Hq ltac:(subst q; lia)) as Hr.
  assert (0 < 2 ^ q) by (apply Z.pow_pos_nonneg; lia).
  rewrite (r53_eq X) by (fold q; lia). fold q.
  destruct (Z.eqb_spec (rne_shift X q) (2 ^ 53)) as [E|E].
  - eexists _, _. split; [reflexivity|]. split; [lia|].
    rewrite E. replace (es + q + 1 - es) with (1 + q) by lia.
    rewrite Z.pow_add_r, Z2Pos.id by lia. cbn. lia.
  - eexists _, _. split; [reflexivity|]. split; [lia|].
    replace (es + q - es) with q by lia.
    rewrite Z2Pos.id by lia. reflexivity.
Qed.

Lemma floor_mul_of_Z (i ms es : Z) :
  0 < i < 2 ^ 53 -> 2 ^ 52 <= ms < 2 ^ 53 -> -53 <= es <= 0 ->
  F64.floor (F64.add (F64.mul (F64.of_Z i) (S754_finite false (Z.to_pos ms) es)) F64.zero)
  = Some (r53 (i * ms) / 2 ^ (- es)).
Proof.
  intros Hi Hms Hes.
  destruct (mul_of_Z i ms es Hi Hms Hes) as (m & e & -> & He & Hv).
  change (F64.add (S754_finite false m e) F64.zero) with (S754_finite false m e).
  apply floor_scaled; [assumption | lia | now symmetry].
Qed.

Lemma new_location_spec (nb k : Z) :
  0 < nb -> 0 <= k < nb ->
  match new_location nb k with
  | loc_Exact => k = 0
  | loc_Inexact Lt => 0 < k /\ 2 * k < nb
  | loc_Inexact Eq => 2 * k = nb
  | loc_Inexact Gt => nb < 2 * k
  end.
Proof.
  intros Hnb Hk. unfold new_location, new_location_even, new_location_odd.
  destruct (Z.even nb) eqn:Ev; destruct (Z.eqb_spec k 0) as [E|E]; try assumption.
  - destruct (Z.compare_spec (2 * k) nb); lia.
  - assert (nb <> 2 * k).
    { intros ->. rewrite Z.even_mul in Ev. discriminate. }
    destruct (Z.compare_spec (2 * k + 1) nb); lia.
Qed.

Lemma loc_of_record_of_loc (m : Z) (l : location) :
  loc_of_shr_record (shr_record_of_loc m l) = l.
Proof. now destruct l as [|[]]. Qed.

Lemma shr_m_record_of_loc (m : Z) (l : location) : shr_m (shr_record_of_loc m l) = m.
Proof. now destruct l as [|[]]. Qed.

Lemma normalize_53_value (m e : Z) :
  2 ^ 52 <= m <= 2 ^ 53 -> -1074 <= e -> e + 1 <= 971 ->
  exists ms es,
    (let '(mrs, e') := shr_fexp 53 1024 m e loc_Exact in
     match shr_m mrs with
     | Z0 => S754_zero false
     | Z.pos p => if e' <=? 1024 - 53 then S754_finite false p e' else S754_infinity false
     | Z.neg _ => S754_nan
     end) = S754_finite false (Z.to_pos ms) es
    /\ 2 ^ 52 <= ms < 2 ^ 53 /\ e <= es <= e + 1 /\ ms * 2 ^ (es - e) = m.
Proof.
  intros Hm Hlo Hhi. rewrite normalize_53 by assumption.
  destruct (Z.eqb_spec m (2 ^ 53)) as [->|Hne].
  - exists (2 ^ 52), (e + 1). repeat split; try lia.
    replace (e + 1 - e) with 1 by lia. reflexivity.
  - exists m, e. repeat split; try lia.
    replace (e - e) with 0 by lia. cbn. lia.
Qed.

Lemma div_round (q r mb e : Z) :
  0 < mb -> 0 <= r < mb -> 2 ^ 52 <= q < 2 ^ 54 -> -1074 <= e -> e + 2 <= 971 ->
  exists ms es u,
    binary_round_aux 53 1024 false q e (new_location mb r)
    = S754_finite false (Z.to_pos ms) es
    /\ 2 ^ 52 <= ms < 2 ^ 53 /\ e <= es <= e + 2
    /\ 1 <= u <= 2
    /\ 2 ^ 52 * u <= ms * 2 ^ (es - e)
    /\ 2 * (ms * 2 ^ (es - e)) * mb <= 2 * (mb * q + r) + u * mb.
Proof.
  intros Hmb Hr Hq Hlo Hhi.
  pose proof (new_location_spec mb r Hmb Hr) as Hloc.
  unfold binary_round_aux.
  destruct (Z_lt_ge_dec q (2 ^ 53)) as [Hq53|Hq54].
  - (* 53 digits: the quotient is rounded as it is *)
    assert (shr_fexp 53 1024 q e (new_location mb r)
            = (shr_record_of_loc q (new_location mb r), e)) as ->.
    { unfold shr_fexp, fexp, emin. rewrite (Zdigits2_unique q 53) by lia.
      rewrite Z.max_l by lia. replace (53 + e - 53 - e) with 0 by lia. reflexivity. }
    rewrite loc_of_record_of_loc, shr_m_record_of_loc.
    set (m := round_nearest_even q (new_location mb r)).
    assert (q <= m <= q + 1 /\ 2 * m * mb <= 2 * (mb * q + r) + mb) as (Hm & Hb).
    { subst m. destruct (new_location mb r) as [|[]]; cbn [round_nearest_even];
        try destruct (Z.even q); nia. }
    destruct (normalize_53_value m e ltac:(lia) Hlo ltac:(lia))
      as (ms & es & -> & Hms & Hes & Hv).
    exists ms, es, 1. rewrite Hv. repeat split; try lia.
  - (* 54 digits: one more bit is shifted out *)
    assert (shr_fexp 53 1024 q e (new_location mb r)
            = ({| shr_m := q / 2; shr_r := Z.odd q;
                  shr_s := shr_r (shr_record_of_loc q (new_location mb r))
                           || shr_s (shr_record_of_loc q (new_location mb r)) |},
               e + 1)) as ->.
    { unfold shr_fexp, fexp, emin. rewrite (Zdigits2_unique q 54) by lia.
      rewrite Z.max_l by lia. replace (54 + e - 53 - e) with 1 by lia.
      cbn [shr SpecFloat.iter_pos].
      destruct (shr_record_of_loc q (new_location mb r)) as [m0 r0 s0] eqn:Er.
      assert (m0 = q) as -> by (destruct (new_location mb r) as [|[]]; now inversion Er).
      now rewrite shr_1_spec by lia. }
    cbn [shr_m]. rewrite round_of_record.
    set (m := if Z.odd q && (_ || Z.odd (q / 2)) then q / 2 + 1 else q / 2).
    pose proof (Z.div_mod q 2 ltac:(lia)) as Hdm. rewrite (Zmod_odd q) in Hdm.
    assert (q / 2 <= m <= q / 2 + 1 /\ 2 * m <= q + 1) as (Hm & Hb).
    { subst m. revert Hdm. destruct (Z.odd q); cbn [andb]; cbv iota; intros Hdm;
        [destruct (_ || _)|]; lia. }
    assert (2 ^ 52 <= q / 2 < 2 ^ 53) as Hq2.
    { split; [apply Z.div_le_lower_bound | apply Z.div_lt_upper_bound]; lia. }
    destruct (normalize_53_value m (e + 1) ltac:(lia) ltac:(lia) ltac:(lia))
      as (ms & es & -> & Hms & Hes & Hv).
    exists ms, es, 2.
    assert (ms * 2 ^ (es - e) = 2 * m) as ->.
    { replace (es - e) with (1 + (es - (e + 1))) by lia.
      rewrite Z.pow_add_r by lia. change (2 ^ 1) with 2. lia. }
    repeat split; try lia. nia.
Qed.

Lemma digits_below_53 (a : Z) : 0 < a < 2 ^ 53 -> 1 <= Zdigits2 a <= 53.
Proof.
  intros Ha. pose proof (Zdigits2_bounds a ltac:(lia)).
  split; [destruct a; cbn; lia|].
  destruct (Z_le_gt_dec (Zdigits2 a) 53); [assumption|].
  assert (2 ^ 53 <= 2 ^ (Zdigits2 a - 1)) by (apply Z.pow_le_mono_r; lia). lia.
Qed.

Lemma canonical_mantissa_range (a : Z) :
  0 < a < 2 ^ 53 -> 2 ^ 52 <= a * 2 ^ (53 - Zdigits2 a) < 2 ^ 53.
Proof.
  intros Ha. pose proof (digits_below_53 a Ha) as Hd.
  pose proof (Zdigits2_bounds a ltac:(lia)) as Hb.
  assert (0 < 2 ^ (53 - Zdigits2 a)) by (apply Z.pow_pos_nonneg; lia).
  replace (2 ^ 52) with (2 ^ (Zdigits2 a - 1) * 2 ^ (53 - Zdigits2 a))
    by (rewrite <- Z.pow_add_r by lia; f_equal; lia).
  replace (2 ^ 53) with (2 ^ Zdigits2 a * 2 ^ (53 - Zdigits2 a))
    by (rewrite <- Z.pow_add_r by lia; f_equal; lia).
  nia.
Qed.

Lemma div_of_Z (a b : Z) :
  0 < b <= a -> a < 2 ^ 53 ->
  exists ms es,
    F64.div (F64.of_Z a) (F64.of_Z b) = S754_finite false (Z.to_pos ms) es
    /\ 2 ^ 52 <= ms < 2 ^ 53
    /\ -53 <= es
    /\ (2 <= b -> es <= 0 /\ (b - 1) * ms <= a * 2 ^ (- es)).
Proof.
  intros Hb Ha. rewrite !of_Z_pos by lia.
  pose proof (digits_below_53 a ltac:(lia)) as Hda.
  pose proof (digits_below_53 b ltac:(lia)) as Hdb.
  pose proof (Zdigits2_mono b a ltac:(lia)) as Hdab.
  pose proof (canonical_mantissa_range a ltac:(lia)) as Hma.
  pose proof (canonical_mantissa_range b ltac:(lia)) as Hmb.
  set (da := Zdigits2 a) in *. set (db := Zdigits2 b) in *.
  set (A := 2 ^ (53 - da)) in *. set (B := 2 ^ (53 - db)) in *.
  set (ma := a * A) in *. set (mb := b * B) in *.
  unfold F64.div, F64.prec, F64.emax, SFdiv. cbn [xorb].
  unfold SFdiv_core_binary. rewrite !Z2Pos.id by lia.
  rewrite (Zdigits2_unique ma 53), (Zdigits2_unique mb 53) by lia.
  unfold fexp, emin.
  replace (53 + (da - 53) - (53 + (db - 53))) with (da - db) by lia.
  rewrite Z.max_l by lia.
  replace (da - 53 - (db - 53)) with (da - db) by lia.
  rewrite Z.min_l by lia.
  replace (da - db - (da - db - 53)) with 53 by lia.
  rewrite Z.shiftl_mul_pow2 by lia.
  pose proof (Z_div_mod (ma * 2 ^ 53) mb ltac:(lia)) as Hdm.
  destruct (Z.div_eucl (ma * 2 ^ 53) mb) as [q r]. destruct Hdm as [Hdm Hr].
  assert (2 ^ 52 <= q < 2 ^ 54) as Hq by nia.
  destruct (div_round q r mb (da - db - 53) ltac:(lia) Hr Hq ltac:(lia) ltac:(lia))
    as (ms & es & u & -> & Hms & Hes & Hu & Hlow & Hup).
  exists ms, es. split; [reflexivity|]. split; [assumption|]. split; [lia|].
  intros Hb2.
  assert (2 <= db) as Hdb2.
  { subst db. change 2 with (Zdigits2 2). apply Zdigits2_mono. lia. }
  split; [lia|].
  set (M := ms * 2 ^ (es - (da - db - 53))) in *.
  assert (0 < A) as HA by (subst A; apply Z.pow_pos_nonneg; lia).
  assert (0 < B) as HB by (subst B; apply Z.pow_pos_nonneg; lia).
  assert (b * u <= 2 * M) as H1.
  { assert (b * u <= 2 ^ 53 * u) by (apply Z.mul_le_mono_nonneg_r; lia). lia. }
  assert (2 * (b - 1) * M * mb <= 2 * b * (ma * 2 ^ 53)) as H2.
  { assert (b * (2 * M * mb) <= b * (2 * (ma * 2 ^ 53) + u * mb)) as H2'
      by (apply Z.mul_le_mono_nonneg_l; lia).
    assert (b * u * mb <= 2 * M * mb) as H1m by (apply Z.mul_le_mono_nonneg_r; lia).
    lia. }
  assert ((b - 1) * M * B <= a * (A * 2 ^ 53)) as H3.
  { apply (Z.mul_le_mono_pos_l _ _ (2 * b)); [lia|]. subst ma mb. lia. }
  assert (A * 2 ^ 53 = B * 2 ^ (- (da - db - 53))) as H4.
  { subst A B. rewrite <- !Z.pow_add_r by lia. f_equal. lia. }
  assert ((b - 1) * M <= a * 2 ^ (- (da - db - 53))) as H5.
  { rewrite H4 in H3. apply (Z.mul_le_mono_pos_r _ _ B); [lia|]. lia. }
  assert (2 ^ (- (da - db - 53)) = 2 ^ (- es) * 2 ^ (es - (da - db - 53))) as H6.
  { rewrite <- Z.pow_add_r by lia. f_equal. lia. }
  assert (0 < 2 ^ (es - (da - db - 53))) as H7 by (apply Z.pow_pos_nonneg; lia).
  rewrite H6 in H5. subst M.
  apply (Z.mul_le_mono_pos_r _ _ (2 ^ (es - (da - db - 53)))); [exact H7|].
  rewrite <- !Z.mul_assoc in *. exact H5.
Qed.

Lemma set_last_snoc {A} (v x : A) (l : list A) : Np.set_last v (l ++ [x]) = l ++ [v].
Proof.
  induction l as [|y l IH]; [reflexivity|].
  cbn [app Np.set_last]. rewrite IH.
  destruct (l ++ [x]) eqn:E; [|reflexivity].
  now destruct l.
Qed.

Lemma floor_of_Z (a : Z) : 0 < a < 2 ^ 53 -> F64.floor_to_int64 (F64.of_Z a) = a.
Proof.
  intros Ha. rewrite of_Z_pos by assumption.
  pose proof (digits_below_53 a Ha) as Hd.
  pose proof (canonical_mantissa_range a Ha) as Hm.
  assert (0 < 2 ^ (53 - Zdigits2 a)) by (apply Z.pow_pos_nonneg; lia).
  unfold F64.floor_to_int64.
  rewrite (floor_scaled _ (Zdigits2 a - 53) (Zdigits2 a - 53) (a * 2 ^ (53 - Zdigits2 a)));
    try lia.
  - replace (- (Zdigits2 a - 53)) with (53 - Zdigits2 a) by lia.
    rewrite Z.div_mul by lia.
    unfold F64.int64_min.
    rewrite (proj2 (Z.leb_le _ _)), (proj2 (Z.ltb_lt _ _)) by lia. reflexivity.
  - rewrite Z2Pos.id by lia. replace (Zdigits2 a - 53 - (Zdigits2 a - 53)) with 0 by lia.
    cbn. lia.
Qed.

Section Interpolation.

Variables ms es a b : Z.
Hypothesis Hms : 2 ^ 52 <= ms < 2 ^ 53.
Hypothesis Hes : -53 <= es <= 0.
Hypothesis Ha : 0 < a < 2 ^ 53.
Hypothesis Hb : 2 <= b <= a.
Hypothesis Hstep : (b - 1) * ms <= a * 2 ^ (- es).

Let step := S754_finite false (Z.to_pos ms) es.

(** The sample of rank [i]: [floor(i * step + 0.0)]. *)
Let g (i : Z) : Z :=
  F64.floor_to_int64 (F64.add (F64.mul (F64.of_Z i) step) F64.zero).

Let G (i : Z) : Z := r53 (i * ms) / 2 ^ (- es).

Lemma G_mono (i j : Z) : 0 < i <= j -> G i <= G j.
Proof.
  intros H. unfold G. apply Z.div_le_mono.
  - apply Z.pow_pos_nonneg; lia.
  - apply r53_mono. nia.
Qed.

Lemma G_top (i : Z) : 0 < i <= b - 1 -> 0 <= G i <= a.
Proof.
  intros H. assert (0 < 2 ^ (- es)) as Hp by (apply Z.pow_pos_nonneg; lia).
  unfold G. split.
  - apply Z.div_pos; [|lia].
    assert (0 < 1 <= i * ms) as H1 by (split; [lia|nia]).
    pose proof (r53_mono 1 (i * ms) H1) as H2.
    change (r53 1) with 1 in H2. lia.
  - assert (r53 (i * ms) <= a * 2 ^ (- es)) as Hr.
    { rewrite <- (r53_exact a (- es)) by lia. apply r53_mono. nia. }
    apply Z.div_le_upper_bound; lia.
Qed.

Lemma g_zero : g 0 = 0.
Proof. reflexivity. Qed.

Lemma g_pos (i : Z) : 0 < i <= b - 1 -> g i = G i.
Proof.
  intros H. unfold g, F64.floor_to_int64, step.
  rewrite floor_mul_of_Z by lia. fold (G i).
  pose proof (G_top i H). unfold F64.int64_min.
  rewrite (proj2 (Z.leb_le _ _)), (proj2 (Z.ltb_lt _ _)) by lia. reflexivity.
Qed.

Lemma g_mono (i j : Z) : 0 <= i <= j -> j <= b - 1 -> g i <= g j.
Proof.
  intros H Hj. destruct (Z.eq_dec i 0) as [->|Hi].
  - rewrite g_zero. destruct (Z.eq_dec j 0) as [->|Hj0]; [now rewrite g_zero|].
    rewrite g_pos by lia. apply G_top. lia.
  - rewrite !g_pos by lia. apply G_mono. lia.
Qed.

Lemma g_range (i : Z) : 0 <= i <= b - 1 -> 0 <= g i <= a.
Proof.
  intros H. destruct (Z.eq_dec i 0) as [->|Hi].
  - rewrite g_zero. lia.
  - rewrite g_pos by lia. apply G_top. lia.
Qed.

Lemma samples_sorted (k : nat) (s : nat) :
  Z.of_nat (s + k) <= b ->
  StronglySorted Z.le (map (fun i => g (Z.of_nat i)) (seq s k) ++ [a])
  /\ Forall (fun x => 0 <= x <= a) (map (fun i => g (Z.of_nat i)) (seq s k) ++ [a]).
Proof.
  revert s. induction k as [|k IH]; intros s Hs; cbn [seq map app].
  - split; repeat constructor; lia.
  - destruct (IH (S s) ltac:(lia)) as [IHs IHf]. split.
    + constructor; [assumption|].
      apply List.Forall_app. split.
      * apply List.Forall_forall. intros x Hx. apply in_map_iff in Hx as (j & <- & Hj).
        apply in_seq in Hj. apply g_mono; lia.
      * constructor; [|constructor]. apply g_range. lia.
    + constructor; [|assumption]. apply g_range. lia.
Qed.

End Interpolation.

Lemma sample_unfold (T n : Z) :
  2 <= n <= T -> T <= 2 ^ 53 ->
  Np.sample T n
  = Some (map (interpolate T n) (seq 0 (Z.to_nat (n - 1))) ++ [T - 1]).
Proof.
  intros Hn HT.
  assert (0 < T - 1 < 2 ^ 53) as Ha by lia.
  assert (0 < n - 1 <= T - 1) as Hb by lia.
  destruct (div_of_Z (T - 1) (n - 1) Hb (proj2 Ha)) as (ms & es & Hdiv & Hms & Hes & _).
  unfold Np.sample, Np.linspace_int.
  rewrite (proj2 (Z.ltb_ge n 0)) by lia.
  cbv zeta.
  rewrite (proj2 (Z.ltb_lt 0 (n - 1))), (proj2 (Z.ltb_lt 1 n)) by lia.
  assert (F64.sub (F64.of_Z (T - 1)) (F64.of_Z 0) = F64.of_Z (T - 1)) as ->.
  { rewrite (of_Z_pos (T - 1)) by lia. reflexivity. }
  rewrite Hdiv.
  change (F64.eqb (S754_finite false (Z.to_pos ms) es) F64.zero) with false.
  cbv iota. unfold Np.arange.
  replace (Z.to_nat n) with (S (Z.to_nat (n - 1))) by lia.
  rewrite seq_S, !map_app. cbn [map]. rewrite set_last_snoc, map_app. cbn [map].
  rewrite floor_of_Z by lia. rewrite !map_map. f_equal. f_equal.
  apply map_ext. intros i. unfold interpolate. rewrite Hdiv. reflexivity.
Qed.

Lemma sample_sorted_range (T n : Z) :
  2 <= n <= T -> T <= 2 ^ 53 ->
  StronglySorted Z.le (map (interpolate T n) (seq 0 (Z.to_nat (n - 1))) ++ [T - 1])
  /\ Forall (fun x => 0 <= x <= T - 1)
            (map (interpolate T n) (seq 0 (Z.to_nat (n - 1))) ++ [T - 1]).
Proof.
  intros Hn HT.
  assert (0 < T - 1 < 2 ^ 53) as Ha by lia.
  assert (0 < n - 1 <= T - 1) as Hb by lia.
  destruct (div_of_Z (T - 1) (n - 1) Hb (proj2 Ha)) as (ms & es & Hdiv & Hms & Hes & Hst).
  unfold interpolate. rewrite Hdiv.
  destruct (Z.eq_dec n 2) as [->|Hn2].
  - change (Z.to_nat (2 - 1)) with 1%nat. cbn [seq map app].
    change (F64.floor_to_int64 _) with 0.
    split; repeat constructor; lia.
  - destruct (Hst ltac:(lia)) as [Hes0 Hstep].
    apply (samples_sorted ms es (T - 1) (n - 1)); try lia.
Qed.

End Binary64.

(** ** The sampler *)

(** C1, for recordings of at most [2^53] frames.  With
    [2 <= frame_count <= total_frames], the sampling step returns a list of
    exactly [frame_count] indices; the first is [0], the last is
    [total_frames - 1], the list is non-decreasing and every index is a
    valid frame number; the index of rank [i] before the last is the linear
    interpolation [i * ((total_frames - 1) / (frame_count - 1))], computed in
    binary64 and truncated.  [Np.sample] being a function, the indices depend
    on [total_frames] and [frame_count] only. *)
Theorem sample_is_even_and_spans_the_stream (total_frames frame_count : Z) :
  2 <= frame_count <= total_frames -> total_frames <= 2 ^ 53 ->
  exists indices,
    Np.sample total_frames frame_count = Some indices
    /\ Z.of_nat (length indices) = frame_count
    /\ indices !! 0%nat = Some 0
    /\ last indices = Some (total_frames - 1)
    /\ StronglySorted Z.le indices
    /\ Forall (fun x => 0 <= x <= total_frames - 1) indices
    /\ forall i, (S i < length indices)%nat ->
         indices !! i = Some (interpolate total_frames frame_count i).
Proof.
  intros Hn HT. eexists. split; [apply sample_unfold; assumption|].
  pose proof (sample_sorted_range total_frames frame_count Hn HT) as [Hs Hr].
  set (k := Z.to_nat (frame_count - 1)) in *.
  assert (k <> 0%nat) as Hk by lia.
  assert (length (map (interpolate total_frames frame_count) (seq 0 k)) = k) as Hl
    by now rewrite length_map, length_seq.
  split; [|split; [|split; [|split; [|split]]]]; try assumption.
  - rewrite length_app, Hl. cbn. lia.
  - rewrite lookup_app_l by lia. destruct k as [|k]; [congruence|]. cbn.
    f_equal. unfold interpolate. cbn [Z.of_nat].
    assert (0 < frame_count - 1 <= total_frames - 1) as Hb by lia.
    destruct (div_of_Z (total_frames - 1) (frame_count - 1) Hb ltac:(lia))
      as (ms & es & -> & _).
    reflexivity.
  - apply last_snoc.
  - intros i Hi. rewrite length_app, Hl in Hi. cbn in Hi.
    rewrite lookup_app_l by lia.
    change (map ?f ?l) with (f <$> l).
    rewrite list_lookup_fmap, lookup_seq_lt by lia. reflexivity.
Qed.

Lemma sample_is_even_and_spans_the_stream_witness :
  exists indices,
    Np.sample 50 25 = Some indices
    /\ Z.of_nat (length indices) = 25
    /\ indices !! 0%nat = Some 0
    /\ last indices = Some (50 - 1)
    /\ StronglySorted Z.le indices
    /\ Forall (fun x => 0 <= x <= 50 - 1) indices
    /\ forall i, (S i < length indices)%nat ->
         indices !! i = Some (interpolate 50 25 i).
Proof.
  apply (sample_is_even_and_spans_the_stream 50 25).
  - lia.
  - vm_compute. discriminate.
Defined.

(** The claim of C1 fails as stated for a stream of [2^53 + 2] frames: the
    last frame number, [2^53 + 1], is not a binary64 number, and the last
    index returned is [2^53]. *)
Lemma sample_misses_the_last_frame :
  2 <= 2 <= 2 ^ 53 + 2
  /\ Np.sample (2 ^ 53 + 2) 2 = Some [0; 2 ^ 53]
  /\ 2 ^ 53 <> (2 ^ 53 + 2) - 1.
Proof. vm_compute. repeat split; discriminate. Qed.

(* ===================================================================== *)
(** * Further properties of the code *)
(* ===================================================================== *)

(** ** The sort of the trial keys, for arbitrary keys *)

Section StableSort.

Context {A : Type}.

Lemma insert_keyed_perm (x : Z * A) (l : list (Z * A)) :
  Permutation (PyStr.insert_keyed x l) (x :: l).
Proof.
  induction l as [|y l IH]; cbn [PyStr.insert_keyed]; [reflexivity|].
  destruct (x.1 <=? y.1); [reflexivity|].
  rewrite IH. apply perm_swap.
Qed.

Lemma insert_keyed_ordered (x : Z * A) (l : list (Z * A)) :
  StronglySorted (fun p q => p.1 <= q.1) l ->
  StronglySorted (fun p q => p.1 <= q.1) (PyStr.insert_keyed x l).
Proof.
  induction 1 as [|y l Hs IH Hy]; cbn [PyStr.insert_keyed].
  - repeat constructor.
  - destruct (Z.leb_spec x.1 y.1) as [Hle|Hgt].
    + constructor; [now constructor|].
      constructor; [exact Hle|].
      eapply Forall_impl; [exact Hy|]. cbn. intros; lia.
    + constructor; [exact IH|].
      eapply Permutation_Forall; [symmetry; apply insert_keyed_perm|].
      constructor; [lia | exact Hy].
Qed.

(** The elements of one key keep their places: [x] goes before the first
    element whose key is not smaller. *)
Lemma insert_keyed_stable (n : Z) (x : Z * A) (l : list (Z * A)) :
  List.filter (fun p => p.1 =? n) (PyStr.insert_keyed x l)
  = List.filter (fun p => p.1 =? n) (x :: l).
Proof.
  induction l as [|y l IH]; cbn [PyStr.insert_keyed]; [reflexivity|].
  destruct (Z.leb_spec x.1 y.1) as [Hle|Hgt]; [reflexivity|].
  cbn [List.filter] in *. rewrite IH.
  destruct (Z.eqb_spec y.1 n) as [Hy|Hy]; [|reflexivity].
  destruct (Z.eqb_spec x.1 n) as [Hx|Hx]; [lia | reflexivity].
Qed.

Lemma sort_keyed_perm (l : list (Z * A)) : Permutation (PyStr.sort_keyed l) l.
Proof.
  unfold PyStr.sort_keyed. induction l as [|x l IH]; cbn [foldr]; [reflexivity|].
  rewrite insert_keyed_perm. now constructor.
Qed.

Lemma sort_keyed_ordered (l : list (Z * A)) :
  StronglySorted (fun p q => p.1 <= q.1) (PyStr.sort_keyed l).
Proof.
  unfold PyStr.sort_keyed. induction l as [|x l IH]; cbn [foldr]; [constructor|].
  now apply insert_keyed_ordered.
Qed.

Lemma sort_keyed_stable (n : Z) (l : list (Z * A)) :
  List.filter (fun p => p.1 =? n) (PyStr.sort_keyed l)
  = List.filter (fun p => p.1 =? n) l.
Proof.
  unfold PyStr.sort_keyed. induction l as [|x l IH]; cbn [foldr]; [reflexivity|].
  rewrite insert_keyed_stable. cbn [List.filter]. now rewrite IH.
Qed.

Context (key : A -> option Z).

Lemma decorate_some (l : list A) (d : list (Z * A)) :
  PyStr.decorate key l = Some d ->
  map snd d = l /\ Forall (fun p => key p.2 = Some p.1) d.
Proof.
  revert d. induction l as [|x l IH]; intros d; cbn [PyStr.decorate].
  - intros [= <-]. split; constructor.
  - destruct (key x) as [k|] eqn:Ek; [|discriminate].
    destruct (PyStr.decorate key l) as [r|]; [|discriminate].
    intros [= <-]. destruct (IH r eq_refl) as [Hm Hf].
    split; [cbn; now rewrite Hm | now constructor].
Qed.

Lemma decorate_is_some (l : list A) :
  is_Some (PyStr.decorate key l) <-> Forall (fun x => is_Some (key x)) l.
Proof.
  induction l as [|x l IH]; cbn [PyStr.decorate].
  - split; [constructor | eauto].
  - split.
    + destruct (key x) as [k|] eqn:Ek; [|intros [? [=]]].
      destruct (PyStr.decorate key l) as [r|]; [|intros [? [=]]].
      intros _. constructor; [rewrite Ek; eauto | apply IH; eauto].
    + intros H. inversion H as [|? ? [k Hk] Hl]; subst. rewrite Hk.
      apply IH in Hl as [r ->]. eauto.
Qed.

Lemma filter_map_snd (f : A -> bool) (d : list (Z * A)) :
  List.filter f (map snd d) = map snd (List.filter (fun p => f p.2) d).
Proof.
  induction d as [|p d IH]; [reflexivity|].
  cbn [map List.filter]. rewrite IH. now destruct (f p.2).
Qed.

Lemma map_snd_ordered (s : list (Z * A)) :
  Forall (fun p => key p.2 = Some p.1) s ->
  StronglySorted (fun p q => p.1 <= q.1) s ->
  StronglySorted (fun a b => exists x y, key a = Some x /\ key b = Some y /\ x <= y)
                 (map snd s).
Proof.
  intros Hk Hs. induction Hs as [|p s Hs IH Hp]; cbn [map]; [constructor|].
  inversion Hk as [|? ? Hkp Hk']; subst.
  constructor; [now apply IH|].
  apply List.Forall_forall. intros b Hb. apply List.in_map_iff in Hb as (q & <- & Hq).
  exists p.1, q.1. repeat split; [exact Hkp| |].
  - eapply List.Forall_forall in Hk'; [exact Hk' | exact Hq].
  - eapply List.Forall_forall in Hp; [exact Hp | exact Hq].
Qed.

End StableSort.


(** ** Frame dimensions *)

Lemma round_up_16_spec (x : Z) :
  (16 | round_up_16 x) /\ x <= round_up_16 x < x + 16
  /\ ((16 | x) -> round_up_16 x = x).
Proof.
  unfold round_up_16.
  pose proof (Z.div_mod (x + 15) 16 ltac:(lia)) as Hdm.
  pose proof (Z.mod_pos_bound (x + 15) 16 ltac:(lia)) as Hm.
  split; [exists ((x + 15) / 16); lia|]. split; [lia|].
  intros [k ->]. replace (k * 16 + 15) with (15 + k * 16) by lia.
  rewrite Z.div_add by lia. change (15 / 16) with 0. lia.
Qed.



(** ** The sampler outside the range of C1 *)

(** One sample is frame 0; no sample is the empty list; a negative count
    is the [ValueError] of [np.linspace]. *)
Theorem sample_of_small_counts (total_frames : Z) :
  (1 <= total_frames <= 2 ^ 53 -> Np.sample total_frames 1 = Some [0])
  /\ Np.sample total_frames 0 = Some []
  /\ forall frame_count, frame_count < 0 -> Np.sample total_frames frame_count = None.
Proof.
  split; [|split].
  - intros HT. unfold Np.sample, Np.linspace_int. cbn.
    destruct (Z.eq_dec total_frames 1) as [->|Hne]; [reflexivity|].
    rewrite (of_Z_pos (total_frames - 1)) by lia. reflexivity.
  - reflexivity.
  - intros n Hn. unfold Np.sample, Np.linspace_int.
    now rewrite (proj2 (Z.ltb_lt n 0) Hn).
Qed.

(** ** The frames of a clip *)

Lemma item_in_range (a : ndarray) (i : Z) :
  0 <= i < Z.of_nat (length (nd_items a)) ->
  item a i = nd_items a !! Z.to_nat i /\ is_Some (item a i).
Proof.
  intros Hi. unfold item.
  rewrite (proj2 (Z.leb_le 0 i)), (proj2 (Z.ltb_lt i _)) by lia. cbn.
  split; [reflexivity|]. apply lookup_lt_is_Some. lia.
Qed.

Lemma mapM_item_in_range (a : ndarray) (indices : list Z) :
  Forall (fun i => 0 <= i < Z.of_nat (length (nd_items a))) indices ->
  exists its, mapM (item a) indices = Some its
              /\ length its = length indices
              /\ forall k i, indices !! k = Some i -> its !! k = nd_items a !! Z.to_nat i.
Proof.
  induction 1 as [|i indices Hi Hf (its & Hm & Hl & Hk)].
  - exists []. repeat split. intros k i. now rewrite lookup_nil.
  - destruct (item_in_range a i Hi) as [He [fr Hfr]].
    exists (fr :: its). cbn. rewrite Hfr, Hm. cbn. repeat split.
    + now rewrite Hl.
    + intros [|k] j; cbn.
      * intros [= <-]. now rewrite <- He.
      * apply Hk.
Qed.

(** A clip spans the recording: for a stream that holds as many frames as
    its shape says, at least [frame_count] of them, the selection
    [frames[indices]] never fails, has [frame_count] frames, each one a
    frame of the stream; it starts with the first frame of the stream and
    ends with the last one. *)
Theorem clip_spans_the_recording (frames : ndarray) (frame_count : Z) :
  let total_frames := nth 0 (nd_shape frames) 0 in
  Z.of_nat (length (nd_items frames)) = total_frames ->
  2 <= frame_count <= total_frames ->
  total_frames <= 2 ^ 53 ->
  exists indices selected_frames,
    Np.sample total_frames frame_count = Some indices
    /\ take frames indices = Some selected_frames
    /\ nd_shape selected_frames = frame_count :: tail (nd_shape frames)
    /\ nd_dtype selected_frames = nd_dtype frames
    /\ Z.of_nat (length (nd_items selected_frames)) = frame_count
    /\ head (nd_items selected_frames) = head (nd_items frames)
    /\ last (nd_items selected_frames) = last (nd_items frames)
    /\ Forall (fun fr => In fr (nd_items frames)) (nd_items selected_frames).
Proof.
  intros T Hlen Hn HT.
  pose proof (sample_unfold T frame_count Hn HT) as Hs.
  destruct (sample_sorted_range T frame_count Hn HT) as [_ Hr].
  set (indices := (map (interpolate T frame_count) (seq 0 (Z.to_nat (frame_count - 1)))
                   ++ [T - 1])%list) in *.
  assert (Forall (fun i => 0 <= i < Z.of_nat (length (nd_items frames))) indices) as Hin.
  { eapply Forall_impl; [exact Hr|]. cbn. intros; lia. }
  destruct (mapM_item_in_range frames indices Hin) as (its & Hm & Hl & Hk).
  assert (length indices = Z.to_nat frame_count) as Hli.
  { subst indices. rewrite length_app, length_map, length_seq. cbn. lia. }
  exists indices, {| nd_dtype := nd_dtype frames;
                     nd_shape := Z.of_nat (length indices) :: tail (nd_shape frames);
                     nd_items := its |}.
  split; [exact Hs|]. split; [unfold take; now rewrite Hm|].
  cbn [nd_shape nd_dtype nd_items].
  assert (indices !! 0%nat = Some 0) as H0.
  { subst indices. destruct (Z.to_nat (frame_count - 1)) as [|k] eqn:Ek; [lia|].
    cbn. f_equal. unfold interpolate. cbn [Z.of_nat].
    assert (0 < frame_count - 1 <= T - 1) as Hb by lia.
    destruct (div_of_Z (T - 1) (frame_count - 1) Hb ltac:(lia)) as (ms & es & -> & _).
    reflexivity. }
  assert (indices !! (length indices - 1)%nat = Some (T - 1)) as Hlast.
  { subst indices. rewrite length_app. cbn [length].
    rewrite lookup_app_r by lia.
    replace (_ - _)%nat with 0%nat by lia. reflexivity. }
  repeat split.
  - f_equal. lia.
  - lia.
  - rewrite !head_lookup. rewrite (Hk _ _ H0). reflexivity.
  - rewrite !last_lookup. rewrite Hl.
    replace (Nat.pred (length indices)) with (length indices - 1)%nat by lia.
    rewrite (Hk _ _ Hlast). f_equal. lia.
  - apply Forall_forall. intros fr Hfr.
    apply list_elem_of_lookup in Hfr as [k Hfr].
    assert (is_Some (indices !! k)) as [i Hi].
    { apply lookup_lt_is_Some. rewrite <- Hl. eapply lookup_lt_Some; eassumption. }
    rewrite (Hk _ _ Hi) in Hfr.
    apply list_elem_of_In. eapply list_elem_of_lookup_2; eassumption.
Qed.

Lemma clip_spans_the_recording_witness :
  exists indices selected_frames,
    Np.sample 3 2 = Some indices
    /\ take Demo.stream_u8 indices = Some selected_frames
    /\ nd_shape selected_frames = 2 :: tail (nd_shape Demo.stream_u8)
    /\ nd_dtype selected_frames = nd_dtype Demo.stream_u8
    /\ Z.of_nat (length (nd_items selected_frames)) = 2
    /\ head (nd_items selected_frames) = head (nd_items Demo.stream_u8)
    /\ last (nd_items selected_frames) = last (nd_items Demo.stream_u8)
    /\ Forall (fun fr => In fr (nd_items Demo.stream_u8)) (nd_items selected_frames).
Proof.
  apply (clip_spans_the_recording Demo.stream_u8 2).
  - reflexivity.
  - cbn. lia.
  - vm_compute. discriminate.
Defined.

(** ** How far the samples are from the exact interpolation *)

Section Accuracy.

Local Close Scope string_scope.

(** The quotient of a division, rounded: within half a unit of the last
    place kept, on both sides. *)
Lemma div_round_near (q r mb e : Z) :
  0 < mb -> 0 <= r < mb -> 2 ^ 52 <= q < 2 ^ 54 -> -1074 <= e -> e + 2 <= 971 ->
  exists ms es u,
    binary_round_aux 53 1024 false q e (new_location mb r)
    = S754_finite false (Z.to_pos ms) es
    /\ 2 ^ 52 <= ms < 2 ^ 53 /\ e <= es <= e + 2
    /\ 1 <= u <= 2 ^ (es - e)
    /\ 2 * (ms * 2 ^ (es - e)) * mb <= 2 * (mb * q + r) + u * mb
    /\ 2 * (mb * q + r) <= 2 * (ms * 2 ^ (es - e)) * mb + u * mb.
Proof.
  intros Hmb Hr Hq Hlo Hhi.
  pose proof (new_location_spec mb r Hmb Hr) as Hloc.
  unfold binary_round_aux.
  destruct (Z_lt_ge_dec q (2 ^ 53)) as [Hq53|Hq54].
  - (* 53 digits: the quotient is rounded as it is *)
    assert (shr_fexp 53 1024 q e (new_location mb r)
            = (shr_record_of_loc q (new_location mb r), e)) as ->.
    { unfold shr_fexp, fexp, emin. rewrite (Zdigits2_unique q 53) by lia.
      rewrite Z.max_l by lia. replace (53 + e - 53 - e) with 0 by lia. reflexivity. }
    rewrite loc_of_record_of_loc, shr_m_record_of_loc.
    set (m := round_nearest_even q (new_location mb r)).
    assert (q <= m <= q + 1
            /\ 2 * m * mb <= 2 * (mb * q + r) + mb
            /\ 2 * (mb * q + r) <= 2 * m * mb + mb) as (Hm & Hb & Hb').
    { subst m. destruct (new_location mb r) as [|[]]; cbn [round_nearest_even];
        try destruct (Z.even q); lia. }
    destruct (normalize_53_value m e ltac:(lia) Hlo ltac:(lia))
      as (ms & es & -> & Hms & Hes & Hv).
    exists ms, es, 1. rewrite Hv.
    assert (1 <= 2 ^ (es - e)) by (apply (Z.pow_le_mono_r 2 0); lia).
    repeat split; try lia.
  - (* 54 digits: one more bit is shifted out *)
    assert (shr_fexp 53 1024 q e (new_location mb r)
            = ({| shr_m := q / 2; shr_r := Z.odd q;
                  shr_s := shr_r (shr_record_of_loc q (new_location mb r))
                           || shr_s (shr_record_of_loc q (new_location mb r)) |},
               e + 1)) as ->.
    { unfold shr_fexp, fexp, emin. rewrite (Zdigits2_unique q 54) by lia.
      rewrite Z.max_l by lia. replace (54 + e - 53 - e) with 1 by lia.
      cbn [shr SpecFloat.iter_pos].
      destruct (shr_record_of_loc q (new_location mb r)) as [m0 r0 s0] eqn:Er.
      assert (m0 = q) as -> by (destruct (new_location mb r) as [|[]]; now inversion Er).
      now rewrite shr_1_spec by lia. }
    cbn [shr_m]. rewrite round_of_record.
    set (sticky := shr_r (shr_record_of_loc q (new_location mb r))
                   || shr_s (shr_record_of_loc q (new_location mb r))).
    assert (sticky = false -> r = 0) as Hsticky.
    { subst sticky. destruct (new_location mb r) as [|[]]; cbn; try discriminate.
      intros _. exact Hloc. }
    set (m := if Z.odd q && (sticky || Z.odd (q / 2)) then q / 2 + 1 else q / 2).
    pose proof (Z.div_mod q 2 ltac:(lia)) as Hdm. rewrite (Zmod_odd q) in Hdm.
    assert (q / 2 <= m <= q / 2 + 1
            /\ 2 * m <= q + 1
            /\ (q <= 2 * m \/ (q = 2 * m + 1 /\ r = 0))) as (Hm & Hb & Hb').
    { subst m. revert Hdm. destruct (Z.odd q); cbn [andb]; cbv iota; intros Hdm.
      - destruct sticky; cbn [orb].
        + lia.
        + destruct (Z.odd (q / 2)); [lia|].
          specialize (Hsticky eq_refl). lia.
      - lia. }
    assert (2 ^ 52 <= q / 2 < 2 ^ 53) as Hq2.
    { split; [apply Z.div_le_lower_bound | apply Z.div_lt_upper_bound]; lia. }
    destruct (normalize_53_value m (e + 1) ltac:(lia) ltac:(lia) ltac:(lia))
      as (ms & es & -> & Hms & Hes & Hv).
    exists ms, es, 2.
    assert (ms * 2 ^ (es - e) = 2 * m) as ->.
    { replace (es - e) with (1 + (es - (e + 1))) by lia.
      rewrite Z.pow_add_r by lia. change (2 ^ 1) with 2. lia. }
    assert (2 <= 2 ^ (es - e)) by (apply (Z.pow_le_mono_r 2 1); lia).
    assert (2 * m * mb <= (q + 1) * mb) as H1
      by (apply Z.mul_le_mono_nonneg_r; lia).
    split; [reflexivity|]. split; [lia|]. split; [lia|]. split; [lia|]. split; [lia|].
    destruct Hb' as [Hge|[Heq Hr0]].
    + assert (q * mb <= 2 * m * mb) by (apply Z.mul_le_mono_nonneg_r; lia). lia.
    + rewrite Heq, Hr0. lia.
Qed.

(** The step of the sampler, [(total_frames - 1) / (frame_count - 1)] in
    binary64: a mantissa [ms] and an exponent [es] with [ms * 2^es] within
    half a unit of the last place of the exact quotient. *)
Lemma div_of_Z_near (a b : Z) :
  2 <= b <= a -> a < 2 ^ 53 ->
  exists ms es,
    F64.div (F64.of_Z a) (F64.of_Z b) = S754_finite false (Z.to_pos ms) es
    /\ 2 ^ 52 <= ms < 2 ^ 53
    /\ -53 <= es <= 0
    /\ 2 * (ms * b) <= 2 * (a * 2 ^ (- es)) + b
    /\ 2 * (a * 2 ^ (- es)) <= 2 * (ms * b) + b.
Proof.
  intros Hb Ha. rewrite !of_Z_pos by lia.
  pose proof (digits_below_53 a ltac:(lia)) as Hda.
  pose proof (digits_below_53 b ltac:(lia)) as Hdb.
  pose proof (Zdigits2_mono b a ltac:(lia)) as Hdab.
  pose proof (canonical_mantissa_range a ltac:(lia)) as Hma.
  pose proof (canonical_mantissa_range b ltac:(lia)) as Hmb.
  assert (2 <= Zdigits2 b) as Hdb2.
  { change 2 with (Zdigits2 2). apply Zdigits2_mono. lia. }
  set (da := Zdigits2 a) in *. set (db := Zdigits2 b) in *.
  set (A := 2 ^ (53 - da)) in *. set (B := 2 ^ (53 - db)) in *.
  set (ma := a * A) in *. set (mb := b * B) in *.
  unfold F64.div, F64.prec, F64.emax, SFdiv. cbn [xorb].
  unfold SFdiv_core_binary. rewrite !Z2Pos.id by lia.
  rewrite (Zdigits2_unique ma 53), (Zdigits2_unique mb 53) by lia.
  unfold fexp, emin.
  replace (53 + (da - 53) - (53 + (db - 53))) with (da - db) by lia.
  rewrite Z.max_l by lia.
  replace (da - 53 - (db - 53)) with (da - db) by lia.
  rewrite Z.min_l by lia.
  replace (da - db - (da - db - 53)) with 53 by lia.
  rewrite Z.shiftl_mul_pow2 by lia.
  pose proof (Z_div_mod (ma * 2 ^ 53) mb ltac:(lia)) as Hdm.
  destruct (Z.div_eucl (ma * 2 ^ 53) mb) as [q r]. destruct Hdm as [Hdm Hr].
  assert (2 ^ 52 <= q < 2 ^ 54) as Hq.
  { assert (2 ^ 52 * mb <= ma * 2 ^ 53) by nia.
    assert (ma * 2 ^ 53 < 2 ^ 54 * mb) by nia.
    assert (mb * q <= ma * 2 ^ 53) by lia.
    assert (ma * 2 ^ 53 < mb * (q + 1)) by lia.
    split; [|nia]. nia. }
  destruct (div_round_near q r mb (da - db - 53) ltac:(lia) Hr Hq ltac:(lia) ltac:(lia))
    as (ms & es & u & -> & Hms & Hes & Hu & Hup & Hlow).
  exists ms, es. split; [reflexivity|]. split; [assumption|]. split; [lia|].
  set (e0 := da - db - 53) in *. set (k := es - e0) in *.
  set (E := 2 ^ (- es)).
  assert (0 < A) as HA by (subst A; apply Z.pow_pos_nonneg; lia).
  assert (0 < B) as HB by (subst B; apply Z.pow_pos_nonneg; lia).
  assert (0 < 2 ^ k) as Hk by (apply Z.pow_pos_nonneg; lia).
  assert (A * 2 ^ 53 = B * (E * 2 ^ k)) as H4.
  { subst A B E k e0. rewrite <- !Z.pow_add_r by lia. f_equal. lia. }
  assert (mb * q + r = a * (B * (E * 2 ^ k))) as HN.
  { rewrite <- Hdm, <- H4. subst ma. lia. }
  rewrite HN in Hup, Hlow. subst mb.
  assert (u * (b * B) <= 2 ^ k * (b * B)) as Hu'
    by (apply Z.mul_le_mono_nonneg_r; [apply Z.mul_nonneg_nonneg|]; lia).
  assert (0 < B * 2 ^ k) as HP by (apply Z.mul_pos_pos; lia).
  split.
  - apply (Z.mul_le_mono_pos_r _ _ (B * 2 ^ k)); [exact HP|]. lia.
  - apply (Z.mul_le_mono_pos_r _ _ (B * 2 ^ k)); [exact HP|]. lia.
Qed.

(** Rounding to 53 significant bits moves a positive integer by at most
    [2^-53] of its value. *)
Lemma r53_near (X : Z) :
  0 < X -> 2 ^ 53 * (r53 X - X) <= X /\ 2 ^ 53 * (X - r53 X) <= X.
Proof.
  intros HX.
  destruct (Z_le_gt_dec (Zdigits2 X - 53) 0) as [Hq|Hq].
  { unfold r53. cbv zeta. rewrite (proj2 (Z.leb_le _ _)) by lia. lia. }
  rewrite r53_eq by lia. rewrite rne_shift_cases by lia. cbv zeta.
  set (q := Zdigits2 X - 53) in *.
  assert (0 < 2 ^ q) as Hp by (apply Z.pow_pos_nonneg; lia).
  pose proof (Z.div_mod X (2 ^ q) ltac:(lia)) as Hdm.
  pose proof (Z.mod_pos_bound X (2 ^ q) Hp) as Hrho.
  pose proof (Zdigits2_bounds X HX) as [Hlow _].
  replace (Zdigits2 X - 1) with (52 + q) in Hlow by lia.
  rewrite Z.pow_add_r in Hlow by lia.
  set (P := 2 ^ q) in *. set (m := X / P) in *. set (rho := X mod P) in *.
  destruct (Z.ltb_spec P (2 * rho)) as [H1|H1]; cbn [orb].
  - lia.
  - destruct (Z.eqb_spec (2 * rho) P) as [H2|H2]; cbn [andb].
    + destruct (Z.odd m); lia.
    + lia.
Qed.

(** The arithmetic of one sample: [g] is the integer part of the rounded
    product [R] of the rank [i] and the step [ms / E]. *)
Lemma sample_within_one (a b i ms E R g : Z) :
  0 < b -> 0 < i -> 0 <= a -> 2 * (i * a) <= 2 ^ 52 -> 2 ^ 52 <= ms -> 0 < E ->
  2 * (ms * b) <= 2 * (a * E) + b ->
  2 * (a * E) <= 2 * (ms * b) + b ->
  2 ^ 53 * (R - i * ms) <= i * ms ->
  2 ^ 53 * (i * ms - R) <= i * ms ->
  E * g <= R < E * (g + 1) ->
  b * g <= i * a <= b * (g + 1).
Proof.
  intros Hb Hi Ha Hia Hms HE Dup Dlow Rup Rlow [F1 F2].
  assert (2 ^ 52 * b <= ms * b) as H4a by (apply Z.mul_le_mono_nonneg_r; lia).
  assert (i * ((2 ^ 53 - 1) * b) <= i * (2 * (a * E))) as H4
    by (apply Z.mul_le_mono_nonneg_l; lia).
  assert (2 * (i * a) * E <= 2 ^ 52 * E) as H5
    by (apply Z.mul_le_mono_nonneg_r; lia).
  split.
  - (* the sample is not above the exact value *)
    destruct (Z_le_gt_dec (b * g) (i * a)) as [|Hg]; [assumption|exfalso].
    assert ((2 ^ 53 * b) * (E * g) <= (2 ^ 53 * b) * R) as H1
      by (apply Z.mul_le_mono_nonneg_l; lia).
    assert (b * (2 ^ 53 * R) <= b * ((2 ^ 53 + 1) * (i * ms))) as H2
      by (apply Z.mul_le_mono_nonneg_l; lia).
    assert (((2 ^ 53 + 1) * i) * (2 * (ms * b))
            <= ((2 ^ 53 + 1) * i) * (2 * (a * E) + b)) as H3
      by (apply Z.mul_le_mono_nonneg_l; lia).
    assert ((2 * 2 ^ 53 * E) * (i * a + 1) <= (2 * 2 ^ 53 * E) * (b * g)) as Hg'
      by (apply Z.mul_le_mono_nonneg_l; lia).
    lia.
  - (* and less than one below it, or exactly one below an integer *)
    destruct (Z_le_gt_dec (i * a) (b * (g + 1))) as [|Hg]; [assumption|exfalso].
    assert ((2 ^ 53 * b) * (R + 1) <= (2 ^ 53 * b) * (E * (g + 1))) as H1
      by (apply Z.mul_le_mono_nonneg_l; lia).
    assert (b * ((2 ^ 53 - 1) * (i * ms)) <= b * (2 ^ 53 * R)) as H2
      by (apply Z.mul_le_mono_nonneg_l; lia).
    assert (((2 ^ 53 - 1) * i) * (2 * (a * E))
            <= ((2 ^ 53 - 1) * i) * (2 * (ms * b) + b)) as H3
      by (apply Z.mul_le_mono_nonneg_l; lia).
    assert ((2 * 2 ^ 53 * E) * (b * (g + 1)) <= (2 * 2 ^ 53 * E) * (i * a - 1)) as Hg'
      by (apply Z.mul_le_mono_nonneg_l; lia).
    assert (0 < 2 ^ 53 * b) by lia.
    lia.
Qed.

Lemma interpolate_within_one (T n : Z) (i : nat) :
  2 <= n <= T -> T * n <= 2 ^ 51 ->
  0 < Z.of_nat i < n - 1 ->
  (n - 1) * interpolate T n i <= Z.of_nat i * (T - 1)
                              <= (n - 1) * (interpolate T n i + 1).
Proof.
  intros Hn HT Hi.
  assert (T <= 2 ^ 51) as HT' by nia.
  assert (0 < n - 1 <= T - 1) as Hb by lia.
  destruct (div_of_Z (T - 1) (n - 1) Hb ltac:(lia)) as (ms & es & Hdiv & Hms & _ & Hst).
  destruct (Hst ltac:(lia)) as [Hes Hstep].
  destruct (div_of_Z_near (T - 1) (n - 1) ltac:(lia) ltac:(lia))
    as (ms' & es' & Hdiv' & Hms' & Hes' & Dup & Dlow).
  rewrite Hdiv in Hdiv'. injection Hdiv' as Hm He. subst es'.
  apply Z2Pos.inj in Hm; [subst ms'|lia|lia].
  pose proof (g_pos ms es (T - 1) (n - 1) Hms ltac:(lia) ltac:(lia) ltac:(lia) Hstep
                (Z.of_nat i) ltac:(lia)) as Hg.
  cbv beta in Hg. unfold interpolate. rewrite Hdiv, Hg.
  assert (0 < 2 ^ (- es)) as HE by (apply Z.pow_pos_nonneg; lia).
  assert (0 < Z.of_nat i * ms) as HX by (apply Z.mul_pos_pos; lia).
  destruct (r53_near (Z.of_nat i * ms) HX) as [Rup Rlow].
  apply (sample_within_one (T - 1) (n - 1) (Z.of_nat i) ms (2 ^ (- es))
           (r53 (Z.of_nat i * ms))); try lia.
  - assert (Z.of_nat i * (T - 1) <= n * T)
      by (apply Z.mul_le_mono_nonneg; lia).
    lia.
  - split.
    + apply Z.mul_div_le. lia.
    + apply Z.mul_succ_div_gt. lia.
Qed.

End Accuracy.

(** The samples against the exact interpolation, for
    [total_frames * frame_count <= 2^51].  The index of rank [i] is the
    integer part of [i * (total_frames - 1) / (frame_count - 1)], the exact
    quotient; or one less than it, which can only happen at a rank strictly
    between the first and the last where the quotient is an integer, the
    binary64 product falling just below that integer. *)
Theorem samples_follow_the_exact_interpolation (total_frames frame_count : Z) :
  2 <= frame_count <= total_frames ->
  total_frames * frame_count <= 2 ^ 51 ->
  exists indices,
    Np.sample total_frames frame_count = Some indices
    /\ forall (i : nat) (index : Z), indices !! i = Some index ->
         let exact := Z.of_nat i * (total_frames - 1) / (frame_count - 1) in
         index = exact
         \/ (index = exact - 1
             /\ (frame_count - 1 | Z.of_nat i * (total_frames - 1))
             /\ 0 < Z.of_nat i < frame_count - 1).
Proof.
  intros Hn HT.
  assert (total_frames <= 2 ^ 51) as HT' by nia.
  eexists. split; [apply sample_unfold; lia|].
  set (k := Z.to_nat (frame_count - 1)).
  assert (length (map (interpolate total_frames frame_count) (seq 0 k)) = k) as Hl
    by now rewrite length_map, length_seq.
  intros i index Hi exact.
  destruct (Nat.lt_ge_cases i k) as [Hlt|Hge].
  - rewrite lookup_app_l in Hi by lia.
    change (map ?f ?l) with (f <$> l) in Hi.
    rewrite list_lookup_fmap, lookup_seq_lt in Hi by lia. cbn in Hi.
    injection Hi as <-.
    destruct i as [|i].
    + left. subst exact. cbn [Z.of_nat].
      unfold interpolate. cbn [Z.of_nat].
      assert (0 < frame_count - 1 <= total_frames - 1) as Hb by lia.
      destruct (div_of_Z (total_frames - 1) (frame_count - 1) Hb ltac:(lia))
        as (ms & es & -> & _).
      reflexivity.
    + pose proof (interpolate_within_one total_frames frame_count (S i) Hn HT
                    ltac:(lia)) as [H1 H2].
      set (g := interpolate total_frames frame_count (S i)) in *.
      set (b := frame_count - 1) in *.
      set (X := Z.of_nat (S i) * (total_frames - 1)) in *.
      destruct (Z.eq_dec X (b * (g + 1))) as [Heq|Hne].
      * right. subst exact. fold X b. rewrite Heq.
        rewrite Z.mul_comm, Z.div_mul by lia.
        split; [lia|]. split; [exists (g + 1); lia | lia].
      * left. subst exact. fold X b.
        apply Z.div_unique with (X - b * g); lia.
  - rewrite lookup_app_r in Hi by lia. rewrite Hl in Hi.
    destruct (i - k)%nat as [|j] eqn:Ej; [|destruct j; discriminate].
    injection Hi as <-. left. subst exact.
    replace (Z.of_nat i) with (frame_count - 1) by lia.
    rewrite Z.mul_comm, Z.div_mul by lia. reflexivity.
Qed.

Lemma samples_follow_the_exact_interpolation_witness :
  exists indices,
    Np.sample 871 201 = Some indices
    /\ forall (i : nat) (index : Z), indices !! i = Some index ->
         let exact := Z.of_nat i * (871 - 1) / (201 - 1) in
         index = exact
         \/ (index = exact - 1
             /\ (201 - 1 | Z.of_nat i * (871 - 1))
             /\ 0 < Z.of_nat i < 201 - 1).
Proof.
  apply (samples_follow_the_exact_interpolation 871 201).
  - lia.
  - vm_compute. discriminate.
Defined.

(** The second case happens: with 871 frames and 201 samples the exact
    value at rank 100 is 435, and the index is 434. *)
Lemma a_sample_one_below_the_exact_value :
  100 * (871 - 1) / (201 - 1) = 435
  /\ exists indices, Np.sample 871 201 = Some indices /\ indices !! 100%nat = Some 434.
Proof. split; [reflexivity|]. eexists. split; [vm_compute; reflexivity | reflexivity]. Qed.

(** ** What the primary encoder is given *)

(** [save_video_with_imageio] never raises.  When it returns [True] the
    video is an entry of the folder, and the frames that were handed to the
    writer are 8-bit frames whose height and width are multiples of 16, as
    many as were passed; when it returns [False] the failure was printed. *)
Theorem primary_encoder_gets_uint8_frames_of_adjusted_size
    (env : backends) (frames : ndarray) (folder name : string) (w : world) :
  exists saved w',
    save_video_with_imageio env frames folder name w = (Ret saved, w')
    /\ (saved = true ->
        name ∈ contents w' folder
        /\ exists written n height width channels,
             last (log w') = Some (EvImageio folder name written)
             /\ nd_dtype written = UInt8
             /\ nd_shape written = [n; height; width; channels]
             /\ (16 | height) /\ (16 | width)
             /\ length (nd_items written) = length (nd_items frames))
    /\ (saved = false -> last (log w') = Some EvImageioError).
Proof.
  unfold save_video_with_imageio.
  set (frames8 := match nd_dtype frames with UInt8 => frames | _ => scale_to_uint8 frames end).
  assert (nd_dtype frames8 = UInt8 /\ nd_shape frames8 = nd_shape frames
          /\ length (nd_items frames8) = length (nd_items frames)) as (Hdt & Hsh & Hlen).
  { subst frames8. destruct (nd_dtype frames) eqn:E; cbn; rewrite ?length_map; auto. }
  destruct (adjust_dimensions_to_multiple_of_16 env frames8) as [adjusted|] eqn:Ea.
  2: { eexists _, _. split; [reflexivity|]. split; [discriminate|].
       intros _. cbn [log add_log]. apply last_snoc. }
  destruct (imageio_run env (imageio_calls w)) as [|partial].
  - unfold create_file. cbn [fs tick_imageio].
    destruct (fs w !! folder) as [entries|] eqn:Ef.
    + eexists _, _. split; [reflexivity|]. split; [|discriminate]. intros _. split.
      * unfold contents. cbn [fs add_log set_fs]. rewrite lookup_insert_eq. cbn. set_solver.
      * unfold adjust_dimensions_to_multiple_of_16 in Ea.
        destruct (nd_items frames8) as [|fr items] eqn:Ei; [discriminate|].
        destruct (nd_shape frames8) as [|n [|height [|width [|channels [|? ?]]]]] eqn:Es;
          try discriminate.
        destruct (round_up_16_spec height) as (Hh1 & _ & _).
        destruct (round_up_16_spec width) as (Hw1 & _ & _).
        destruct ((width =? round_up_16 width) && (height =? round_up_16 height)) eqn:E;
          injection Ea as <-.
        -- apply andb_true_iff in E as [Ew Eh]. apply Z.eqb_eq in Ew, Eh.
           exists frames8, n, height, width, channels.
           cbn [log add_log set_fs tick_imageio]. rewrite last_snoc.
           repeat split; try assumption; [now rewrite Eh | now rewrite Ew | now rewrite Ei].
        -- eexists _, n, (round_up_16 height), (round_up_16 width), channels.
           cbn [log add_log set_fs tick_imageio]. rewrite last_snoc.
           split; [reflexivity|]. cbn [nd_dtype nd_shape nd_items].
           repeat split; try assumption.
           rewrite <- Hlen. cbn [length map]. f_equal. apply length_map.
    + eexists _, _. split; [reflexivity|]. split; [discriminate|].
      intros _. cbn [log add_log]. apply last_snoc.
  - eexists _, _. split; [reflexivity|]. split; [discriminate|].
    intros _. cbn [log add_log]. apply last_snoc.
Qed.

(** ** Invariants along the four views *)

Section ViewInvariants.

Context (P : world -> Prop).
Hypothesis P_log : forall e w, P w -> P (add_log e w).
Context (env : backends) (task out : string) (fc mp : Z).
Hypothesis P_store : forall base trial vn sel,
  In vn view_dirs -> sampled fc sel ->
  preserves P (store_clip env base task out mp trial vn sel).

Lemma view_name_of_rgb_view (view vn : string) :
  In view rgb_views -> PyStr.split "_" view !! 1%nat = Some vn -> In vn view_dirs.
Proof.
  intros [<-|[<-|[<-|[<-|[]]]]]; vm_compute; intros [= <-]; tauto.
Qed.

Lemma preserves_for_each_in {A} (body : A -> M unit) (l : list A) :
  (forall x, In x l -> preserves P (body x)) -> preserves P (for_each body l).
Proof.
  induction l as [|x l IH]; intros Hb; cbn [for_each].
  - apply preserves_ret.
  - apply preserves_bind; [apply Hb; now left|].
    intros _. apply IH. intros y Hy. apply Hb. now right.
Qed.

Lemma preserves_rgb_view base trial data view :
  In view rgb_views ->
  preserves P (process_view env base task out fc mp trial data view).
Proof.
  intros Hview. unfold process_view.
  destruct (data !! view) as [ds|]; [|apply preserves_ret].
  apply preserves_bind; [now apply preserves_emit|]. intros _.
  apply preserves_bind; [apply preserves_of_option|]. intros frames.
  destruct (stream_invalid _ _) eqn:Hv; [apply preserves_ret|].
  destruct (Np.sample _ _) as [indices|] eqn:Es; [|apply preserves_raise].
  apply preserves_bind_some.
  destruct (take frames indices) as [sel|] eqn:Ht; [|apply preserves_raise].
  apply preserves_bind_some.
  apply preserves_bind; [now apply preserves_emit|]. intros _.
  unfold view_name_of.
  destruct (PyStr.split "_" view !! 1%nat) as [vn|] eqn:Evn; [|apply preserves_raise].
  apply preserves_bind_some.
  apply P_store; [eapply view_name_of_rgb_view; eassumption|].
  exists frames, indices. auto.
Qed.

Lemma preserves_rgb_trial file base trial :
  preserves P (process_trial env file base task out fc mp trial).
Proof.
  unfold process_trial.
  apply preserves_bind; [now apply preserves_emit|]. intros _.
  apply preserves_bind; [apply preserves_of_option|]. intros node.
  destruct (tr_data node) as [data|]; [|apply preserves_ret].
  apply preserves_bind.
  { apply preserves_for_each_in. intros v Hv. now apply preserves_rgb_view. }
  intros _. apply preserves_bind; [apply preserves_all_done|].
  intros [|]; [|apply preserves_ret].
  apply preserves_bind; [now apply preserves_emit | intros _; apply preserves_ret].
Qed.

Lemma preserves_rgb_walk h5_path base :
  preserves P (walk env h5_path base task out fc mp).
Proof.
  unfold walk.
  apply preserves_bind; [now apply preserves_emit|]. intros _.
  apply preserves_bind; [apply preserves_of_option|]. intros file.
  apply preserves_bind; [apply preserves_of_option|]. intros trials.
  apply preserves_bind.
  { apply preserves_for_each_return. intros t. apply preserves_rgb_trial. }
  intros [b|]; apply preserves_ret.
Qed.

Lemma process_h5_file_keeps h5_path (w : world) :
  P w -> P (snd (process_h5_file env h5_path task out fc mp w)).
Proof.
  intros H. unfold process_h5_file.
  pose proof (preserves_rgb_walk h5_path (PyStr.replace ".h5" "" (PyStr.basename h5_path))
                w H) as Hw.
  destruct (walk _ _ _ _ _ _ _ w) as [[b|e] w']; cbn [snd] in *; [exact Hw|].
  now do 2 apply P_log.
Qed.

Lemma process_files_keeps (files : list string) :
  forall w, P w -> P (process_files env task out fc mp files w).
Proof.
  induction files as [|f files IH]; intros w H; cbn [process_files]; [exact H|].
  pose proof (process_h5_file_keeps f w H) as Hf.
  destruct (process_h5_file env f task out fc mp w) as [cont w']; cbn [snd] in Hf.
  destruct cont; [now apply IH | exact Hf].
Qed.

End ViewInvariants.

(** ** What a run adds, and where *)

Section OnlyAdds.

Lemma only_adds_refl (dirs : list string) (w : world) : only_adds dirs w w.
Proof. repeat split; auto. Qed.

Lemma only_adds_trans (dirs : list string) (w1 w2 w3 : world) :
  only_adds dirs w1 w2 -> only_adds dirs w2 w3 -> only_adds dirs w1 w3.
Proof.
  intros (Ha & Hb & Hc) (Ha' & Hb' & Hc'). repeat split.
  - auto.
  - intros d. etrans; [apply Hb | apply Hb'].
  - intros d Hd. rewrite Hc', Hc by assumption. reflexivity.
Qed.

Lemma only_adds_log (dirs : list string) (e : event) (w w' : world) :
  only_adds dirs w w' -> only_adds dirs w (add_log e w').
Proof. intros H. exact H. Qed.

Lemma only_adds_insert (folder : string) (entries : gset string) (w w' : world) :
  fs w' = <[folder := entries]> (fs w) ->
  contents w folder ⊆ entries ->
  only_adds [folder] w w'.
Proof.
  intros Hfs Hsub. repeat split.
  - intros d Hd. rewrite Hfs. destruct (decide (d = folder)) as [->|Hne].
    + rewrite lookup_insert_eq. eauto.
    + now rewrite lookup_insert_ne by congruence.
  - intros d. rewrite (contents_insert w w' folder d entries Hfs).
    destruct (decide (d = folder)) as [->|]; [exact Hsub | reflexivity].
  - intros d Hd. rewrite Hfs. apply lookup_insert_ne. intros ->. apply Hd. now left.
Qed.

Lemma only_adds_same (dirs : list string) (w w' : world) :
  fs w' = fs w -> only_adds dirs w w'.
Proof.
  intros H. unfold only_adds, contents. rewrite H. repeat split; auto.
Qed.

Lemma touches_only_adds (folder name : string) (w w' : world) :
  touches_only folder name w w' -> only_adds [folder] w w'.
Proof.
  intros [H | (entries & He & H)]; [now apply only_adds_same|].
  eapply only_adds_insert; [exact H|].
  rewrite (contents_lookup _ _ _ He). set_solver.
Qed.

Lemma ensure_dir_adds (folder : string) (w : world) :
  only_adds [folder] w (snd (ensure_dir folder w)).
Proof.
  unfold ensure_dir. destruct (fs w !! folder) as [entries|] eqn:E; cbn [snd].
  - apply only_adds_refl.
  - apply only_adds_log. eapply only_adds_insert; [reflexivity|].
    unfold contents. rewrite E. set_solver.
Qed.

Lemma create_file_adds (folder name : string) (w : world) :
  only_adds [folder] w (snd (create_file folder name w)).
Proof. apply touches_only_adds with name, create_file_touches. Qed.

Lemma store_clip_adds
    (env : backends) (base task out : string) (mp : Z) (trial vn : string)
    (sel : ndarray) (w0 : world) :
  preserves (only_adds [PyStr.path_join out vn] w0)
            (store_clip env base task out mp trial vn sel).
Proof.
  set (folder := PyStr.path_join out vn).
  assert (forall (e : event) (w : world),
             only_adds [folder] w0 w -> only_adds [folder] w0 (add_log e w)) as Hlog
    by (intros e w H; exact H).
  unfold store_clip. fold folder.
  apply preserves_bind.
  { intros w H. eapply only_adds_trans; [exact H | apply ensure_dir_adds]. }
  intros _. apply preserves_bind; [apply preserves_listdir|]. intros entries.
  destruct (_ <=? _); [now apply preserves_emit|].
  apply preserves_bind.
  { intros w H. eapply only_adds_trans; [exact H|].
    eapply touches_only_adds, write_video_touches. }
  intros _. apply preserves_bind.
  { intros w H. eapply only_adds_trans; [exact H | apply create_file_adds]. }
  intros _. now apply preserves_emit.
Qed.

Lemma only_adds_weaken (dirs dirs' : list string) (w w' : world) :
  (forall d, In d dirs -> In d dirs') -> only_adds dirs w w' -> only_adds dirs' w w'.
Proof.
  intros Hsub (Ha & Hb & Hc). split; [exact Ha|]. split; [exact Hb|].
  intros d Hd. apply Hc. intros Hin. apply Hd. now apply Hsub.
Qed.

End OnlyAdds.


(** ** Saturation *)

Lemma saturated_store_clip
    (env : backends) (base task out : string) (mp : Z) (trial vn : string)
    (sel : ndarray) (w0 : world) :
  saturated out mp w0 -> In vn view_dirs ->
  preserves (fun w => fs w = fs w0 /\ imageio_calls w = imageio_calls w0
                      /\ cv2_calls w = cv2_calls w0)
            (store_clip env base task out mp trial vn sel).
Proof.
  intros Hs Hvn w (Hfs & Hi & Hc).
  destruct (Hs vn Hvn) as (entries & He & Hq).
  unfold store_clip, bind, ensure_dir, listdir. rewrite Hfs, He. cbv beta iota.
  rewrite Hfs, He. cbv beta iota.
  rewrite (proj2 (Z.leb_le _ _) Hq). cbn. auto.
Qed.

(** Once the four view directories hold [2 * max_pairs] entries or more, a
    run over any list of containers calls no encoder and leaves every
    directory as it is. *)
Theorem saturated_run_writes_nothing
    (env : backends) (task out : string) (fc mp : Z) (files : list string) (w : world) :
  saturated out mp w ->
  let w' := process_files env task out fc mp files w in
  fs w' = fs w /\ imageio_calls w' = imageio_calls w /\ cv2_calls w' = cv2_calls w.
Proof.
  intros Hs w'.
  apply (process_files_keeps
           (fun w1 => fs w1 = fs w /\ imageio_calls w1 = imageio_calls w
                      /\ cv2_calls w1 = cv2_calls w)).
  - intros e w1 H. exact H.
  - intros base trial vn sel Hvn _. now apply saturated_store_clip.
  - auto.
Qed.

Lemma saturated_run_writes_nothing_witness :
  let w' := process_files (Demo.env_ok (fun _ => Some Demo.two_trials)) "task" "out" 2 1
              ["./set/a.h5"; "./set/b.h5"] Demo.full_dirs in
  fs w' = fs Demo.full_dirs /\ imageio_calls w' = imageio_calls Demo.full_dirs
  /\ cv2_calls w' = cv2_calls Demo.full_dirs.
Proof.
  apply (saturated_run_writes_nothing (Demo.env_ok (fun _ => Some Demo.two_trials))
           "task" "out" 2 1 ["./set/a.h5"; "./set/b.h5"] Demo.full_dirs).
  intros v [<-|[<-|[<-|[<-|[]]]]]; (eexists; split; [reflexivity | vm_compute; discriminate]).
Defined.

Lemma all_done_true (out : string) (mp : Z) (views : list string) (w w' : world) :
  all_done out mp views w = (Ret true, w') ->
  w' = w
  /\ forall view, In view views ->
       exists vn entries,
         PyStr.split "_" view !! 1%nat = Some vn
         /\ fs w !! PyStr.path_join out vn = Some entries
         /\ 2 * mp <= len entries.
Proof.
  induction views as [|v views IH]; cbn [all_done].
  - intros [= <-]. split; [reflexivity|]. intros ? [].
  - unfold bind, view_name_of, of_option, listdir, ret, raise.
    destruct (PyStr.split "_" v !! 1%nat) as [vn|] eqn:Evn; [|discriminate].
    destruct (fs w !! PyStr.path_join out vn) as [entries|] eqn:Ef; [|discriminate].
    destruct (Z.ltb_spec (len entries) (2 * mp)) as [Hlt|Hge]; [discriminate|].
    intros H. destruct (IH H) as [-> Hall]. split; [reflexivity|].
    intros view [<-|Hin]; [exists vn, entries; auto | now apply Hall].
Qed.

Lemma for_each_return_some {A R} (body : A -> M (option R)) (l : list A) (r : R) :
  forall w w', for_each_return body l w = (Ret (Some r), w') ->
    exists x w1, In x l /\ body x w1 = (Ret (Some r), w').
Proof.
  induction l as [|x l IH]; intros w w'; cbn [for_each_return].
  - discriminate.
  - unfold bind. destruct (body x w) as [[[v|]|e] w1] eqn:Eb.
    + intros [= <- <-]. exists x, w. split; [now left | exact Eb].
    + intros H. destruct (IH _ _ H) as (y & w2 & Hy & Hb).
      exists y, w2. split; [now right | exact Hb].
    + discriminate.
Qed.

(** The walker returns [False] only when the four view directories exist
    and hold [2 * max_pairs] entries or more each. *)
Theorem false_only_when_saturated
    (env : backends) (h5_path task out : string) (fc mp : Z) (w w' : world) :
  process_h5_file env h5_path task out fc mp w = (false, w') ->
  saturated out mp w'.
Proof.
  unfold process_h5_file.
  destruct (walk _ _ _ _ _ _ _ w) as [[b|e] w1] eqn:Ew; [|discriminate].
  intros [= -> ->]. unfold walk in Ew.
  unfold bind at 1 in Ew. unfold emit at 1 in Ew.
  unfold bind at 1 in Ew. destruct (of_option OSError _ _) as [[file|?] w2]; [|discriminate].
  unfold bind at 1 in Ew. destruct (of_option ValueError _ _) as [[trials|?] w3]; [|discriminate].
  unfold bind at 1 in Ew.
  destruct (for_each_return _ trials w3) as [[[b|]|?] w4] eqn:Ef; try discriminate.
  injection Ew as -> ->.
  apply for_each_return_some in Ef as (trial & w5 & _ & Ht).
  unfold process_trial in Ht.
  unfold bind at 1 in Ht. unfold emit at 1 in Ht.
  unfold bind at 1 in Ht.
  destruct (of_option OSError _ _) as [[node|?] w6]; [|discriminate].
  destruct (tr_data node) as [data|]; [|discriminate].
  unfold bind at 1 in Ht.
  destruct (for_each _ rgb_views w6) as [[[]|?] w7]; [|discriminate].
  unfold bind at 1 in Ht.
  destruct (all_done out mp rgb_views w7) as [[[|]|?] w8] eqn:Ed; try discriminate.
  apply all_done_true in Ed as [-> Hall].
  injection Ht as <-.
  intros v Hv.
  assert (exists view, In view rgb_views /\ PyStr.split "_" view !! 1%nat = Some v)
    as (view & Hview & Hsplit).
  { destruct Hv as [<-|[<-|[<-|[<-|[]]]]];
      [exists "rgb_left" | exists "rgb_right" | exists "rgb_top" | exists "rgb_wrist"];
      (split; [cbn; tauto | reflexivity]). }
  destruct (Hall view Hview) as (vn & entries & Hvn & Hf & Hq).
  rewrite Hsplit in Hvn. injection Hvn as <-.
  exists entries. auto.
Qed.

Lemma false_only_when_saturated_witness :
  saturated "out" 1
    (snd (process_h5_file (Demo.env_ok (fun _ => Some Demo.two_trials))
            "./set/a.h5" "task" "out" 2 1 Demo.fresh_dirs)).
Proof.
  apply (false_only_when_saturated (Demo.env_ok (fun _ => Some Demo.two_trials))
           "./set/a.h5" "task" "out" 2 1 Demo.fresh_dirs).
  vm_compute. reflexivity.
Defined.

(** ** A frame count that is not positive *)

Lemma empty_selection_stores_nothing
    (env : backends) (base task out : string) (mp : Z) (trial vn : string)
    (sel : ndarray) (w : world) (d : string) :
  nd_items sel = [] ->
  contents (snd (store_clip env base task out mp trial vn sel w)) d = contents w d.
Proof.
  intros Hsel. unfold store_clip. unfold bind at 1.
  destruct (ensure_dir_spec (PyStr.path_join out vn) w) as (w0 & -> & Hf & Hc & _).
  unfold bind at 1. unfold listdir. rewrite Hf.
  destruct (_ <=? _); [cbn; apply Hc|].
  unfold bind at 1. unfold write_video, bind.
  unfold save_video_with_imageio, adjust_dimensions_to_multiple_of_16.
  assert (nd_items (match nd_dtype sel with
                    | UInt8 => sel
                    | _ => scale_to_uint8 sel
                    end) = []) as ->
    by (destruct (nd_dtype sel); cbn; now rewrite ?Hsel).
  unfold cv2_fallback. rewrite Hsel. cbn. apply Hc.
Qed.

(** With [frame_count <= 0] no file is ever written, whatever the
    containers hold and whatever the encoders do: a negative count makes the
    sampler raise, and with a count of zero the selection is empty, the
    primary encoder fails on [frames[0]] and so does the fallback. *)
Theorem nonpositive_frame_count_writes_nothing
    (env : backends) (task out : string) (fc mp : Z) (files : list string) (w : world) :
  fc <= 0 ->
  forall d, contents (process_files env task out fc mp files w) d = contents w d.
Proof.
  intros Hfc.
  apply (process_files_keeps (fun w1 => forall d, contents w1 d = contents w d)).
  - intros e w1 H. exact H.
  - intros base trial vn sel _ (frames & indices & Hs & Ht) w1 H1 d.
    rewrite <- H1. apply empty_selection_stores_nothing.
    destruct (Z.eq_dec fc 0) as [->|Hne].
    + change (Np.sample (nth 0 (nd_shape frames) 0) 0) with (Some (@nil Z)) in Hs.
      injection Hs as <-.
      unfold take in Ht. cbn in Ht. injection Ht as <-. reflexivity.
    + unfold Np.sample, Np.linspace_int in Hs.
      rewrite (proj2 (Z.ltb_lt fc 0)) in Hs by lia. discriminate.
  - reflexivity.
Qed.

Lemma nonpositive_frame_count_writes_nothing_witness :
  contents (process_files (Demo.env_ok (fun _ => Some Demo.two_trials)) "task" "out" 0 1
              ["./set/a.h5"; "./set/b.h5"] Demo.fresh_dirs) "out/left"
  = contents Demo.fresh_dirs "out/left".
Proof.
  apply (nonpositive_frame_count_writes_nothing
           (Demo.env_ok (fun _ => Some Demo.two_trials)) "task" "out" 0 1
           ["./set/a.h5"; "./set/b.h5"] Demo.fresh_dirs).
  lia.
Defined.

(** ** Paths *)

Section Paths.

Lemma contains_slash_cons (c : ascii) (s : string) :
  PyStr.contains "/" (String c s) = Ascii.eqb "/" c || PyStr.contains "/" s.
Proof.
  cbn [PyStr.contains PyStr.starts_with].
  destruct (Ascii.eqb "/" c); reflexivity.
Qed.

Lemma split_no_slash (s : string) :
  PyStr.contains "/" s = false -> PyStr.split "/" s = [s].
Proof.
  induction s as [|c s IH]; [reflexivity|].
  rewrite contains_slash_cons. intros H. apply orb_false_elim in H as [Hc Hs].
  cbn [PyStr.split]. rewrite Ascii.eqb_sym, Hc, (IH Hs). reflexivity.
Qed.

Lemma split_nonempty (sep : ascii) (s : string) : PyStr.split sep s <> [].
Proof.
  induction s as [|c s IH]; cbn [PyStr.split]; [discriminate|].
  destruct (Ascii.eqb c sep); [discriminate|].
  destruct (PyStr.split sep s); [contradiction | discriminate].
Qed.

Lemma last_cons_nonempty {A} (x d : A) (l : list A) :
  l <> [] -> List.last (x :: l) d = List.last l d.
Proof. destruct l; [contradiction | reflexivity]. Qed.

Lemma split_app_sep (sep : ascii) (a b : string) (d : string) :
  exists h t, PyStr.split sep (a +:+ String sep b) = h :: t
              /\ t <> [] /\ List.last t d = List.last (PyStr.split sep b) d.
Proof.
  induction a as [|c a (h & t & E & Hne & Hl)].
  - change (EmptyString +:+ String sep b) with (String sep b).
    cbn [PyStr.split]. rewrite Ascii.eqb_refl.
    exists EmptyString, (PyStr.split sep b).
    split; [reflexivity|]. split; [apply split_nonempty | reflexivity].
  - change (String c a +:+ String sep b) with (String c (a +:+ String sep b)).
    cbn [PyStr.split]. rewrite E. destruct (Ascii.eqb c sep).
    + exists EmptyString, (h :: t). split; [reflexivity|]. split; [discriminate|].
      now rewrite last_cons_nonempty.
    + exists (String c h), t. auto.
Qed.

Lemma basename_app_slash (a b : string) :
  PyStr.basename (a +:+ String "/" b) = PyStr.basename b.
Proof.
  unfold PyStr.basename.
  destruct (split_app_sep "/" a b EmptyString) as (h & t & -> & Hne & Hl).
  now rewrite last_cons_nonempty.
Qed.

Lemma ends_with_slash_app (a : string) :
  PyStr.ends_with_slash a = true -> exists a', a = a' +:+ "/".
Proof.
  induction a as [|c a IH]; [discriminate|].
  destruct a as [|c' a].
  - cbn. intros H. apply Ascii.eqb_eq in H as ->. now exists "".
  - intros H. destruct (IH H) as [a' ->]. now exists (String c a').
Qed.

Lemma app_assoc_slash (a' b : string) : (a' +:+ "/") +:+ b = a' +:+ String "/" b.
Proof. now rewrite app_assoc_string. Qed.

(** [os.path.basename(os.path.join(a, b))] is [b] for a name [b] without
    a slash. *)
Lemma basename_path_join (a b : string) :
  PyStr.contains "/" b = false -> PyStr.basename (PyStr.path_join a b) = b.
Proof.
  intros Hb.
  assert (PyStr.basename b = b) as Hbase
    by (unfold PyStr.basename; now rewrite split_no_slash).
  unfold PyStr.path_join.
  assert (PyStr.starts_with "/" b = false) as ->.
  { destruct b as [|c b]; [reflexivity|].
    rewrite contains_slash_cons in Hb. apply orb_false_elim in Hb as [Hc _].
    cbn [PyStr.starts_with]. now rewrite Hc. }
  destruct a as [|c a]; [exact Hbase|].
  destruct (PyStr.ends_with_slash (String c a)) eqn:E.
  - destruct (ends_with_slash_app _ E) as [a' ->].
    now rewrite app_assoc_slash, basename_app_slash.
  - change (String c a +:+ "/" +:+ b) with (String c a +:+ String "/" b).
    now rewrite basename_app_slash.
Qed.

End Paths.

(** ** Sanitized task names *)

Section Sanitize.

Context (unicode_word : ascii -> bool).

Local Abbreviation sanitize := (sanitize_filename unicode_word).

Lemma kept_underscore : kept unicode_word "_" = true.
Proof. reflexivity. Qed.

Lemma kept_not_slash (c : ascii) : kept unicode_word c = true -> Ascii.eqb "/" c = false.
Proof.
  intros H. destruct (Ascii.eqb_spec "/" c) as [<-|]; [|reflexivity].
  discriminate H.
Qed.

Lemma sanitize_kept (name : string) :
  Forall (fun c => kept unicode_word c = true) (list_ascii_of_string (sanitize name)).
Proof.
  induction name as [|c name IH]; cbn; constructor; [|exact IH].
  destruct (kept unicode_word c) eqn:E; [exact E | apply kept_underscore].
Qed.

Lemma sanitize_fixed (s : string) :
  Forall (fun c => kept unicode_word c = true) (list_ascii_of_string s) <->
  sanitize s = s.
Proof.
  induction s as [|c s IH]; cbn.
  - split; [reflexivity | constructor].
  - split.
    + intros H. inversion H as [|? ? Hc Hs]; subst. rewrite Hc. f_equal. now apply IH.
    + intros [= Hc Hs]. constructor; [|now apply IH].
      destruct (kept unicode_word c) eqn:E; [reflexivity|].
      subst c. now rewrite kept_underscore in E.
Qed.

Lemma kept_no_slash (s : string) :
  Forall (fun c => kept unicode_word c = true) (list_ascii_of_string s) ->
  PyStr.contains "/" s = false.
Proof.
  induction s as [|c s IH]; [reflexivity|]. cbn [list_ascii_of_string].
  intros H. inversion H as [|? ? Hc Hs]; subst.
  rewrite contains_slash_cons, (kept_not_slash _ Hc), (IH Hs). reflexivity.
Qed.


End Sanitize.

(** ** The top-level directory of an archive *)

Section TopLevel.

Lemma first_component_cons (c : ascii) (s : string) :
  first_component (String c s)
  = if Ascii.eqb c "/" then EmptyString else String c (first_component s).
Proof.
  unfold first_component. cbn [PyStr.split].
  destruct (Ascii.eqb c "/"); [reflexivity|].
  pose proof (split_nonempty "/" s) as H.
  destruct (PyStr.split "/" s); [contradiction | reflexivity].
Qed.

Lemma first_component_no_slash (name : string) :
  PyStr.contains "/" (first_component name) = false.
Proof.
  induction name as [|c name IH]; [reflexivity|].
  rewrite first_component_cons. destruct (Ascii.eqb c "/") eqn:E; [reflexivity|].
  rewrite contains_slash_cons, IH, Ascii.eqb_sym, E. reflexivity.
Qed.

Lemma top_level_dirs_spec (member_names : list string) (d : string) :
  d ∈ top_level_dirs member_names
  <-> exists name, In name member_names /\ name <> "." /\ first_component name = d.
Proof.
  unfold top_level_dirs. rewrite elem_of_list_to_set, list_elem_of_In, List.in_map_iff.
  split.
  - intros (name & Hd & Hin). apply List.filter_In in Hin as [Hin Hne].
    exists name. repeat split; try assumption.
    intros ->. discriminate Hne.
  - intros (name & Hin & Hne & Hd). exists name. split; [exact Hd|].
    apply List.filter_In. split; [exact Hin|].
    apply negb_true_iff, String.eqb_neq. exact Hne.
Qed.

(** What [extract_tarfile] returns, whatever the order in which Python
    iterates the set: [None] exactly when the archive has no member other
    than [.]; otherwise the first component of the name of one of its
    members, which holds no slash; and, when every member lies under the
    same top-level directory, that directory. *)
Theorem top_level_of_an_archive
    (listing : gset string -> list string) (member_names : list string) :
  (forall s, Permutation (listing s) (elements s)) ->
  (top_level listing member_names = None
   <-> Forall (fun name => name = ".") member_names)
  /\ (forall d, top_level listing member_names = Some d ->
        PyStr.contains "/" d = false
        /\ exists name, In name member_names /\ name <> "."
                        /\ first_component name = d)
  /\ (forall d,
        (exists name, In name member_names /\ name <> ".") ->
        (forall name, In name member_names -> name <> "." -> first_component name = d) ->
        top_level listing member_names = Some d).
Proof.
  intros Hperm. unfold top_level.
  assert (forall d, In d (listing (top_level_dirs member_names))
                    <-> d ∈ top_level_dirs member_names) as Hin.
  { intros d. rewrite <- list_elem_of_In, (Hperm _). apply elem_of_elements. }
  split; [|split].
  - split.
    + intros Hnone. apply List.Forall_forall. intros name Hname.
      destruct (String.eqb_spec name ".") as [E|E]; [exact E|].
      assert (In (first_component name) (listing (top_level_dirs member_names))) as Hd
        by (apply Hin, top_level_dirs_spec; eauto).
      destruct (listing _); [destruct Hd | discriminate].
    + intros Hall. destruct (listing _) as [|d l]; [reflexivity|].
      assert (d ∈ top_level_dirs member_names) as Hd by (apply Hin; now left).
      apply top_level_dirs_spec in Hd as (name & Hname & Hne & _).
      eapply List.Forall_forall in Hall; [|exact Hname]. contradiction.
  - intros d Hd.
    assert (d ∈ top_level_dirs member_names) as Hd'.
    { apply Hin. destruct (listing _); [discriminate | injection Hd as ->; now left]. }
    apply top_level_dirs_spec in Hd' as (name & Hname & Hne & <-).
    split; [apply first_component_no_slash | eauto].
  - intros d (name & Hname & Hne) Hall.
    assert (In (first_component name) (listing (top_level_dirs member_names))) as Hd
      by (apply Hin, top_level_dirs_spec; eauto).
    destruct (listing _) as [|d' l]; [destruct Hd|].
    assert (d' ∈ top_level_dirs member_names) as Hd' by (apply Hin; now left).
    apply top_level_dirs_spec in Hd' as (name' & Hname' & Hne' & <-).
    cbn. f_equal. now apply Hall.
Qed.

Lemma top_level_of_an_archive_witness :
  (top_level elements ["."; "set"; "set/a.h5"] = None
   <-> Forall (fun name => name = ".") ["."; "set"; "set/a.h5"])
  /\ (forall d, top_level elements ["."; "set"; "set/a.h5"] = Some d ->
        PyStr.contains "/" d = false
        /\ exists name, In name ["."; "set"; "set/a.h5"] /\ name <> "."
                        /\ first_component name = d)
  /\ (forall d,
        (exists name, In name ["."; "set"; "set/a.h5"] /\ name <> ".") ->
        (forall name, In name ["."; "set"; "set/a.h5"] -> name <> "." ->
                      first_component name = d) ->
        top_level elements ["."; "set"; "set/a.h5"] = Some d).
Proof.
  apply (top_level_of_an_archive elements ["."; "set"; "set/a.h5"]).
  intros s. reflexivity.
Defined.

End TopLevel.

(** ** The walker without a quota *)

Section SimpleWalker.

Context (env : backends) (base task out : string) (fc : Z).

Lemma simple_process_view_ready
    (trial : string) (data : gmap string dataset) (view : string) (frames : ndarray)
    (indices : list Z) (sel : ndarray) (vn : string) (w : world) :
  view_ready fc data view frames indices sel vn ->
  Simple.process_view env base task out fc trial data view w
  = Simple.store_clip env base task out trial vn sel
      (add_log (EvSample trial view indices) (add_log (EvRead trial view) w)).
Proof.
  intros (Hd & Hv & Hs & Ht & Hn). unfold Simple.process_view, view_name_of.
  rewrite Hd. unfold bind, emit, of_option, ret. now rewrite Hv, Hs, Ht, Hn.
Qed.

Lemma selection_shape (frames : ndarray) (indices : list Z) (sel : ndarray) :
  stream_invalid (nd_shape frames) fc = false ->
  take frames indices = Some sel ->
  indices <> [] ->
  exists fr items n height width channels,
    nd_items sel = fr :: items /\ nd_shape sel = [n; height; width; channels].
Proof.
  intros Hv Ht Hne.
  pose proof (take_items _ _ _ Ht Hne) as Hi.
  pose proof (take_rank _ _ _ (stream_valid_rank _ _ Hv) Ht) as Hr.
  destruct (nd_items sel) as [|fr items]; [congruence|].
  destruct (nd_shape sel) as [|n [|height [|width [|channels [|? ?]]]]]; try discriminate.
  eauto 10.
Qed.


End SimpleWalker.


(** ** The files a driver opens *)

Section SimpleLog.

Context (P : world -> Prop).
Hypothesis P_quiet : forall e w, (forall p, e <> EvOpen p) -> P w -> P (add_log e w).
Hypothesis P_log_only : forall w w', log w' = log w -> P w -> P w'.

Lemma quiet_emit (e : event) : (forall p, e <> EvOpen p) -> preserves P (emit e).
Proof. intros He w H. now apply P_quiet. Qed.

Lemma quiet_create_file (folder name : string) : preserves P (create_file folder name).
Proof.
  intros w H. unfold create_file. destruct (fs w !! folder); cbn [snd]; [|exact H].
  now apply (P_log_only w).
Qed.

Lemma quiet_cv2_writer (r : open_result) (folder name : string) :
  preserves P (Simple.cv2_writer r folder name).
Proof.
  unfold Simple.cv2_writer.
  apply preserves_bind; [apply quiet_emit; discriminate|]. intros _.
  destruct r; [|apply preserves_ret|apply preserves_raise].
  intros w H. destruct (fs w !! folder) eqn:E; [|exact H].
  revert w H E. intros w H _.
  apply (preserves_bind P (create_file folder name) (fun _ => ret true));
    [apply quiet_create_file | intros _; apply preserves_ret | exact H].
Qed.

Lemma quiet_cv2_encode (env : backends) (sel : ndarray) (folder name : string) :
  preserves P (Simple.cv2_encode env sel folder name).
Proof.
  unfold Simple.cv2_encode.
  destruct (nd_items sel) as [|fr items]; [apply preserves_raise|].
  destruct (nd_shape sel) as [|n [|h [|w0 [|c [|? ?]]]]]; try apply preserves_raise.
  intros w H.
  assert (P (tick_cv2 w)) as Ht by (now apply (P_log_only w)).
  revert Ht. generalize (tick_cv2 w). generalize (cv2_run env (cv2_calls w)).
  intros c0. apply preserves_bind; [apply quiet_cv2_writer|]. intros _.
  destruct (cv_frames_ok c0); [apply quiet_emit; discriminate | apply preserves_raise].
Qed.

Lemma quiet_store_clip (env : backends) (base task out trial vn : string) (sel : ndarray) :
  preserves P (Simple.store_clip env base task out trial vn sel).
Proof.
  unfold Simple.store_clip.
  apply preserves_bind; [apply quiet_cv2_encode|]. intros _.
  apply preserves_bind; [apply quiet_create_file|]. intros _.
  apply quiet_emit. discriminate.
Qed.

Lemma quiet_process_view (env : backends) (base task out : string) (fc : Z)
    (trial : string) (data : gmap string dataset) (view : string) :
  preserves P (Simple.process_view env base task out fc trial data view).
Proof.
  unfold Simple.process_view.
  destruct (data !! view) as [ds|]; [|apply preserves_ret].
  apply preserves_bind; [apply quiet_emit; discriminate|]. intros _.
  apply preserves_bind; [apply preserves_of_option|]. intros frames.
  destruct (stream_invalid _ _); [apply preserves_ret|].
  apply preserves_bind; [apply preserves_of_option|]. intros indices.
  apply preserves_bind; [apply preserves_of_option|]. intros sel.
  apply preserves_bind; [apply quiet_emit; discriminate|]. intros _.
  apply preserves_bind; [apply preserves_of_option|]. intros vn.
  apply quiet_store_clip.
Qed.

Lemma quiet_process_trial (env : backends) (file : container) (base task out : string)
    (fc : Z) (trial : string) :
  preserves P (Simple.process_trial env file base task out fc trial).
Proof.
  unfold Simple.process_trial.
  apply preserves_bind; [apply quiet_emit; discriminate|]. intros _.
  apply preserves_bind; [apply preserves_of_option|]. intros node.
  destruct (tr_data node) as [data|]; [|apply preserves_ret].
  apply preserves_for_each. intros v. apply quiet_process_view.
Qed.

Lemma quiet_after_open (env : backends) (h5_path task out : string) (fc : Z) (w : world) :
  P (add_log (EvOpen h5_path) w) ->
  P (Simple.process_h5_file env h5_path task out fc w).
Proof.
  intros H. unfold Simple.process_h5_file, Simple.walk.
  unfold bind at 1. unfold emit at 1.
  set (rest := (let! file := _ in _)%walker).
  assert (preserves P rest) as Hrest.
  { subst rest.
    apply preserves_bind; [apply preserves_of_option|]. intros file.
    apply preserves_bind; [apply preserves_of_option|]. intros trials.
    apply preserves_for_each. intros t. apply quiet_process_trial. }
  specialize (Hrest _ H).
  destruct (rest (add_log (EvOpen h5_path) w)) as [[[]|e] w']; cbn [snd] in Hrest;
    [exact Hrest|].
  apply P_quiet; [discriminate | exact Hrest].
Qed.

End SimpleLog.

Lemma opened_add_log (e : event) (w : world) :
  opened (log (add_log e w))
  = (opened (log w) ++ match e with EvOpen p => [p] | _ => [] end)%list.
Proof.
  unfold opened. cbn [log add_log]. rewrite omap_app. cbn. now destruct e.
Qed.

(** The driver of [prepare_Autonomous.py] never stops early: it opens
    every located file, in the order in which they were located, whatever
    happened with the files before (a container that cannot be opened, a
    key that is not a number, an encoder that raises). *)
Theorem simple_driver_opens_every_file
    (env : backends) (task out : string) (fc : Z) (files : list string) (w : world) :
  opened (log (Simple.process_files env task out fc files w))
  = (opened (log w) ++ files)%list.
Proof.
  unfold Simple.process_files. revert w.
  induction files as [|f files IH]; intros w; cbn [fold_left].
  - now rewrite app_nil_r.
  - rewrite IH.
    rewrite (quiet_after_open (fun w1 => opened (log w1) = (opened (log w) ++ [f])%list)).
    + now rewrite <- app_assoc.
    + intros e w1 He H. rewrite opened_add_log, H.
      destruct e; try apply app_nil_r. now destruct (He h5_path).
    + intros w1 w2 Hl H. now rewrite Hl.
    + apply opened_add_log.
Qed.

(** ** Failures of one row *)

Section Rows.

Context (unicode_word : ascii -> bool) (env : backends)
        (fetch : string -> download_result) (base_dir : string) (frame_count : Z).

Lemma contents_remove_file (filename : string) (w : world) :
  filename ∉ contents (remove_file filename w) ".".
Proof.
  unfold remove_file, contents. cbn [fs add_log set_fs].
  rewrite lookup_insert_eq. cbn. set_solver.
Qed.


(** A URL that ends with a slash names no file: the download raises, and
    so does the removal that the handler attempts; this exception leaves
    [download_and_process_item]. *)
Theorem a_row_without_file_name_raises
    (task_name_field url_field : string) (w : world) :
  PyStr.basename (strip_quotes url_field) = "" ->
  exists w',
    download_and_process_item unicode_word env fetch base_dir frame_count
      task_name_field url_field w
    = (Raise OSError, w').
Proof.
  intros Hname. unfold download_and_process_item. rewrite Hname.
  unfold bind at 1.
  destruct (ensure_dir_spec
              (PyStr.path_join base_dir
                 (sanitize_filename unicode_word (strip_quotes task_name_field))) w)
    as (w0 & -> & _).
  unfold bind at 1. unfold bind at 1. unfold download_file.
  destruct (fetch (strip_quotes url_field)); eexists; reflexivity.
Qed.

End Rows.


Lemma a_row_without_file_name_raises_witness :
  exists w',
    download_and_process_item (fun _ => false) (Demo.env_ok (fun _ => None))
      (fun _ => Downloaded) "./Autonomous" 25
      "pick the block" "https://host/sets/" Demo.empty_world
    = (Raise OSError, w').
Proof.
  apply (a_row_without_file_name_raises (fun _ => false) (Demo.env_ok (fun _ => None))
           (fun _ => Downloaded) "./Autonomous" 25
           "pick the block" "https://host/sets/" Demo.empty_world).
  reflexivity.
Defined.
